(** * badge-quest: date utilities and toast service

    A shallow embedding of [src/utils/date.utils.ts] and
    [src/toast/toast.service.ts], together with the part of the JavaScript
    runtime the two files call into (decimal rendering of integers, string
    slicing and splitting, the calendar arithmetic of [Date], the ISO date
    format, a [BehaviorSubject] and one-shot timers). *)

From Stdlib Require Import ZArith QArith Qabs Lia Ascii String List.
From Stdlib Require Qcanon.
From Stdlib Require Import Decimal DecimalString DecimalZ.
From stdpp Require Import base tactics option list strings.

Local Open Scope Z_scope.

(** ** Completions

    A JavaScript call either returns or throws.  The only exception the
    two source files construct is [RangeError] (in [toDate]); messages are
    not modelled. *)

Inductive exn : Type :=
  | RangeError.

Inductive completion (A : Type) : Type :=
  | Normal (a : A)
  | Throw (e : exn).

Arguments Normal {A} a.
Arguments Throw {A} e.

Definition is_throw {A} (c : completion A) : bool :=
  match c with Throw _ => true | Normal _ => false end.

#[global] Instance completion_ret : MRet completion := fun A a => Normal a.

#[global] Instance completion_bind : MBind completion := fun A B k c =>
  match c with
  | Normal a => k a
  | Throw e => Throw e
  end.

(** ** The runtime the sources rely on *)

Module JS.

(** *** Strings and integers *)

(** [Number::toString] on an integer below 10^21: the decimal digits, with
    a leading minus sign for negative values. *)
Definition Number_toString (n : Z) : string :=
  NilZero.string_of_int (Z.to_int n).

(** [String.prototype.slice(start, end)] for [0 <= start <= end]. *)
Definition String_slice (s : string) (start stop : nat) : string :=
  String.substring start (stop - start) s.

(** [s.split(sep)[0]] for a one-character separator: everything before
    the first occurrence of [sep], the whole string when there is none. *)
Fixpoint split_head (sep : ascii) (s : string) : string :=
  match s with
  | EmptyString => EmptyString
  | String c s' => if Ascii.eqb c sep then EmptyString else String c (split_head sep s')
  end.

Definition is_digit (c : ascii) : bool :=
  (48 <=? nat_of_ascii c)%nat && (nat_of_ascii c <=? 57)%nat.

Fixpoint all_digits (s : string) : bool :=
  match s with
  | EmptyString => true
  | String c s' => is_digit c && all_digits s'
  end.

(** [lacks c s]: the character [c] does not occur in [s]. *)
Fixpoint lacks (c : ascii) (s : string) : bool :=
  match s with
  | EmptyString => true
  | String c' s' => negb (Ascii.eqb c' c) && lacks c s'
  end.

Definition digit_char (d : Z) : ascii :=
  ascii_of_nat (48 + Z.to_nat (d mod 10)).

(** The [w] low decimal digits of [n], most significant first
    (zero-padded fields of the date format). *)
Fixpoint pad (w : nat) (n : Z) : string :=
  match w with
  | O => EmptyString
  | S w' => String (digit_char (n / 10 ^ Z.of_nat w')) (pad w' n)
  end.

(** *** Day number and time within day (ECMA-262, 21.4.1.3 to 21.4.1.14) *)

Definition msPerDay : Z := 86400000.
Definition msPerHour : Z := 3600000.
Definition msPerMinute : Z := 60000.
Definition msPerSecond : Z := 1000.

Definition Day (t : Z) : Z := t / msPerDay.
Definition TimeWithinDay (t : Z) : Z := t mod msPerDay.

Definition leap (y : Z) : bool :=
  ((y mod 4 =? 0) && negb (y mod 100 =? 0)) || (y mod 400 =? 0).

Definition DaysInYear (y : Z) : Z := if leap y then 366 else 365.

Definition DayFromYear (y : Z) : Z :=
  365 * (y - 1970) + (y - 1969) / 4 - (y - 1901) / 100 + (y - 1601) / 400.

(** [YearFromTime] is specified as the largest [y] with
    [DayFromYear y <= Day t].  It is computed here from the mean year length
    of the 400-year cycle, corrected by at most one year;
    [YearFromDay_spec] below shows that this is the specified year. *)
Definition YearFromDay (d : Z) : Z :=
  let y := 1970 + (400 * d) / 146097 in
  if d <? DayFromYear y then y - 1
  else if DayFromYear (y + 1) <=? d then y + 1
  else y.

Definition YearFromTime (t : Z) : Z := YearFromDay (Day t).

Definition InLeapYear (t : Z) : Z :=
  if leap (YearFromTime t) then 1 else 0.

Definition DayWithinYear (t : Z) : Z :=
  Day t - DayFromYear (YearFromTime t).

(** Day within the year on which month [m] (0 = January) starts;
    [l] is 1 in a leap year and 0 otherwise. *)
Definition month_start (l m : Z) : Z :=
  match m with
  | 0 => 0
  | 1 => 31
  | 2 => 59 + l
  | 3 => 90 + l
  | 4 => 120 + l
  | 5 => 151 + l
  | 6 => 181 + l
  | 7 => 212 + l
  | 8 => 243 + l
  | 9 => 273 + l
  | 10 => 304 + l
  | 11 => 334 + l
  | _ => 365 + l
  end.

Definition MonthFromTime (t : Z) : Z :=
  let d := DayWithinYear t in
  let l := InLeapYear t in
  if d <? 31 then 0
  else if d <? 59 + l then 1
  else if d <? 90 + l then 2
  else if d <? 120 + l then 3
  else if d <? 151 + l then 4
  else if d <? 181 + l then 5
  else if d <? 212 + l then 6
  else if d <? 243 + l then 7
  else if d <? 273 + l then 8
  else if d <? 304 + l then 9
  else if d <? 334 + l then 10
  else 11.

Definition DateFromTime (t : Z) : Z :=
  DayWithinYear t - month_start (InLeapYear t) (MonthFromTime t) + 1.

Definition HourFromTime (t : Z) : Z := (t / msPerHour) mod 24.
Definition MinFromTime (t : Z) : Z := (t / msPerMinute) mod 60.
Definition SecFromTime (t : Z) : Z := (t / msPerSecond) mod 60.
Definition msFromTime (t : Z) : Z := t mod msPerSecond.

(** [MakeDay year month date] for a month already in 0..11. *)
Definition MakeDay (year month date : Z) : Z :=
  DayFromYear year + month_start (if leap year then 1 else 0) month + date - 1.

Definition DaysInMonth (year month : Z) : Z :=
  let l := if leap year then 1 else 0 in
  month_start l (month + 1) - month_start l month.

(** *** Time values

    A [Date] object holds a time value: an integral number of milliseconds
    since the epoch with magnitude at most 8.64e15, or NaN ([None]). *)

Definition maxTime : Z := 8640000000000000.

Definition Date : Type := option Z.

Definition in_range (t : Z) : bool := (- maxTime <=? t) && (t <=? maxTime).

(** *** The ISO format written by [toISOString] (ECMA-262, 21.4.4.36)

    [YYYY-MM-DDTHH:mm:ss.sssZ], the year as four digits from 0 to 9999 and
    as a sign followed by six digits otherwise. *)

Definition iso_year (y : Z) : string :=
  if (0 <=? y) && (y <=? 9999) then pad 4 y
  else String (if y <? 0 then "-"%char else "+"%char) (pad 6 (Z.abs y)).

Definition iso_date (t : Z) : string :=
  iso_year (YearFromTime t) +:+ "-" +:+ pad 2 (MonthFromTime t + 1)
    +:+ "-" +:+ pad 2 (DateFromTime t).

Definition iso_time (t : Z) : string :=
  pad 2 (HourFromTime t) +:+ ":" +:+ pad 2 (MinFromTime t) +:+ ":"
    +:+ pad 2 (SecFromTime t) +:+ "." +:+ pad 3 (msFromTime t).

Definition ISO_string (t : Z) : string :=
  iso_date t +:+ "T" +:+ iso_time t +:+ "Z".

Definition Date_toISOString (d : Date) : completion string :=
  match d with
  | None => Throw RangeError
  | Some t => Normal (ISO_string t)
  end.

(** *** Numbers

    A double is modelled by the extended rational it denotes.  The
    arithmetic operators round their exact result to binary64 (to the
    nearest double, a tie to the one with an even significand); the sign of
    zero is not modelled. *)

Inductive number : Type :=
  | NaN
  | Inf (negative : bool)
  | Num (q : Q).

(** [n / d] rounded to the nearest integer, a tie to the even one, for
    [d > 0]. *)
Definition rne (n d : Z) : Z :=
  let m := n / d in
  let r := n mod d in
  if 2 * r <? d then m
  else if d <? 2 * r then m + 1
  else if Z.even m then m else m + 1.

(** The exponent of [n / d], for [n >= 0] and [d > 0]: the least [k >= 0]
    with [n / (d * 2 ^ k) < 2 ^ 53]. *)
Definition binade (n d : Z) : Z :=
  let c := Z.log2 n - Z.log2 d in
  Z.max 0 ((if d * 2 ^ c <=? n then c else c - 1) - 52).

(** [n / d] rounded to 53 significant bits. *)
Definition round_steps (n d : Z) : Z :=
  let k := binade n d in rne n (d * 2 ^ k) * 2 ^ k.

(** The doubles are multiples of [2 ^ -1074]; [steps] is the number of
    such steps in 1. *)
Definition steps : Z := 2 ^ 1074.

(** The double nearest to [q]; from [2 ^ 1024 - 2 ^ 970] on it is an
    infinity. *)
Definition round64 (q : Q) : number :=
  let n := Qnum q * steps in
  let r := round_steps (Z.abs n) (Z.pos (Qden q)) in
  if r <? 2 ^ 1024 * steps then Num (Qred (Qmake (Z.sgn n * r) (Z.to_pos steps)))
  else Inf (Qnum q <? 0).

#[global] Arguments round64 : simpl never.

(** The finite doubles: the multiples [m * 2 ^ k] of [2 ^ -1074] with
    [m] below [2 ^ 53] in magnitude, up to the largest one. *)
Definition double (x : Q) : Prop :=
  exists m k, Z.abs m < 2 ^ 53 /\ 0 <= k <= 2045 /\
    Qnum x * steps = m * 2 ^ k * Z.pos (Qden x).

Definition num_sub (x y : number) : number :=
  match x, y with
  | NaN, _ | _, NaN => NaN
  | Inf s, Inf s' => if Bool.eqb s s' then NaN else Inf s
  | Inf s, Num _ => Inf s
  | Num _, Inf s => Inf (negb s)
  | Num p, Num q => round64 (p - q)
  end.

Definition Qnegative (q : Q) : bool := (Qnum q <? 0).

Definition num_div (x y : number) : number :=
  match x, y with
  | NaN, _ | _, NaN => NaN
  | Inf _, Inf _ => NaN
  | Inf s, Num q => Inf (xorb s (Qnegative q))
  | Num _, Inf _ => Num 0%Q
  | Num p, Num q =>
      if Qeq_bool q 0 then (if Qeq_bool p 0 then NaN else Inf (Qnegative p))
      else round64 (p / q)
  end.

Definition of_Z (z : Z) : number := Num (inject_Z z).

(** [TimeClip]: values off the finite range are NaN, others are truncated
    to an integer. *)
Definition TimeClip (x : number) : Date :=
  match x with
  | Num q =>
      if Qle_bool (Qabs q) (inject_Z maxTime)
      then Some (Z.quot (Qnum q) (Z.pos (Qden q)))
      else None
  | _ => None
  end.

Definition Date_getTime (d : Date) : number :=
  match d with
  | Some t => of_Z t
  | None => NaN
  end.

(** *** Reading the date-only forms of the ISO format (ECMA-262, 21.4.1.32)

    [YYYY], [YYYY-MM] and [YYYY-MM-DD], the year either four digits or a
    sign and six digits ([-000000] is not a year).  A date-only form denotes
    midnight UTC. *)

Definition digit_value (c : ascii) : option Z :=
  if is_digit c then Some (Z.of_nat (nat_of_ascii c) - 48) else None.

(** Exactly [w] digits, most significant first, continuing [acc]. *)
Fixpoint read_digits (w : nat) (s : string) (acc : Z) : option (Z * string) :=
  match w with
  | O => Some (acc, s)
  | S w' =>
      match s with
      | EmptyString => None
      | String c s' =>
          match digit_value c with
          | Some d => read_digits w' s' (10 * acc + d)
          | None => None
          end
      end
  end.

Definition read_year (s : string) : option (Z * string) :=
  match s with
  | String c r =>
      if Ascii.eqb c "+" then read_digits 6 r 0
      else if Ascii.eqb c "-" then
        match read_digits 6 r 0 with
        | Some (y, r') => if y =? 0 then None else Some (- y, r')
        | None => None
        end
      else read_digits 4 s 0
  | EmptyString => None
  end.

(** A hyphen and a two-digit field. *)
Definition read_field (s : string) : option (Z * string) :=
  match s with
  | String c r => if Ascii.eqb c "-" then read_digits 2 r 0 else None
  | EmptyString => None
  end.

(** Year, month (1 to 12) and day of the month as written. *)
Definition parse_date_only (s : string) : option (Z * Z * Z) :=
  match read_year s with
  | None => None
  | Some (y, EmptyString) => Some (y, 1, 1)
  | Some (y, r1) =>
      match read_field r1 with
      | None => None
      | Some (m, EmptyString) => Some (y, m, 1)
      | Some (m, r2) =>
          match read_field r2 with
          | Some (d, EmptyString) => Some (y, m, d)
          | _ => None
          end
      end
  end.

Section DateParse.

(** What the engine makes of every other string: the forms of the ISO
    format that carry a time, date-only forms naming a day that does not
    exist (engines differ on those), and the engine's own fallback
    formats.  The result is a number of milliseconds or NaN. *)
Variable other_formats : string -> number.

Definition Date_parse (s : string) : number :=
  match parse_date_only s with
  | Some (y, m, d) =>
      if (1 <=? m) && (m <=? 12) && (1 <=? d) && (d <=? DaysInMonth y (m - 1))
      then of_Z (MakeDay y (m - 1) d * msPerDay)
      else other_formats s
  | None => other_formats s
  end.

End DateParse.

(** *** Arithmetic and comparison of numbers *)

Definition num_add (x y : number) : number :=
  match x, y with
  | NaN, _ | _, NaN => NaN
  | Inf s, Inf s' => if Bool.eqb s s' then Inf s else NaN
  | Inf s, Num _ => Inf s
  | Num _, Inf s => Inf s
  | Num p, Num q => round64 (p + q)
  end.

Definition num_mul (x y : number) : number :=
  match x, y with
  | NaN, _ | _, NaN => NaN
  | Inf s, Inf s' => Inf (xorb s s')
  | Inf s, Num q => if Qeq_bool q 0 then NaN else Inf (xorb s (Qnegative q))
  | Num p, Inf s => if Qeq_bool p 0 then NaN else Inf (xorb s (Qnegative p))
  | Num p, Num q => round64 (p * q)
  end.

(** [x < y], [x <= y] and [x === y]; a comparison with NaN is false. *)
Definition num_ltb (x y : number) : bool :=
  match x, y with
  | NaN, _ | _, NaN => false
  | Inf s, Inf s' => s && negb s'
  | Inf s, Num _ => s
  | Num _, Inf s => negb s
  | Num p, Num q => negb (Qle_bool q p)
  end.

Definition num_leb (x y : number) : bool :=
  match x, y with
  | NaN, _ | _, NaN => false
  | Inf s, Inf s' => s || negb s'
  | Inf s, Num _ => s
  | Num _, Inf s => negb s
  | Num p, Num q => Qle_bool p q
  end.

Definition num_eqb (x y : number) : bool :=
  match x, y with
  | Inf s, Inf s' => Bool.eqb s s'
  | Num p, Num q => Qeq_bool p q
  | _, _ => false
  end.

(** Truncation toward zero. *)
Definition Qtrunc (q : Q) : Z := Z.quot (Qnum q) (Z.pos (Qden q)).

(** [x % d] for a non-zero integer [d]: the remainder takes the sign of
    [x]; it is NaN unless [x] is finite. *)
Definition num_rem (x : number) (d : Z) : number :=
  match x with
  | Num q => Num (q - inject_Z d * inject_Z (Qtrunc (q / inject_Z d)))%Q
  | _ => NaN
  end.

(** [ToIntegerOrInfinity] where a value that is not finite has been ruled
    out: [None] stands for that case. *)
Definition to_integer (x : number) : option Z :=
  match x with
  | Num q => Some (Qtrunc q)
  | _ => None
  end.

(** The double nearest to an integer, which is an integer again; [None]
    when it is an infinity. *)
Definition fl (z : Z) : option Z :=
  match round64 (inject_Z z) with
  | Num q => Some (Qtrunc q)
  | _ => None
  end.

#[global] Arguments fl : simpl never.

(** *** Composing time values (ECMA-262, 21.4.1.27 to 21.4.1.30)

    The operations work on integral doubles, and every sum and product
    is rounded as the operators [+] and [*] round.  [None] stands for a
    result that is not finite: the setters and [TimeClip] turn an infinity
    into NaN like NaN itself. *)

Definition MakeTime (hour min sec ms : number) : option Z :=
  h ← to_integer hour;
  m ← to_integer min;
  s ← to_integer sec;
  milli ← to_integer ms;
  hm ← fl (h * msPerHour);
  mm ← fl (m * msPerMinute);
  a ← fl (hm + mm);
  sm ← fl (s * msPerSecond);
  b ← fl (a + sm);
  fl (b + milli).

(** Months beyond 0..11 carry into the year; the day is counted from the
    first of the month arrived at. *)
Definition MakeDay_int (y m dt : Z) : option Z :=
  carry ← fl (m / 12);
  ym ← fl (y + carry);
  d ← fl (MakeDay ym (m mod 12) 1 + dt);
  fl (d - 1).

Definition MakeDay_of (year month date : number) : option Z :=
  y ← to_integer year;
  m ← to_integer month;
  dt ← to_integer date;
  MakeDay_int y m dt.

Definition MakeDate (day time : option Z) : option Z :=
  d ← day;
  t ← time;
  p ← fl (d * msPerDay);
  fl (p + t).

Definition WeekDay (t : Z) : Z := (Day t + 4) mod 7.

(** The year of the two- and more-argument [Date] constructor: 0 to 99
    mean 1900 to 1999. *)
Definition MakeFullYear (year : number) : number :=
  match year with
  | Num q => if (0 <=? Qtrunc q) && (Qtrunc q <=? 99) then of_Z (1900 + Qtrunc q) else year
  | _ => year
  end.

(** *** Local time

    The time zone of the host: [offset_at_utc t] is its offset from UTC in
    milliseconds at the instant [t], [offset_at_local t] the offset that
    applies to the local time [t].  The offset of a zone is less than a
    day, so adding it to a time value is exact, and so is taking it off
    wherever the result is a time value. *)

Section LocalZone.

Variables offset_at_utc offset_at_local : Z -> Z.

Definition LocalTime (t : Z) : Z := t + offset_at_utc t.

Definition UTC (t : option Z) : option Z :=
  (fun t => t - offset_at_local t) <$> t.

Definition clip (t : option Z) : Date :=
  TimeClip (match t with Some z => of_Z z | None => NaN end).

(** A getter applies [field] to the local time, and is NaN on an invalid
    date. *)
Definition local_field (field : Z -> Z) (d : Date) : number :=
  match d with
  | Some t => of_Z (field (LocalTime t))
  | None => NaN
  end.

Definition Date_getFullYear : Date -> number := local_field YearFromTime.
Definition Date_getMonth : Date -> number := local_field MonthFromTime.
Definition Date_getDate : Date -> number := local_field DateFromTime.
Definition Date_getDay : Date -> number := local_field WeekDay.
Definition Date_getHours : Date -> number := local_field HourFromTime.
Definition Date_getMinutes : Date -> number := local_field MinFromTime.
Definition Date_getSeconds : Date -> number := local_field SecFromTime.
Definition Date_getMilliseconds : Date -> number := local_field msFromTime.

Definition Date_setMilliseconds (d : Date) (ms : number) : Date :=
  match d with
  | None => None
  | Some t =>
      let t := LocalTime t in
      let time := MakeTime (of_Z (HourFromTime t)) (of_Z (MinFromTime t))
                    (of_Z (SecFromTime t)) ms in
      clip (UTC (MakeDate (Some (Day t)) time))
  end.

Definition Date_setSeconds (d : Date) (sec : number) : Date :=
  match d with
  | None => None
  | Some t =>
      let t := LocalTime t in
      let time := MakeTime (of_Z (HourFromTime t)) (of_Z (MinFromTime t))
                    sec (of_Z (msFromTime t)) in
      clip (UTC (MakeDate (Some (Day t)) time))
  end.

Definition Date_setMinutes (d : Date) (min : number) : Date :=
  match d with
  | None => None
  | Some t =>
      let t := LocalTime t in
      let time := MakeTime (of_Z (HourFromTime t)) min
                    (of_Z (SecFromTime t)) (of_Z (msFromTime t)) in
      clip (UTC (MakeDate (Some (Day t)) time))
  end.

Definition Date_setHours (d : Date) (hour : number) : Date :=
  match d with
  | None => None
  | Some t =>
      let t := LocalTime t in
      let time := MakeTime hour (of_Z (MinFromTime t))
                    (of_Z (SecFromTime t)) (of_Z (msFromTime t)) in
      clip (UTC (MakeDate (Some (Day t)) time))
  end.

Definition Date_setDate (d : Date) (date : number) : Date :=
  match d with
  | None => None
  | Some t =>
      let t := LocalTime t in
      let day := MakeDay_of (of_Z (YearFromTime t)) (of_Z (MonthFromTime t)) date in
      clip (UTC (MakeDate day (Some (TimeWithinDay t))))
  end.

Definition Date_setMonth (d : Date) (month : number) : Date :=
  match d with
  | None => None
  | Some t =>
      let t := LocalTime t in
      let day := MakeDay_of (of_Z (YearFromTime t)) month (of_Z (DateFromTime t)) in
      clip (UTC (MakeDate day (Some (TimeWithinDay t))))
  end.

(** On an invalid date [setFullYear] starts from time 0. *)
Definition Date_setFullYear (d : Date) (year : number) : Date :=
  let t := match d with Some t => LocalTime t | None => 0 end in
  let day := MakeDay_of year (of_Z (MonthFromTime t)) (of_Z (DateFromTime t)) in
  clip (UTC (MakeDate day (Some (TimeWithinDay t)))).

(** [new Date(year, month, date)]: local midnight of that day. *)
Definition Date_of_fields (year month date : number) : Date :=
  let day := MakeDay_of (MakeFullYear year) month date in
  let time := MakeTime (of_Z 0) (of_Z 0) (of_Z 0) (of_Z 0) in
  clip (UTC (MakeDate day time)).

End LocalZone.

(** *** [Math.abs] and [Math.round]

    [Math.round] rounds to the nearest integer, a half toward positive
    infinity. *)

Definition Qfloor_Z (q : Q) : Z := Qnum q / Z.pos (Qden q).

Definition Math_abs (x : number) : number :=
  match x with
  | NaN => NaN
  | Inf _ => Inf false
  | Num q => Num (Qabs q)
  end.

Definition Math_round (x : number) : number :=
  match x with
  | Num q => of_Z (Qfloor_Z (q + (1 # 2)))
  | _ => x
  end.

End JS.

(** ** date.utils.ts *)

Module DateUtils.

Inductive DateInput : Type :=
  | InDate (d : JS.Date)
  | InString (s : string)
  | InNumber (n : JS.number).

Inductive TimeUnit : Type :=
  | milliseconds | seconds | minutes | hours | days | weeks | months | years.

(** A [Date] object handed in by a caller holds a time value. *)
Definition wf_input (input : DateInput) : Prop :=
  match input with
  | InDate (Some t) => JS.in_range t = true
  | _ => True
  end.

Section WithEngine.

Variable other_formats : string -> JS.number.

(** [new Date(input)] *)
Definition new_Date (input : DateInput) : JS.Date :=
  match input with
  | InDate d => d
  | InString s => JS.TimeClip (JS.Date_parse other_formats s)
  | InNumber n => JS.TimeClip n
  end.

Definition toDate (input : DateInput) : completion JS.Date :=
  let date := new_Date input in
  match JS.Date_getTime date with
  | JS.NaN => Throw RangeError
  | _ => Normal date
  end.

Definition toISODateString (input : DateInput) : completion string :=
  date ← toDate input;
  iso ← JS.Date_toISOString date;
  mret (JS.split_head "T" iso).

Definition msPerUnit (unit : TimeUnit) : Z :=
  match unit with
  | milliseconds => 1
  | seconds => 1000
  | minutes => 60000
  | hours => 3600000
  | days => 86400000
  | weeks => 604800000
  | months => 2592000000
  | years => 31536000000
  end.

Definition diffTime (a b : DateInput) (unit : TimeUnit) : completion JS.number :=
  da ← toDate a;
  let msA := JS.Date_getTime da in
  db ← toDate b;
  let msB := JS.Date_getTime db in
  let diffMs := JS.num_sub msA msB in
  mret (JS.num_div diffMs (JS.of_Z (msPerUnit unit))).

End WithEngine.

Record DateRange : Type := {
  start : JS.Date;
  end_ : JS.Date;
}.

Section WithZone.

Variable other_formats : string -> JS.number.
Variables offset_at_utc offset_at_local : Z -> Z.

Local Abbreviation getFullYear := (JS.Date_getFullYear offset_at_utc).
Local Abbreviation getMonth := (JS.Date_getMonth offset_at_utc).
Local Abbreviation getDate := (JS.Date_getDate offset_at_utc).
Local Abbreviation getDay := (JS.Date_getDay offset_at_utc).
Local Abbreviation getHours := (JS.Date_getHours offset_at_utc).
Local Abbreviation getMinutes := (JS.Date_getMinutes offset_at_utc).
Local Abbreviation getSeconds := (JS.Date_getSeconds offset_at_utc).
Local Abbreviation getMilliseconds := (JS.Date_getMilliseconds offset_at_utc).
Local Abbreviation setMilliseconds := (JS.Date_setMilliseconds offset_at_utc offset_at_local).
Local Abbreviation setSeconds := (JS.Date_setSeconds offset_at_utc offset_at_local).
Local Abbreviation setMinutes := (JS.Date_setMinutes offset_at_utc offset_at_local).
Local Abbreviation setHours := (JS.Date_setHours offset_at_utc offset_at_local).
Local Abbreviation setDate := (JS.Date_setDate offset_at_utc offset_at_local).
Local Abbreviation setMonth := (JS.Date_setMonth offset_at_utc offset_at_local).
Local Abbreviation setFullYear := (JS.Date_setFullYear offset_at_utc offset_at_local).

(** [d] is the copy [new Date(date)]; the setters work on it. *)
Definition addTime (input : DateInput) (amount : JS.number) (unit : TimeUnit)
    : completion JS.Date :=
  date ← toDate other_formats input;
  let d := date in
  mret (match unit with
        | milliseconds => setMilliseconds d (JS.num_add (getMilliseconds d) amount)
        | seconds => setSeconds d (JS.num_add (getSeconds d) amount)
        | minutes => setMinutes d (JS.num_add (getMinutes d) amount)
        | hours => setHours d (JS.num_add (getHours d) amount)
        | days => setDate d (JS.num_add (getDate d) amount)
        | weeks => setDate d (JS.num_add (getDate d) (JS.num_mul amount (JS.of_Z 7)))
        | months => setMonth d (JS.num_add (getMonth d) amount)
        | years => setFullYear d (JS.num_add (getFullYear d) amount)
        end).

Definition isBefore (a b : DateInput) : completion bool :=
  da ← toDate other_formats a;
  db ← toDate other_formats b;
  mret (JS.num_ltb (JS.Date_getTime da) (JS.Date_getTime db)).

Definition isAfter (a b : DateInput) : completion bool :=
  da ← toDate other_formats a;
  db ← toDate other_formats b;
  mret (JS.num_ltb (JS.Date_getTime db) (JS.Date_getTime da)).

Definition isSameDay (a b : DateInput) : completion bool :=
  da ← toDate other_formats a;
  db ← toDate other_formats b;
  mret (JS.num_eqb (getFullYear da) (getFullYear db)
        && JS.num_eqb (getMonth da) (getMonth db)
        && JS.num_eqb (getDate da) (getDate db)).

Definition isWithinRange (input : DateInput) (range : DateRange) : completion bool :=
  d ← toDate other_formats input;
  let t := JS.Date_getTime d in
  mret (JS.num_leb (JS.Date_getTime (start range)) t
        && JS.num_leb t (JS.Date_getTime (end_ range))).

Definition startOfWeek (input : DateInput) : completion JS.Date :=
  d ← toDate other_formats input;
  let day := getDay d in
  let diff := if JS.num_eqb day (JS.of_Z 0) then JS.of_Z (-6)
              else JS.num_sub (JS.of_Z 1) day in
  addTime (InDate d) diff days.

Definition daysInMonth (year month : JS.number) : JS.number :=
  getDate (JS.Date_of_fields offset_at_local year month (JS.of_Z 0)).

(** [invalid x]: [new Date(x)] is an invalid date. *)
Definition invalid (x : DateInput) : bool :=
  match new_Date other_formats x with
  | None => true
  | Some _ => false
  end.

End WithZone.

Section WithIntl.

Variable other_formats : string -> JS.number.

(** [new Intl.RelativeTimeFormat(locale, { numeric: 'auto' })]: the
    constructor raises for a locale it does not accept and gives the
    [format] function of the locale otherwise.  The units it is asked for
    are named like those of [TimeUnit]. *)
Variable RelativeTimeFormat : string -> completion (JS.number -> TimeUnit -> string).

Definition thresholds : list (JS.number * TimeUnit) :=
  [(JS.of_Z 60, seconds); (JS.of_Z 3600, minutes); (JS.of_Z 86400, hours);
   (JS.of_Z 2592000, days); (JS.of_Z 31536000, months); (JS.Inf false, years)].

(** The [for] loop over the thresholds, and the [return] that follows it. *)
Fixpoint timeAgo_loop (format : JS.number -> TimeUnit -> string)
    (diff absDiff prev : JS.number) (ths : list (JS.number * TimeUnit)) : string :=
  match ths with
  | [] =>
      format (JS.Math_round (JS.num_div (JS.num_div diff (JS.of_Z 1000))
                               (JS.of_Z 31536000))) years
  | (limit, unit) :: rest =>
      if JS.num_ltb absDiff limit
      then format (JS.Math_round (JS.num_div (JS.num_div diff (JS.of_Z 1000)) prev)) unit
      else timeAgo_loop format diff absDiff limit rest
  end.

(** [now] is what [Date.now()] returns; an absent [locale] is ['en']. *)
Definition timeAgo (now : Z) (input : DateInput) (locale : option string)
    : completion string :=
  d ← toDate other_formats input;
  let diff := JS.num_sub (JS.Date_getTime d) (JS.of_Z now) in
  rtf ← RelativeTimeFormat (default "en" locale);
  let absDiff := JS.num_div (JS.Math_abs diff) (JS.of_Z 1000) in
  mret (timeAgo_loop rtf diff absDiff (JS.of_Z 1) thresholds).

End WithIntl.

(** The unit [timeAgo] reports a difference of [diff] milliseconds in, and
    the length of that unit in milliseconds. *)
Definition relative_unit (diff : Z) : Z * TimeUnit :=
  if Z.abs diff <? 60000 then (1000, seconds)
  else if Z.abs diff <? 3600000 then (60000, minutes)
  else if Z.abs diff <? 86400000 then (3600000, hours)
  else if Z.abs diff <? 2592000000 then (86400000, days)
  else if Z.abs diff <? 31536000000 then (2592000000, months)
  else (31536000000, years).

(** The units whose length in milliseconds does not depend on the date. *)
Definition fixed_length (unit : TimeUnit) : bool :=
  match unit with
  | months | years => false
  | _ => true
  end.

Definition isLeapYear (year : JS.number) : bool :=
  (JS.num_eqb (JS.num_rem year 4) (JS.of_Z 0)
   && negb (JS.num_eqb (JS.num_rem year 100) (JS.of_Z 0)))
  || JS.num_eqb (JS.num_rem year 400) (JS.of_Z 0).

End DateUtils.

(** ** toast.service.ts *)

Module Toasts.

Inductive ToastType : Type := Success | Error | Warning | Info.

(** Durations are whole numbers of milliseconds. *)
Record Toast : Type := {
  id : string;
  message : string;
  type : ToastType;
  duration : Z;
  createdAt : string;
}.

Definition DEFAULT_DURATION (ty : ToastType) : Z :=
  match ty with
  | Success => 4000
  | Info => 5000
  | Warning => 6000
  | Error => 8000
  end.

(** What a call evaluates to at run time: the methods of the service are
    declared [void], so a caller receives [undefined]. *)
Inductive jsval : Type :=
  | undefined
  | jsstring (s : string).

(** *** The state the service runs in

    [toasts] is the current value of the [BehaviorSubject] [_toasts$] and
    [published] the values handed to its [next], oldest first: what an
    observer subscribed since construction has received after the initial
    snapshot.  [timers] are the pending one-shot [timer(..)] subscriptions;
    the only callback the service ever registers is [() => dismiss(toast.id)],
    so a timer is its due time and the captured id.  [now] is the clock read
    by [Date.now()], [new Date()] and the timers, in milliseconds.
    [random k] is what the [k]-th evaluation of
    [Math.random().toString(36)] yields. *)
Record World : Type := {
  now : Z;
  random : nat -> string;
  draws : nat;
  toasts : list Toast;
  published : list (list Toast);
  timers : list (Z * string);
}.

Definition M (A : Type) : Type := World -> completion A * World.

#[global] Instance M_ret : MRet M := fun A a w => (Normal a, w).

#[global] Instance M_bind : MBind M := fun A B k m w =>
  match m w with
  | (Normal a, w') => k a w'
  | (Throw e, w') => (Throw e, w')
  end.

Definition Date_now : M Z := fun w => (Normal (now w), w).

Definition Math_random_toString36 : M string := fun w =>
  (Normal (random w (draws w)),
   {| now := now w; random := random w; draws := S (draws w);
      toasts := toasts w; published := published w; timers := timers w |}).

(** [new Date().toISOString()]: the current time is a valid time value. *)
Definition new_Date_toISOString : M string := fun w =>
  (Normal (JS.ISO_string (now w)), w).

Definition getValue : M (list Toast) := fun w => (Normal (toasts w), w).

Definition next (v : list Toast) : M unit := fun w =>
  (Normal tt,
   {| now := now w; random := random w; draws := draws w;
      toasts := v; published := published w ++ [v]; timers := timers w |}).

(** The timer queue is kept in firing order: by due time, and by
    registration among timers due together. *)
Fixpoint schedule (due : Z) (i : string) (q : list (Z * string)) : list (Z * string) :=
  match q with
  | [] => [(due, i)]
  | tm :: q' =>
      if tm.1 <=? due then tm :: schedule due i q' else (due, i) :: q
  end.

(** The delay of a host timer asked to wait [d] milliseconds ([timer]
    hands its argument to [setInterval]): the host keeps a delay as a
    32-bit signed integer, and one that does not fit is replaced by 1
    (Node.js; a browser cuts it down to 32 bits as well). *)
Definition timer_delay (d : Z) : Z :=
  if d <=? 2147483647 then d else 1.

(** [timer(d).pipe(tap(() => this.dismiss(i))).subscribe()] for [d > 0] *)
Definition timer_dismiss (d : Z) (i : string) : M unit := fun w =>
  (Normal tt,
   {| now := now w; random := random w; draws := draws w;
      toasts := toasts w; published := published w;
      timers := schedule (now w + timer_delay d) i (timers w) |}).

(** *** The service *)

Definition generateId : M string :=
  t ← Date_now;
  r ← Math_random_toString36;
  mret ("toast-" +:+ JS.Number_toString t +:+ "-" +:+ JS.String_slice r 2 7).

Definition dismiss (i : string) : M jsval :=
  cur ← getValue;
  next (filter (fun t => id t ≠ i) cur);;
  mret undefined.

Definition dismissAll : M jsval :=
  next [];;
  mret undefined.

Definition show (message : string) (type : ToastType) (duration : option Z) : M jsval :=
  let resolvedDuration := default (DEFAULT_DURATION type) duration in
  i ← generateId;
  created ← new_Date_toISOString;
  let toast := {| id := i; message := message; type := type;
                  duration := resolvedDuration; createdAt := created |} in
  cur ← getValue;
  next (cur ++ [toast]);;
  (if 0 <? resolvedDuration then timer_dismiss resolvedDuration (id toast) else mret tt);;
  mret undefined.

Definition success (message : string) (duration : option Z) : M jsval :=
  show message Success duration;;
  mret undefined.

Definition error (message : string) (duration : option Z) : M jsval :=
  show message Error duration;;
  mret undefined.

Definition warning (message : string) (duration : option Z) : M jsval :=
  show message Warning duration;;
  mret undefined.

Definition info (message : string) (duration : option Z) : M jsval :=
  show message Info duration;;
  mret undefined.

(** *** The scheduler

    Between two calls the clock advances and the timers that have come due
    fire, in queue order; each runs its [dismiss]. *)

Fixpoint fire (due : list (Z * string)) : M unit :=
  match due with
  | [] => mret tt
  | tm :: due' => dismiss tm.2;; fire due'
  end.

Definition elapse (dt : N) : M unit := fun w =>
  let c := now w + Z.of_N dt in
  fire (filter (fun tm => tm.1 ≤ c) (timers w))
    {| now := c; random := random w; draws := draws w;
       toasts := toasts w; published := published w;
       timers := filter (fun tm => c < tm.1) (timers w) |}.

(** What can happen to a service: a call of its public interface or the
    passage of time. *)
Inductive event : Type :=
  | CallShow (message : string) (type : ToastType) (duration : option Z)
  | CallDismiss (i : string)
  | CallDismissAll
  | Elapse (dt : N).

Definition step (w : World) (ev : event) : World :=
  match ev with
  | CallShow m ty d => (show m ty d w).2
  | CallDismiss i => (dismiss i w).2
  | CallDismissAll => (dismissAll w).2
  | Elapse dt => (elapse dt w).2
  end.

Definition run (evs : list event) (w : World) : World := fold_left step evs w.

(** A freshly constructed service. *)
Definition init (t0 : Z) (rnd : nat -> string) : World :=
  {| now := t0; random := rnd; draws := 0; toasts := []; published := [];
     timers := [] |}.

(** Two services started at 2025-01-15T00:00:00.123Z.  In [demo] the
    random source yields values with different leading digits; in
    [unlucky] its first two values differ but agree on the five digits that
    [generateId] keeps. *)
Definition demo : World :=
  init 1736899200123
    (fun k => match k with
              | O => "0.4fzyo82mvyr"
              | 1%nat => "0.k3xw9q1hd8"
              | _ => "0.9s0tumd2pq"
              end).

Definition unlucky : World :=
  init 1736899200123
    (fun k => match k with
              | O => "0.4fzyo82mvyr"
              | _ => "0.4fzyo1c77zq"
              end).

(** *** Vocabulary for the statements

    The id the next [show] will generate in [w], and the notification it
    will build. *)
Definition next_id (w : World) : string :=
  "toast-" +:+ JS.Number_toString (now w) +:+ "-"
    +:+ JS.String_slice (random w (draws w)) 2 7.

Definition new_toast (w : World) (message : string) (type : ToastType)
    (duration : option Z) : Toast :=
  {| id := next_id w; message := message; type := type;
     duration := default (DEFAULT_DURATION type) duration;
     createdAt := JS.ISO_string (now w) |}.

(** [dismisses i w ev]: executing [ev] in [w] performs [dismissAll()] or a
    [dismiss(i)], called directly or by a timer that comes due. *)
Definition dismisses (i : string) (w : World) (ev : event) : bool :=
  match ev with
  | CallShow _ _ _ => false
  | CallDismiss j => String.eqb j i
  | CallDismissAll => true
  | Elapse dt =>
      existsb (fun tm => (tm.1 <=? now w + Z.of_N dt) && String.eqb tm.2 i) (timers w)
  end.

(** [targets i w]: some pending timer of [w] carries the id [i]. *)
Definition targets (i : string) (w : World) : bool :=
  existsb (fun tm => String.eqb tm.2 i) (timers w).

(** The state of a notification with id [i], generated at [t0] and due to
    expire at [T]: its timer is pending until [T], and from then on no
    active notification carries [i]. *)
Definition awaiting (t0 T : Z) (i : string) (w : World) : Prop :=
  t0 ≤ now w /\
  (now w < T -> (T, i) ∈ timers w) /\
  (T ≤ now w -> forall t, t ∈ toasts w -> id t ≠ i).

(** No event of the trace dismisses [i]. *)
Fixpoint undisturbed (i : string) (evs : list event) (w : World) : bool :=
  match evs with
  | [] => true
  | ev :: evs' => negb (dismisses i w ev) && undisturbed i evs' (step w ev)
  end.

(** [spaced shown evs]: no two [show] calls of the trace are made at the
    same clock reading; [shown] tells whether one was already made at the
    current reading. *)
Fixpoint spaced (shown : bool) (evs : list event) : bool :=
  match evs with
  | [] => true
  | CallShow _ _ _ :: evs' => negb shown && spaced true evs'
  | Elapse dt :: evs' => spaced (shown && (dt =? 0)%N) evs'
  | _ :: evs' => spaced shown evs'
  end.

(** The timers of [w] that have come due when [dt] milliseconds pass. *)
Definition due_after (dt : N) (w : World) : list (Z * string) :=
  filter (fun tm => tm.1 ≤ now w + Z.of_N dt) (timers w).

End Toasts.

(** ** Facts about the runtime model *)

Import JS Toasts.

Section Decimal.

Lemma uint_all_digits (d : uint) : all_digits (NilEmpty.string_of_uint d) = true.
Proof. induction d; simpl; auto. Qed.

Lemma uint_nonempty (d : uint) : d <> Nil -> NilEmpty.string_of_uint d <> EmptyString.
Proof. destruct d; simpl; congruence. Qed.

(** A run of digits ends where the first non-digit stands. *)
Lemma digits_sep_inj (s1 s2 r1 r2 : string) :
  all_digits s1 = true -> all_digits s2 = true ->
  s1 +:+ String "-" r1 = s2 +:+ String "-" r2 -> s1 = s2.
Proof.
  revert s2. induction s1 as [|c s1 IH]; intros [|c2 s2]; simpl;
    intros H1 H2 E; try reflexivity.
  - injection E as E _. subst c2. discriminate.
  - injection E as E _. subst c. discriminate.
  - injection E as -> E.
    apply andb_prop in H1 as [_ H1]. apply andb_prop in H2 as [_ H2].
    f_equal. now apply IH.
Qed.

Lemma Number_toString_shape (n : Z) :
  exists ds, all_digits ds = true /\ ds <> EmptyString /\
    (Number_toString n = ds \/ Number_toString n = String "-" ds).
Proof.
  unfold Number_toString.
  destruct n as [|p|p]; simpl.
  - exists "0"%string. split; [reflexivity|]. split; [discriminate|].
    left; reflexivity.
  - pose proof (DecimalPos.Unsigned.to_uint_nonnil p) as Hp.
    exists (NilEmpty.string_of_uint (Pos.to_uint p)).
    split; [apply uint_all_digits|]. split; [now apply uint_nonempty|].
    left. unfold NilZero.string_of_uint. now destruct (Pos.to_uint p).
  - pose proof (DecimalPos.Unsigned.to_uint_nonnil p) as Hp.
    exists (NilEmpty.string_of_uint (Pos.to_uint p)).
    split; [apply uint_all_digits|]. split; [now apply uint_nonempty|].
    right. unfold NilZero.string_of_uint. now destruct (Pos.to_uint p).
Qed.

Lemma Number_toString_inj (n m : Z) :
  Number_toString n = Number_toString m -> n = m.
Proof.
  unfold Number_toString. intros E.
  assert (Hn : forall z, NilZero.int_of_string (NilZero.string_of_int (Z.to_int z))
                         = Some (Z.to_int z)).
  { intros z. apply NilZero.isi; destruct z; simpl; try discriminate;
      intros [= H]; now apply (DecimalPos.Unsigned.to_uint_nonnil p). }
  pose proof (Hn n) as E1. rewrite E, Hn in E1.
  injection E1 as E1. now apply DecimalZ.to_int_inj.
Qed.

(** The decimal field of an id determines the number it was printed from,
    whatever follows the separator. *)
Lemma Number_toString_sep_inj (n m : Z) (r1 r2 : string) :
  Number_toString n +:+ String "-" r1 = Number_toString m +:+ String "-" r2 ->
  n = m.
Proof.
  intros E. apply Number_toString_inj.
  destruct (Number_toString_shape n) as (d1 & A1 & N1 & [E1 | E1]);
    destruct (Number_toString_shape m) as (d2 & A2 & N2 & [E2 | E2]);
    rewrite E1, E2 in E |- *.
  - now apply (digits_sep_inj d1 d2 r1 r2).
  - destruct d1 as [|c d1]; [congruence|]. simpl in E, A1.
    injection E as -> _. discriminate.
  - destruct d2 as [|c d2]; [congruence|]. simpl in E, A2.
    injection E as <- _. discriminate.
  - simpl in E. injection E as E. f_equal.
    now apply (digits_sep_inj d1 d2 r1 r2).
Qed.

End Decimal.

(** ** Facts about binary64 rounding *)

Section Binary64.

Lemma rne_nearest (n d j : Z) :
  0 < d -> Z.abs (rne n d * d - n) <= Z.abs (j * d - n).
Proof.
  intros Hd. unfold rne.
  pose proof (Z.div_mod n d ltac:(lia)) as E.
  pose proof (Z.mod_pos_bound n d Hd) as B.
  set (m := n / d) in *. set (r := n mod d) in *.
  assert (Hj : j <= m \/ m + 1 <= j) by lia.
  assert (Hlow : j <= m -> j * d <= m * d) by (intros; nia).
  assert (Hhigh : m + 1 <= j -> (m + 1) * d <= j * d) by (intros; nia).
  destruct (Z.ltb_spec (2 * r) d); [|destruct (Z.ltb_spec d (2 * r)); [|destruct (Z.even m)]];
    destruct Hj as [Hj|Hj]; lia.
Qed.

Lemma rne_nonneg (n d : Z) : 0 <= n -> 0 < d -> 0 <= rne n d.
Proof.
  intros Hn Hd. unfold rne.
  assert (0 <= n / d) by (apply Z.div_pos; lia).
  destruct (_ <? _); [lia|]. destruct (_ <? _); [lia|]. destruct (Z.even _); lia.
Qed.

Lemma binade_spec (n d : Z) :
  0 <= n -> 0 < d ->
  0 <= binade n d /\ n < d * 2 ^ (binade n d + 53) /\
  (0 < binade n d -> d * 2 ^ (binade n d + 52) <= n).
Proof.
  intros Hn Hd. unfold binade.
  set (c := Z.log2 n - Z.log2 d).
  set (l := if d * 2 ^ c <=? n then c else c - 1).
  destruct (Z.log2_spec d Hd) as [D1 D2].
  assert (H53 : 0 < 2 ^ 53) by (apply Z.pow_pos_nonneg; lia).
  destruct (Z.eq_dec n 0) as [->|Hn0].
  { assert (l <= 0).
    { subst l c. change (Z.log2 0) with 0.
      pose proof (Z.log2_nonneg d).
      destruct (Z.leb_spec (d * 2 ^ (0 - Z.log2 d)) 0); lia. }
    replace (Z.max 0 (l - 52)) with 0 by lia. cbn [Z.add]. lia. }
  destruct (Z.log2_spec n ltac:(lia)) as [N1 N2].
  pose proof (Z.log2_nonneg n) as Ln. pose proof (Z.log2_nonneg d) as Ld.
  assert (Hl : n < d * 2 ^ (Z.max 0 (l + 1)) /\ (0 <= l -> d * 2 ^ l <= n)).
  { subst l. destruct (Z.le_gt_cases 0 c) as [Hc|Hc].
    - assert (E1 : 2 ^ Z.succ (Z.log2 n) = 2 ^ Z.log2 d * 2 ^ (c + 1))
        by (rewrite <- Z.pow_add_r by lia; f_equal; lia).
      destruct (Z.leb_spec (d * 2 ^ c) n) as [T|T].
      + split; [|auto]. replace (Z.max 0 (c + 1)) with (c + 1) by lia.
        assert (0 < 2 ^ (c + 1)) by (apply Z.pow_pos_nonneg; lia). nia.
      + split; [replace (Z.max 0 (c - 1 + 1)) with c by lia; lia|].
        intros Hc1.
        assert (E2 : 2 ^ Z.log2 n = 2 ^ (Z.log2 d + 1) * 2 ^ (c - 1))
          by (rewrite <- Z.pow_add_r by lia; f_equal; lia).
        assert (0 < 2 ^ (c - 1)) by (apply Z.pow_pos_nonneg; lia).
        replace (Z.succ (Z.log2 d)) with (Z.log2 d + 1) in D2 by lia. nia.
    - assert (E0 : 2 ^ c = 0) by (apply Z.pow_neg_r; lia).
      rewrite E0, Z.mul_0_r. destruct (Z.leb_spec 0 n); [|lia].
      split; [|lia]. replace (Z.max 0 (c + 1)) with 0 by lia.
      assert (2 ^ Z.succ (Z.log2 n) <= 2 ^ Z.log2 d)
        by (apply Z.pow_le_mono_r; lia).
      cbn. lia. }
  destruct Hl as [U L].
  destruct (Z.le_gt_cases (l - 52) 0) as [Hk|Hk].
  - replace (Z.max 0 (l - 52)) with 0 by lia. cbn [Z.add].
    split; [lia|]. split; [|lia].
    assert (2 ^ Z.max 0 (l + 1) <= 2 ^ 53) by (apply Z.pow_le_mono_r; lia). nia.
  - replace (Z.max 0 (l - 52)) with (l - 52) by lia.
    split; [lia|]. split.
    + replace (l - 52 + 53) with (Z.max 0 (l + 1)) by lia. exact U.
    + intros _. replace (l - 52 + 52) with l by lia. apply L. lia.
Qed.

(** [round_steps n d] is a multiple of a power of two nearest to [n / d]
    among the numbers [m * 2 ^ k] with [m] below [2 ^ 53]. *)
Lemma round_steps_nearest (n d m k : Z) :
  0 <= n -> 0 < d -> 0 <= m < 2 ^ 53 -> 0 <= k ->
  Z.abs (round_steps n d * d - n) <= Z.abs (m * 2 ^ k * d - n).
Proof.
  intros Hn Hd Hm Hk. unfold round_steps.
  destruct (binade_spec n d Hn Hd) as (B0 & B1 & B2).
  set (b := binade n d) in *.
  assert (Hb : 0 < 2 ^ b) by (apply Z.pow_pos_nonneg; lia).
  destruct (Z.le_gt_cases b k) as [Hle|Hgt].
  - replace (m * 2 ^ k * d) with (m * 2 ^ (k - b) * (d * 2 ^ b)).
    2: { replace k with (k - b + b) at 2 by lia. rewrite Z.pow_add_r by lia. ring. }
    replace (rne n (d * 2 ^ b) * 2 ^ b * d) with (rne n (d * 2 ^ b) * (d * 2 ^ b)) by ring.
    apply rne_nearest. nia.
  - (* a finer number is below the binade of [n / d] *)
    assert (Hlow : m * 2 ^ k <= 2 ^ 52 * 2 ^ b).
    { assert (E : 2 ^ 52 * 2 ^ b = 2 ^ 53 * 2 ^ (b - 1)).
      { rewrite <- !Z.pow_add_r by lia. f_equal. lia. }
      rewrite E.
      assert (2 ^ k <= 2 ^ (b - 1)) by (apply Z.pow_le_mono_r; lia).
      assert (0 < 2 ^ k) by (apply Z.pow_pos_nonneg; lia).
      nia. }
    assert (Hn52 : 2 ^ 52 * 2 ^ b * d <= n).
    { specialize (B2 ltac:(lia)). rewrite Z.pow_add_r in B2 by lia. lia. }
    pose proof (rne_nearest n (d * 2 ^ b) (2 ^ 52) ltac:(nia)) as Hnear.
    replace (rne n (d * 2 ^ b) * 2 ^ b * d) with (rne n (d * 2 ^ b) * (d * 2 ^ b)) by ring.
    assert (m * 2 ^ k * d <= 2 ^ 52 * 2 ^ b * d) by nia.
    lia.
Qed.

Lemma round_steps_nonneg (n d : Z) : 0 <= n -> 0 < d -> 0 <= round_steps n d.
Proof.
  intros Hn Hd. unfold round_steps.
  destruct (binade_spec n d Hn Hd) as (B0 & _).
  assert (0 < 2 ^ binade n d) by (apply Z.pow_pos_nonneg; lia).
  pose proof (rne_nonneg n (d * 2 ^ binade n d) Hn ltac:(nia)). nia.
Qed.

Lemma round_steps_le (n d m k : Z) :
  0 <= n -> 0 < d -> 0 <= m < 2 ^ 53 -> 0 <= k ->
  n <= m * 2 ^ k * d -> round_steps n d <= m * 2 ^ k.
Proof.
  intros Hn Hd Hm Hk H.
  pose proof (round_steps_nearest n d m k Hn Hd Hm Hk).
  destruct (Z.le_gt_cases (round_steps n d) (m * 2 ^ k)) as [|Hgt]; [assumption|].
  assert (m * 2 ^ k * d < round_steps n d * d) by nia. lia.
Qed.

Lemma round_steps_ge (n d m k : Z) :
  0 <= n -> 0 < d -> 0 <= m < 2 ^ 53 -> 0 <= k ->
  m * 2 ^ k * d <= n -> m * 2 ^ k <= round_steps n d.
Proof.
  intros Hn Hd Hm Hk H.
  pose proof (round_steps_nearest n d m k Hn Hd Hm Hk).
  destruct (Z.le_gt_cases (m * 2 ^ k) (round_steps n d)) as [|Hgt]; [assumption|].
  assert (round_steps n d * d < m * 2 ^ k * d) by nia. lia.
Qed.

Lemma steps_pos : 0 < steps.
Proof. unfold steps. apply Z.pow_pos_nonneg; lia. Qed.

Lemma steps_to_pos : Z.pos (Z.to_pos steps) = steps.
Proof. apply Z2Pos.id, steps_pos. Qed.

Lemma double_below_overflow (m k : Z) :
  Z.abs m < 2 ^ 53 -> 0 <= k <= 2045 -> Z.abs m * 2 ^ k < 2 ^ 1024 * steps.
Proof.
  intros Hm Hk. unfold steps. rewrite <- Z.pow_add_r by lia.
  change (1024 + 1074) with (53 + 2045). rewrite Z.pow_add_r by lia.
  assert (0 < 2 ^ k <= 2 ^ 2045)
    by (split; [apply Z.pow_pos_nonneg; lia|apply Z.pow_le_mono_r; lia]).
  assert (0 < 2 ^ 2045) by lia.
  set (a := 2 ^ 53) in *. set (b := 2 ^ 2045) in *. set (c := 2 ^ k) in *. nia.
Qed.

Lemma round64_le (q x : Q) :
  double x -> (q <= x)%Q -> num_leb (round64 q) (Num x) = true.
Proof.
  intros (m & k & Hm & Hk & Hx) Hle. unfold Qle in Hle.
  destruct q as [n d], x as [a b]. cbn [Qnum Qden] in *.
  pose proof steps_pos as Hs.
  assert (Hp : 0 < 2 ^ k) by (apply Z.pow_pos_nonneg; lia).
  pose proof (double_below_overflow m k Hm Hk) as Hov.
  unfold round64. cbn [Qnum Qden]. rewrite Z.ltb_antisym.
  set (X := m * 2 ^ k) in *.
  assert (HXd : n * steps <= X * Z.pos d).
  { assert (n * steps * Z.pos b <= X * Z.pos d * Z.pos b) by nia. nia. }
  destruct (Z.le_gt_cases 0 n) as [Hn|Hn].
  - assert (Hm0 : 0 <= m) by nia.
    assert (Hr : round_steps (Z.abs (n * steps)) (Z.pos d) <= X).
    { apply round_steps_le; first [lia | nia | rewrite Z.abs_eq by nia; exact HXd]. }
    pose proof (round_steps_nonneg (Z.abs (n * steps)) (Z.pos d) ltac:(lia) ltac:(lia)) as Hr0.
    set (r := round_steps _ _) in *.
    destruct (Z.leb_spec (2 ^ 1024 * steps) r) as [Ho|_]; cbn [negb].
    { rewrite Z.abs_eq in Hov by lia. fold X in Hov. lia. }
    cbn [num_leb]. apply Qle_bool_iff. rewrite Qred_correct.
    unfold Qle. cbn [Qnum Qden]. rewrite steps_to_pos.
    assert (Z.sgn (n * steps) * r <= r).
    { destruct (Z.sgn_spec (n * steps)) as [[_ ->]|[[_ ->]|[? _]]]; nia. }
    nia.
  - set (r := round_steps _ _).
    destruct (Z.leb_spec (2 ^ 1024 * steps) r) as [Ho|Ho]; cbn [negb].
    { cbn [num_leb]. now apply Z.ltb_lt. }
    cbn [num_leb]. apply Qle_bool_iff. rewrite Qred_correct.
    unfold Qle. cbn [Qnum Qden]. rewrite steps_to_pos.
    replace (Z.sgn (n * steps)) with (-1) by (symmetry; apply Z.sgn_neg; nia).
    pose proof (round_steps_nonneg (Z.abs (n * steps)) (Z.pos d) ltac:(lia) ltac:(lia)) as Hr0.
    fold r in Hr0.
    destruct (Z.le_gt_cases 0 a) as [Ha|Ha]; [nia|].
    assert (Hm0 : m < 0) by nia.
    assert (Hr : - m * 2 ^ k <= r).
    { apply round_steps_ge; first [lia | nia | rewrite Z.abs_neq by nia; subst X; nia]. }
    subst X. nia.
Qed.

Lemma round64_ge (q x : Q) :
  double x -> (x <= q)%Q -> num_leb (Num x) (round64 q) = true.
Proof.
  intros (m & k & Hm & Hk & Hx) Hle. unfold Qle in Hle.
  destruct q as [n d], x as [a b]. cbn [Qnum Qden] in *.
  pose proof steps_pos as Hs.
  assert (Hp : 0 < 2 ^ k) by (apply Z.pow_pos_nonneg; lia).
  pose proof (double_below_overflow m k Hm Hk) as Hov.
  unfold round64. cbn [Qnum Qden]. rewrite Z.ltb_antisym.
  set (X := m * 2 ^ k) in *.
  assert (HXd : X * Z.pos d <= n * steps).
  { assert (X * Z.pos d * Z.pos b <= n * steps * Z.pos b) by nia. nia. }
  destruct (Z.le_gt_cases n 0) as [Hn|Hn].
  - assert (Hm0 : m <= 0) by nia.
    assert (Hr : round_steps (Z.abs (n * steps)) (Z.pos d) <= - m * 2 ^ k).
    { apply round_steps_le; first [lia | nia | rewrite Z.abs_neq by nia; subst X; nia]. }
    pose proof (round_steps_nonneg (Z.abs (n * steps)) (Z.pos d) ltac:(lia) ltac:(lia)) as Hr0.
    set (r := round_steps _ _) in *.
    destruct (Z.leb_spec (2 ^ 1024 * steps) r) as [Ho|_]; cbn [negb].
    { rewrite Z.abs_neq in Hov by lia. lia. }
    cbn [num_leb]. apply Qle_bool_iff. rewrite Qred_correct.
    unfold Qle. cbn [Qnum Qden]. rewrite steps_to_pos.
    assert (- r <= Z.sgn (n * steps) * r).
    { destruct (Z.sgn_spec (n * steps)) as [[? _]|[[_ ->]|[_ ->]]]; nia. }
    subst X. nia.
  - set (r := round_steps _ _).
    destruct (Z.leb_spec (2 ^ 1024 * steps) r) as [Ho|Ho]; cbn [negb].
    { cbn [num_leb]. apply Bool.negb_true_iff. apply Z.ltb_ge. lia. }
    cbn [num_leb]. apply Qle_bool_iff. rewrite Qred_correct.
    unfold Qle. cbn [Qnum Qden]. rewrite steps_to_pos.
    replace (Z.sgn (n * steps)) with 1 by (symmetry; apply Z.sgn_pos; nia).
    pose proof (round_steps_nonneg (Z.abs (n * steps)) (Z.pos d) ltac:(lia) ltac:(lia)) as Hr0.
    fold r in Hr0.
    destruct (Z.le_gt_cases a 0) as [Ha|Ha]; [nia|].
    assert (Hm0 : 0 < m) by nia.
    assert (Hr : m * 2 ^ k <= r).
    { apply round_steps_ge; first [lia | nia | rewrite Z.abs_eq by nia; subst X; nia]. }
    subst X. nia.
Qed.

Lemma round64_not_NaN (q : Q) : round64 q <> NaN.
Proof. unfold round64. now destruct (_ <? _). Qed.

Lemma round64_Qred (q : Q) (r : Q) : round64 q = Num r -> Qred r = r.
Proof.
  unfold round64. destruct (_ <? _); [|discriminate].
  intros E.
  apply (f_equal (fun x => match x with Num q => q | _ => r end)) in E.
  cbv beta iota in E. subst r. apply Qred_complete, Qred_correct.
Qed.

(** A double is its own rounding. *)
Lemma round64_exact (x : Q) : double x -> round64 x = Num (Qred x).
Proof.
  intros Hx.
  pose proof (round64_le x x Hx (Qle_refl x)) as H1.
  pose proof (round64_ge x x Hx (Qle_refl x)) as H2.
  destruct (round64 x) as [|s|r] eqn:E; cbn [num_leb] in *.
  - discriminate.
  - destruct s; discriminate.
  - apply round64_Qred in E. rewrite <- E. f_equal.
    apply Qred_complete. apply Qle_bool_iff in H1, H2. now apply Qle_antisym.
Qed.

Lemma double_Qeq (x y : Q) : (x == y)%Q -> double x -> double y.
Proof.
  intros E (m & k & Hm & Hk & Hx). exists m, k. split; [exact Hm|]. split; [exact Hk|].
  unfold Qeq in E. destruct x as [a b], y as [c d]. cbn [Qnum Qden] in *.
  apply (Z.mul_cancel_r _ _ (Z.pos b)); [lia|].
  replace (c * steps * Z.pos b) with ((c * Z.pos b) * steps) by ring.
  rewrite <- E. replace (a * Z.pos d * steps) with (a * steps * Z.pos d) by ring.
  rewrite Hx. ring.
Qed.

Lemma round64_Qeq (p q : Q) : (p == q)%Q -> double q -> round64 p = Num (Qred q).
Proof.
  intros E Hq. rewrite round64_exact.
  - f_equal. now apply Qred_complete.
  - apply (double_Qeq q); [now symmetry|exact Hq].
Qed.

Lemma double_dyadic (m j : Z) :
  Z.abs m < 2 ^ 53 -> 0 <= j <= 1074 -> double (inject_Z m / inject_Z (2 ^ j)).
Proof.
  intros Hm Hj. exists m, (1074 - j). split; [exact Hm|]. split; [lia|].
  assert (Hp : 0 < 2 ^ j) by (apply Z.pow_pos_nonneg; lia).
  assert (E : steps = 2 ^ (1074 - j) * 2 ^ j).
  { unfold steps. rewrite <- Z.pow_add_r by lia. f_equal. lia. }
  destruct (2 ^ j) as [|p|p] eqn:Ep; try lia.
  unfold Qdiv, Qinv, Qmult, inject_Z. cbn [Qnum Qden]. rewrite E.
  rewrite Pos.mul_1_l. lia.
Qed.

Lemma double_Z (n : Z) : Z.abs n <= 2 ^ 53 -> double (inject_Z n).
Proof.
  intros Hn. destruct (Z.eq_dec (Z.abs n) (2 ^ 53)) as [E|E].
  - assert (Hc : n = 2 ^ 53 \/ n = - 2 ^ 53) by lia.
    destruct Hc as [-> | ->].
    + exists (2 ^ 52), 1075. split; [reflexivity|]. split; [lia|]. vm_compute. reflexivity.
    + exists (- 2 ^ 52), 1075. split; [reflexivity|]. split; [lia|]. vm_compute. reflexivity.
  - assert (H := double_dyadic n 0 ltac:(lia) ltac:(lia)).
    refine (double_Qeq _ _ _ H). change (2 ^ 0) with 1.
    unfold Qeq. cbn. lia.
Qed.

Lemma Qred_inject_Z (n : Z) : Qred (inject_Z n) = inject_Z n.
Proof. apply Qcanon.Qred_identity. cbn. apply Z.gcd_1_r. Qed.

(** Integers up to [2 ^ 53] are doubles. *)
Lemma round64_Z (q : Q) (n : Z) :
  (q == inject_Z n)%Q -> Z.abs n <= 2 ^ 53 -> round64 q = of_Z n.
Proof.
  intros E Hn. rewrite (round64_Qeq q (inject_Z n) E (double_Z n Hn)).
  unfold of_Z. now rewrite Qred_inject_Z.
Qed.

Lemma Qtrunc_integer (q : Q) (n : Z) : (q == inject_Z n)%Q -> Qtrunc q = n.
Proof.
  unfold Qeq, Qtrunc. cbn [inject_Z Qnum Qden]. intros H.
  rewrite Z.mul_1_r in H. rewrite H. apply Z.quot_mul. discriminate.
Qed.

Lemma Qtrunc_ge (b : Z) (q : Q) : (inject_Z b <= q)%Q -> b <= Qtrunc q.
Proof.
  unfold Qle, Qtrunc. destruct q as [n d]. cbn [inject_Z Qnum Qden]. intros H.
  pose proof (Z.quot_rem' n (Z.pos d)) as E.
  destruct (Z.le_gt_cases 0 n) as [Hn|Hn].
  - pose proof (Z.rem_bound_pos n (Z.pos d) Hn ltac:(lia)) as P.
    set (k := n ÷ Z.pos d) in *. set (r := Z.rem n (Z.pos d)) in *. clearbody k r.
    nia.
  - pose proof (Z.rem_bound_abs n (Z.pos d) ltac:(lia)) as P.
    pose proof (Z.rem_sign_mul n (Z.pos d) ltac:(lia)) as S.
    set (k := n ÷ Z.pos d) in *. set (r := Z.rem n (Z.pos d)) in *. clearbody k r.
    nia.
Qed.

Lemma Qtrunc_le (b : Z) (q : Q) : (q <= inject_Z b)%Q -> Qtrunc q <= b.
Proof.
  unfold Qle, Qtrunc. destruct q as [n d]. cbn [inject_Z Qnum Qden]. intros H.
  pose proof (Z.quot_rem' n (Z.pos d)) as E.
  destruct (Z.le_gt_cases 0 n) as [Hn|Hn].
  - pose proof (Z.rem_bound_pos n (Z.pos d) Hn ltac:(lia)) as P.
    set (k := n ÷ Z.pos d) in *. set (r := Z.rem n (Z.pos d)) in *. clearbody k r.
    nia.
  - pose proof (Z.rem_bound_abs n (Z.pos d) ltac:(lia)) as P.
    pose proof (Z.rem_sign_mul n (Z.pos d) ltac:(lia)) as S.
    set (k := n ÷ Z.pos d) in *. set (r := Z.rem n (Z.pos d)) in *. clearbody k r.
    nia.
Qed.

Lemma to_integer_of_Z (z : Z) : to_integer (of_Z z) = Some z.
Proof. cbn. f_equal. apply Qtrunc_integer. reflexivity. Qed.

(** Integers up to [2 ^ 53] are not changed by rounding. *)
Lemma fl_small (z : Z) : Z.abs z <= 2 ^ 53 -> fl z = Some z.
Proof.
  intros H. unfold fl. rewrite (round64_Z (inject_Z z) z) by (reflexivity || exact H).
  apply to_integer_of_Z.
Qed.

(** Rounding does not cross an integer that is a double. *)
Lemma fl_ge (b z : Z) :
  Z.abs b <= 2 ^ 53 -> b <= z ->
  match fl z with Some z' => b <= z' | None => True end.
Proof.
  intros Hb Hz. unfold fl.
  assert (H : (inject_Z b <= inject_Z z)%Q) by (now rewrite <- Zle_Qle).
  pose proof (round64_ge (inject_Z z) (inject_Z b) (double_Z b Hb) H) as G.
  destruct (round64 (inject_Z z)) as [|sg|q]; [exact I|exact I|].
  cbn [num_leb] in G. apply Qle_bool_iff in G. now apply Qtrunc_ge.
Qed.

Lemma fl_le (b z : Z) :
  Z.abs b <= 2 ^ 53 -> z <= b ->
  match fl z with Some z' => z' <= b | None => True end.
Proof.
  intros Hb Hz. unfold fl.
  assert (H : (inject_Z z <= inject_Z b)%Q) by (now rewrite <- Zle_Qle).
  pose proof (round64_le (inject_Z z) (inject_Z b) (double_Z b Hb) H) as G.
  destruct (round64 (inject_Z z)) as [|sg|q]; [exact I|exact I|].
  cbn [num_leb] in G. apply Qle_bool_iff in G. now apply Qtrunc_le.
Qed.

(** A field plus an integral amount. *)
Lemma to_integer_add (a n : Z) (q : Q) :
  (q == inject_Z n)%Q -> Z.abs (a + n) <= 2 ^ 53 ->
  to_integer (num_add (of_Z a) (Num q)) = Some (a + n).
Proof.
  intros H Hb. cbn [num_add of_Z].
  rewrite (round64_Z _ (a + n)); [apply to_integer_of_Z| |exact Hb].
  rewrite H, inject_Z_plus. reflexivity.
Qed.

Lemma num_mul_Z (n k : Z) (q : Q) :
  (q == inject_Z n)%Q -> Z.abs (n * k) <= 2 ^ 53 ->
  num_mul (Num q) (of_Z k) = of_Z (n * k).
Proof.
  intros H Hb. cbn [num_mul of_Z]. apply round64_Z; [|exact Hb].
  rewrite H, inject_Z_mult. reflexivity.
Qed.

Lemma num_sub_Z (a b : Z) :
  Z.abs (a - b) <= 2 ^ 53 -> num_sub (of_Z a) (of_Z b) = of_Z (a - b).
Proof.
  intros Hb. cbn [num_sub of_Z]. apply round64_Z; [|exact Hb].
  unfold Z.sub. rewrite inject_Z_plus, inject_Z_opp. reflexivity.
Qed.

Lemma num_div_pos (a : Q) (p : Z) :
  0 < p -> num_div (Num a) (of_Z p) = round64 (a / inject_Z p).
Proof.
  intros Hp. unfold num_div, of_Z.
  replace (Qeq_bool (inject_Z p) 0) with false; [reflexivity|].
  symmetry. apply not_true_is_false. intros H. apply Qeq_bool_iff in H.
  unfold Qeq in H. cbn in H. lia.
Qed.

(** A quotient that is an integer is exact. *)
Lemma num_div_Z (a n p : Z) :
  0 < p -> a = n * p -> Z.abs n <= 2 ^ 53 ->
  num_div (of_Z a) (of_Z p) = of_Z n.
Proof.
  intros Hp -> Hn. unfold of_Z at 1. rewrite num_div_pos by exact Hp.
  apply round64_Z; [|exact Hn].
  rewrite inject_Z_mult. field. intros H. unfold Qeq in H. cbn in H. lia.
Qed.

End Binary64.

(** ** Facts about the toast service *)

Section ToastFacts.

Implicit Types (w : World) (t : Toast) (i : string) (evs : list event).

(** *** What each operation does to the world *)

Lemma show_eq w message type d :
  show message type d w =
  (Normal undefined,
   {| now := now w; random := random w; draws := S (draws w);
      toasts := toasts w ++ [new_toast w message type d];
      published := published w ++ [toasts w ++ [new_toast w message type d]];
      timers :=
        if 0 <? default (DEFAULT_DURATION type) d
        then schedule (now w + timer_delay (default (DEFAULT_DURATION type) d))
               (next_id w) (timers w)
        else timers w |}).
Proof.
  unfold show, generateId, mbind, M_bind, mret, M_ret; simpl.
  unfold new_toast, next_id.
  destruct (0 <? default (DEFAULT_DURATION type) d); reflexivity.
Qed.

Lemma dismiss_eq i w :
  dismiss i w =
  (Normal undefined,
   {| now := now w; random := random w; draws := draws w;
      toasts := filter (fun t => id t ≠ i) (toasts w);
      published := published w ++ [filter (fun t => id t ≠ i) (toasts w)];
      timers := timers w |}).
Proof. reflexivity. Qed.

Lemma dismissAll_eq w :
  dismissAll w =
  (Normal undefined,
   {| now := now w; random := random w; draws := draws w;
      toasts := []; published := published w ++ [[]]; timers := timers w |}).
Proof. reflexivity. Qed.

Lemma entry_points_eq w message d :
  success message d w = show message Success d w /\
  error message d w = show message Error d w /\
  warning message d w = show message Warning d w /\
  info message d w = show message Info d w.
Proof.
  unfold success, error, warning, info, mbind, M_bind, mret, M_ret.
  rewrite !show_eq. repeat split; reflexivity.
Qed.

Lemma fire_frame due w :
  now (fire due w).2 = now w /\ timers (fire due w).2 = timers w /\
  random (fire due w).2 = random w /\ draws (fire due w).2 = draws w.
Proof.
  revert w. induction due as [|tm due IH]; intros w; [easy|].
  cbn [fire]. unfold mbind, M_bind. rewrite dismiss_eq.
  destruct (IH {| now := now w; random := random w; draws := draws w;
      toasts := filter (fun t => id t ≠ tm.2) (toasts w);
      published := published w ++ [filter (fun t => id t ≠ tm.2) (toasts w)];
      timers := timers w |}) as (A & B & C & D).
  cbn [fst snd now timers random draws] in *. auto.
Qed.

Lemma elem_of_fire due w t :
  t ∈ toasts (fire due w).2 <-> t ∈ toasts w /\ forall tm, tm ∈ due -> id t ≠ tm.2.
Proof.
  revert w. induction due as [|tm due IH]; intros w.
  - simpl. split; [intros H; split; [exact H|]|tauto].
    intros tm Htm. inversion Htm.
  - cbn [fire]. unfold mbind, M_bind. rewrite dismiss_eq. rewrite IH.
    cbn [toasts]. rewrite list_elem_of_filter. split.
    + intros [[Hne Hin] Hall]. split; [exact Hin|].
      intros tm' Htm'. apply elem_of_cons in Htm' as [-> | Htm']; auto.
    + intros [Hin Hall]. split; [split; [|exact Hin]|].
      * apply Hall. left.
      * intros tm' Htm'. apply Hall. now right.
Qed.

Lemma elapse_now dt w : now (elapse dt w).2 = now w + Z.of_N dt.
Proof. unfold elapse. now rewrite (proj1 (fire_frame _ _)). Qed.

Lemma elapse_timers dt w :
  timers (elapse dt w).2 = filter (fun tm => now w + Z.of_N dt < tm.1) (timers w).
Proof. unfold elapse. now rewrite (proj1 (proj2 (fire_frame _ _))). Qed.

Lemma elem_of_elapse dt w t :
  t ∈ toasts (elapse dt w).2 <->
  t ∈ toasts w /\
  forall tm, tm ∈ timers w -> tm.1 ≤ now w + Z.of_N dt -> id t ≠ tm.2.
Proof.
  unfold elapse. rewrite elem_of_fire. cbn [toasts]. split.
  - intros [Hin Hall]. split; [exact Hin|]. intros tm Htm Hdue.
    apply Hall. apply list_elem_of_filter. auto.
  - intros [Hin Hall]. split; [exact Hin|]. intros tm Htm.
    apply list_elem_of_filter in Htm as [Hdue Htm]. auto.
Qed.

Lemma elem_of_schedule due i q tm :
  tm ∈ schedule due i q <-> tm = (due, i) \/ tm ∈ q.
Proof.
  induction q as [|tm' q IH]; simpl.
  - rewrite list_elem_of_singleton. split; [auto|].
    intros [H|H]; [exact H|inversion H].
  - destruct (tm'.1 <=? due).
    + rewrite !elem_of_cons, IH. tauto.
    + rewrite !elem_of_cons. tauto.
Qed.

(** The timestamp inside an id tells when it was generated. *)
Lemma next_id_now w w' : next_id w = next_id w' -> now w = now w'.
Proof.
  unfold next_id. intros E. simpl in E.
  injection E as E.
  now apply Number_toString_sep_inj in E.
Qed.

(** *** Traces *)

Lemma step_now w ev : now w ≤ now (step w ev).
Proof.
  destruct ev as [m ty d|j| |dt]; cbn [step].
  - rewrite show_eq. cbn. lia.
  - rewrite dismiss_eq. cbn. lia.
  - rewrite dismissAll_eq. cbn. lia.
  - rewrite elapse_now. lia.
Qed.

Lemma run_cons ev evs w : run (ev :: evs) w = run evs (step w ev).
Proof. reflexivity. Qed.

Lemma not_dismisses_elapse i w dt tm :
  dismisses i w (Elapse dt) = false ->
  tm ∈ timers w -> tm.1 ≤ now w + Z.of_N dt -> tm.2 ≠ i.
Proof.
  cbn [dismisses]. intros H Hin Hdue Heq.
  assert (E : existsb (fun tm => (tm.1 <=? now w + Z.of_N dt) && String.eqb tm.2 i)
                (timers w) = true).
  { apply existsb_exists. exists tm. split.
    - now apply list_elem_of_In.
    - apply andb_true_intro. split; [now apply Z.leb_le|now apply String.eqb_eq]. }
  congruence.
Qed.

(** A notification stays where it is while nothing dismisses its id. *)
Lemma undisturbed_stays i evs w t :
  t ∈ toasts w -> id t = i -> undisturbed i evs w = true ->
  t ∈ toasts (run evs w).
Proof.
  intros Hin Hid. revert w Hin.
  induction evs as [|ev evs IH]; intros w Hin Hund; [exact Hin|].
  cbn [undisturbed] in Hund. apply andb_prop in Hund as [Hev Hund].
  apply negb_true_iff in Hev.
  rewrite run_cons. apply IH; [|exact Hund].
  destruct ev as [m ty d|j| |dt]; cbn [step].
  - rewrite show_eq. cbn [snd toasts]. apply elem_of_app. now left.
  - rewrite dismiss_eq. cbn [snd toasts]. apply list_elem_of_filter.
    split; [|exact Hin]. cbn [dismisses] in Hev.
    apply String.eqb_neq in Hev. congruence.
  - discriminate.
  - apply elem_of_elapse. split; [exact Hin|]. intros tm Htm Hdue.
    rewrite Hid. intros E. symmetry in E. revert E.
    now apply (not_dismisses_elapse i w dt).
Qed.

(** Time alone dismisses only the ids that pending timers carry. *)
Lemma idle_undisturbed i (dts : list N) w :
  targets i w = false -> undisturbed i (Elapse <$> dts) w = true.
Proof.
  revert w. induction dts as [|dt dts IH]; intros w Hw; [reflexivity|].
  cbn [fmap list_fmap undisturbed]. apply andb_true_intro. split.
  - apply negb_true_iff. cbn [dismisses]. unfold targets in Hw.
    induction (timers w) as [|tm q IHq]; [reflexivity|].
    cbn [existsb] in *. apply orb_false_elim in Hw as [Htm Hq].
    rewrite Htm, andb_false_r. now apply IHq.
  - apply IH. cbn [step]. unfold targets in *. rewrite elapse_timers.
    induction (timers w) as [|tm q IHq]; [reflexivity|].
    cbn [existsb] in Hw. apply orb_false_elim in Hw as [Htm Hq].
    rewrite filter_cons. destruct (decide _); [|now apply IHq].
    cbn [existsb]. now rewrite Htm, IHq.
Qed.

(** *** Expiry *)

Section Expiry.

(** A timer for [i] is due at [T]; [i] was generated at the earlier
    time [t0] and carries that timestamp. *)
Variables (t0 T : Z) (i : string).
Hypothesis t0_before : t0 < T.
Hypothesis stamped : forall w, next_id w = i -> now w = t0.

Lemma awaiting_step w ev :
  awaiting t0 T i w -> awaiting t0 T i (step w ev).
Proof.
  unfold awaiting. intros (Hle & Hpend & Hgone).
  destruct ev as [m ty d|j| |dt]; cbn [step].
  - rewrite show_eq. split; [cbn; lia|]. cbn [snd now timers toasts]. split.
    + intros Hlt. destruct (0 <? _); [|auto].
      apply elem_of_schedule. right. auto.
    + intros Hge t Ht. apply elem_of_app in Ht as [Ht|Ht]; [now apply Hgone|].
      apply list_elem_of_singleton in Ht. subst t. cbn [new_toast id].
      intros E. apply stamped in E. lia.
  - rewrite dismiss_eq. split; [cbn; lia|]. cbn [snd now timers toasts]. split.
    + exact Hpend.
    + intros Hge t Ht. apply list_elem_of_filter in Ht as [_ Ht]. now apply Hgone.
  - rewrite dismissAll_eq. split; [cbn; lia|]. cbn [snd now timers toasts]. split.
    + exact Hpend.
    + intros _ t Ht. inversion Ht.
  - rewrite elapse_now, elapse_timers. split; [lia|]. split.
    + intros Hlt. apply list_elem_of_filter. split; [cbn; lia|].
      apply Hpend. lia.
    + intros Hge t Ht. apply elem_of_elapse in Ht as [Ht Hall].
      destruct (Z_lt_le_dec (now w) T) as [Hlt|Hge'].
      * apply (Hall (T, i)); [now apply Hpend|cbn; lia].
      * now apply Hgone.
Qed.

Lemma awaiting_run evs w :
  awaiting t0 T i w -> awaiting t0 T i (run evs w).
Proof.
  revert w. induction evs as [|ev evs IH]; intros w H; [exact H|].
  rewrite run_cons. apply IH. now apply awaiting_step.
Qed.

End Expiry.

(** The timer never waits longer than it was asked to. *)
Lemma timer_delay_bounds (d : Z) : 0 < d -> 0 < timer_delay d ≤ d.
Proof. intros H. unfold timer_delay. destruct (Z.leb_spec d 2147483647); lia. Qed.

Lemma timer_delay_fits (d : Z) : d ≤ 2147483647 -> timer_delay d = d.
Proof. intros H. unfold timer_delay. destruct (Z.leb_spec d 2147483647); lia. Qed.

(** Whatever happens after a [show] with a positive lifetime, once the
    lifetime has elapsed no notification carries the id it generated. *)
Lemma show_expires w message type d evs :
  let life := default (DEFAULT_DURATION type) d in
  let w1 := (show message type d w).2 in
  0 < life -> now w + life ≤ now (run evs w1) ->
  forall t, t ∈ toasts (run evs w1) -> id t ≠ next_id w.
Proof.
  intros life w1 Hpos Hlate.
  pose proof (timer_delay_bounds life Hpos) as Hdelay.
  assert (H : awaiting (now w) (now w + timer_delay life) (next_id w) (run evs w1)).
  { apply awaiting_run; [lia|intros w' E; now apply next_id_now|].
    subst w1. rewrite show_eq.
    split; [cbn; lia|]. cbn [snd now timers toasts]. split.
    - intros _. fold life. apply Z.ltb_lt in Hpos. rewrite Hpos.
      apply elem_of_schedule. now left.
    - lia. }
  destruct H as (_ & _ & H). apply H. lia.
Qed.

Lemma filter_twice (i : string) (l : list Toast) :
  filter (fun t => id t ≠ i) (filter (fun t => id t ≠ i) l)
  = filter (fun t => id t ≠ i) l.
Proof.
  induction l as [|t l IH]; [reflexivity|].
  rewrite filter_cons. destruct (decide (id t ≠ i)) as [H|H].
  - rewrite filter_cons_True by exact H. now rewrite IH.
  - exact IH.
Qed.

Lemma show_timers_nonpositive w message type d :
  default (DEFAULT_DURATION type) d ≤ 0 ->
  timers (show message type d w).2 = timers w.
Proof.
  intros H. rewrite show_eq. cbn [snd timers].
  apply Z.ltb_ge in H. now rewrite H.
Qed.

(** Ids stay distinct as long as every generated id is new to the
    active set. *)
Lemma step_NoDup_ids w ev :
  NoDup (id <$> toasts w) ->
  (forall m ty d, ev = CallShow m ty d -> next_id w ∉ id <$> toasts w) ->
  NoDup (id <$> toasts (step w ev)).
Proof.
  intros Hnd Hfresh. destruct ev as [m ty d|j| |dt]; cbn [step].
  - rewrite show_eq. cbn [snd toasts]. rewrite fmap_app. cbn [fmap list_fmap].
    apply NoDup_app. split; [exact Hnd|]. split; [|apply NoDup_singleton].
    intros x Hx Hx'. apply list_elem_of_singleton in Hx'. subst x.
    now apply (Hfresh m ty d).
  - rewrite dismiss_eq. cbn [snd toasts].
    eapply sublist_NoDup; [exact Hnd|apply fmap_sublist, sublist_filter].
  - rewrite dismissAll_eq. cbn. apply NoDup_nil_2.
  - unfold elapse. generalize (filter (fun tm => tm.1 ≤ now w + Z.of_N dt) (timers w)).
    intros due.
    set (w' := {| now := now w + Z.of_N dt; random := random w; draws := draws w;
                  toasts := toasts w; published := published w;
                  timers := filter (fun tm => now w + Z.of_N dt < tm.1) (timers w) |}).
    assert (Hnd' : NoDup (id <$> toasts w')) by exact Hnd.
    clearbody w'. revert w' Hnd'.
    induction due as [|tm due IH]; intros w' Hnd'; [exact Hnd'|].
    cbn [fire]. unfold mbind, M_bind. rewrite dismiss_eq. apply IH.
    cbn [toasts].
    eapply sublist_NoDup; [exact Hnd'|apply fmap_sublist, sublist_filter].
Qed.

End ToastFacts.

(** ** The notification manager: claims *)

(** C1, as stated, fails: [show] and the entry points are declared [void].
    In [demo], [show("Saved", "success")] creates the notification
    [toast-1736899200123-4fzyo] and the caller receives [undefined], not
    that id; the same holds for [success("Saved")]. *)
Lemma show_returns_no_id :
  id <$> last (toasts (show "Saved" Success None demo).2)
    = Some "toast-1736899200123-4fzyo"%string /\
  (show "Saved" Success None demo).1 ≠ Normal (jsstring "toast-1736899200123-4fzyo") /\
  (success "Saved" None demo).1 ≠ Normal (jsstring "toast-1736899200123-4fzyo").
Proof. repeat split; vm_compute; discriminate. Qed.

(** C1, amended: [show] and the entry points [success], [error], [warning]
    and [info] return nothing ([undefined]).  The id of the new
    notification is available only as the [id] of the last entry of the
    active set the call publishes; [dismiss] with that id leaves no
    notification carrying it. *)
Theorem show_returns_undefined (w : World) (message : string) (type : ToastType)
    (d : option Z) :
  let w1 := (show message type d w).2 in
  (show message type d w).1 = Normal undefined /\
  (success message d w).1 = Normal undefined /\
  (error message d w).1 = Normal undefined /\
  (warning message d w).1 = Normal undefined /\
  (info message d w).1 = Normal undefined /\
  id <$> last (toasts w1) = Some (next_id w) /\
  last (published w1) = Some (toasts w1) /\
  Forall (fun t => id t ≠ next_id w) (toasts (dismiss (next_id w) w1).2).
Proof.
  intros w1. subst w1.
  destruct (entry_points_eq w message d) as (-> & -> & -> & ->).
  rewrite !show_eq. cbn [fst snd toasts published].
  repeat split.
  - now rewrite last_snoc.
  - now rewrite last_snoc.
  - rewrite dismiss_eq. cbn [snd toasts]. apply Forall_forall.
    intros t Ht. now apply list_elem_of_filter in Ht as [Hne _].
Qed.

(** C2, as stated, fails: [show] validates nothing.  In [demo],
    [show("", "success", -1)] raises no error and the active set, empty
    before, has an entry afterwards. *)
Lemma show_accepts_invalid :
  is_throw (show "" Success (Some (-1)) demo).1 = false /\
  toasts (show "" Success (Some (-1)) demo).2 ≠ toasts demo.
Proof. split; vm_compute; [reflexivity|discriminate]. Qed.

(** C2, amended: [show] performs no validation.  For every message (the
    empty one included; the parameter type admits no absent message) and
    every lifetime (negative ones included) it raises no error and appends
    the notification, with the message as given and the lifetime as given
    or, when none is given, the default of the category. *)
Theorem show_never_rejects (w : World) (message : string) (type : ToastType)
    (d : option Z) :
  let toast := new_toast w message type d in
  is_throw (show message type d w).1 = false /\
  toasts (show message type d w).2 = toasts w ++ [toast] /\
  Toasts.message toast = message /\
  duration toast = default (DEFAULT_DURATION type) d.
Proof. rewrite show_eq. repeat split. Qed.

(** C3, as stated, fails: every [dismiss] calls [next].  In [demo], after
    one notification was shown and dismissed, dismissing its id again
    leaves the active set as it is and yet hands observers one more
    update. *)
Lemma second_dismiss_publishes :
  let once := (dismiss (next_id demo) (show "Saved" Success None demo).2).2 in
  let twice := (dismiss (next_id demo) once).2 in
  toasts twice = toasts once /\
  length (published twice) = S (length (published once)).
Proof. split; vm_compute; reflexivity. Qed.

(** C3, amended: for every id and state, a second [dismiss(id)] right
    after the first raises no error and leaves the active set (and the
    clock and the timers) unchanged, but it does publish: observers
    receive the unchanged active set once more. *)
Theorem dismiss_twice (w : World) (i : string) :
  let once := (dismiss i w).2 in
  let twice := (dismiss i once).2 in
  (dismiss i once).1 = Normal undefined /\
  toasts twice = toasts once /\
  timers twice = timers once /\
  now twice = now once /\
  published twice = published once ++ [toasts once].
Proof.
  cbv zeta. rewrite !dismiss_eq. cbn [fst snd toasts timers now published].
  rewrite filter_twice. repeat split.
Qed.

(** C4: the ids of the active set need not be distinct.  In [unlucky],
    two [show] calls in the same millisecond draw random values with the
    same five leading digits, and both notifications get the id
    [toast-1736899200123-4fzyo]. *)
Theorem ids_collide :
  id <$> toasts (run [CallShow "Saved" Success None; CallShow "Deleted" Info None] unlucky)
    = ["toast-1736899200123-4fzyo"; "toast-1736899200123-4fzyo"]%string /\
  bool_decide (NoDup (id <$> toasts (run [CallShow "Saved" Success None;
                                          CallShow "Deleted" Info None] unlucky)))
    = false.
Proof. split; vm_compute; reflexivity. Qed.

(** C5, as stated, fails: the default for [info] exceeds the default for
    [success]. *)
Lemma defaults_info_above_success :
  ~ (DEFAULT_DURATION Info ≤ DEFAULT_DURATION Success).
Proof. vm_compute. intros H. now apply H. Qed.

(** C5, amended: the defaults increase in the order success, info,
    warning, error; the success default is the shortest and the error
    default the longest. *)
Theorem defaults_ordering :
  DEFAULT_DURATION Success < DEFAULT_DURATION Info /\
  DEFAULT_DURATION Info < DEFAULT_DURATION Warning /\
  DEFAULT_DURATION Warning < DEFAULT_DURATION Error /\
  Forall (fun ty => DEFAULT_DURATION Success ≤ DEFAULT_DURATION ty ≤ DEFAULT_DURATION Error)
    [Success; Error; Warning; Info].
Proof. repeat split; repeat constructor; cbn; lia. Qed.

(** C6: a notification shown with lifetime 0 can be removed by a timer.
    In [unlucky], [Saved] is shown with the default lifetime of 4000 ms
    and, in the same millisecond, [Pinned] with lifetime 0; both get the
    id [toast-1736899200123-4fzyo].  The second [show] schedules nothing
    and its notification is still active 3999 ms later; one millisecond
    on, the timer of the first runs [dismiss] with the shared id and
    removes both, though neither [dismiss] nor [dismissAll] was called. *)
Theorem lifetime_zero_removed_by_timer :
  let w1 := run [CallShow "Saved" Success None] unlucky in
  let w2 := run [CallShow "Pinned" Info (Some 0)] w1 in
  (fun t => (id t, message t, duration t)) <$> toasts w2
    = [("toast-1736899200123-4fzyo", "Saved", 4000);
       ("toast-1736899200123-4fzyo", "Pinned", 0)]%string /\
  timers w2 = timers w1 /\
  timers w1 = [(1736899204123, "toast-1736899200123-4fzyo"%string)] /\
  message <$> toasts (run [Elapse 3999] w2) = ["Saved"; "Pinned"]%string /\
  toasts (run [Elapse 3999; Elapse 1] w2) = [].
Proof. repeat split; vm_compute; reflexivity. Qed.

(** C7: immediately after any [show] the active set is the previous one
    followed by the new notification: one entry more, the new entry last,
    the earlier entries where they were. *)
Theorem show_appends_last (w : World) (message : string) (type : ToastType)
    (d : option Z) :
  let w1 := (show message type d w).2 in
  toasts w1 = toasts w ++ [new_toast w message type d] /\
  length (toasts w1) = S (length (toasts w)) /\
  last (toasts w1) = Some (new_toast w message type d) /\
  take (length (toasts w)) (toasts w1) = toasts w.
Proof.
  cbv zeta. rewrite show_eq. cbn [snd toasts]. repeat split.
  - rewrite length_app. cbn. lia.
  - apply last_snoc.
  - now rewrite take_app_length.
Qed.

(** C10: [show] with an explicit negative duration is not rejected, the
    duration is stored as given and no timer is scheduled; yet the
    notification can be removed without being dismissed.  In [unlucky],
    [Offline] is shown with duration -5 in the millisecond in which [Saved]
    was shown with the default lifetime, and gets the same id; after
    4000 ms the timer of [Saved] removes both. *)
Theorem negative_duration_removed_by_timer :
  let w1 := run [CallShow "Saved" Success None] unlucky in
  let w2 := (show "Offline" Warning (Some (-5)) w1).2 in
  (show "Offline" Warning (Some (-5)) w1).1 = Normal undefined /\
  (fun t => (id t, message t, duration t)) <$> toasts w2
    = [("toast-1736899200123-4fzyo", "Saved", 4000);
       ("toast-1736899200123-4fzyo", "Offline", -5)]%string /\
  timers w2 = timers w1 /\
  message <$> toasts (run [Elapse 3999] w2) = ["Saved"; "Offline"]%string /\
  toasts (run [Elapse 4000] w2) = [].
Proof. repeat split; vm_compute; reflexivity. Qed.

(** ** Facts about dates *)

Import DateUtils.

Lemma DayFromYear_succ (y : Z) : DayFromYear (y + 1) = DayFromYear y + DaysInYear y.
Proof.
  unfold DayFromYear, DaysInYear, leap.
  destruct (Z.eqb_spec (y mod 4) 0), (Z.eqb_spec (y mod 100) 0),
    (Z.eqb_spec (y mod 400) 0); cbn [andb orb negb];
    Z.div_mod_to_equations; lia.
Qed.

Lemma YearFromDay_spec (d : Z) :
  DayFromYear (YearFromDay d) ≤ d < DayFromYear (YearFromDay d + 1).
Proof.
  unfold YearFromDay.
  set (y := 1970 + 400 * d / 146097).
  assert (H : DayFromYear (y - 1) ≤ d < DayFromYear (y + 2)).
  { subst y. unfold DayFromYear. Z.div_mod_to_equations. lia. }
  pose proof (DayFromYear_succ (y - 1)) as S1.
  pose proof (DayFromYear_succ (y + 1)) as S2.
  replace (y - 1 + 1) with y in S1 by lia.
  replace (y + 1 + 1) with (y + 2) in S2 by lia.
  destruct (Z.ltb_spec d (DayFromYear y)).
  - replace (y - 1 + 1) with y by lia. lia.
  - destruct (Z.leb_spec (DayFromYear (y + 1)) d).
    + replace (y + 1 + 1) with (y + 2) by lia. lia.
    + lia.
Qed.

Lemma DayFromYear_mono (y1 y2 : Z) : y1 ≤ y2 -> DayFromYear y1 ≤ DayFromYear y2.
Proof. unfold DayFromYear. intros H. Z.div_mod_to_equations. lia. Qed.

Lemma YearFromDay_largest (d y : Z) : DayFromYear y ≤ d -> y ≤ YearFromDay d.
Proof.
  intros H. destruct (Z_le_gt_dec y (YearFromDay d)) as [Hle|Hgt]; [exact Hle|].
  pose proof (YearFromDay_spec d) as [_ Hlt].
  pose proof (DayFromYear_mono (YearFromDay d + 1) y). lia.
Qed.

Lemma DayWithinYear_bounds (t : Z) :
  0 ≤ DayWithinYear t < DaysInYear (YearFromTime t).
Proof.
  unfold DayWithinYear, YearFromTime.
  pose proof (YearFromDay_spec (Day t)) as H.
  rewrite DayFromYear_succ in H. lia.
Qed.

Lemma InLeapYear_days (t : Z) : DaysInYear (YearFromTime t) = 365 + InLeapYear t.
Proof. unfold DaysInYear, InLeapYear. now destruct (leap _). Qed.

(** The fields read off a time value name its day. *)
Lemma calendar_fields (t : Z) :
  0 ≤ MonthFromTime t ≤ 11 /\
  1 ≤ DateFromTime t ≤ DaysInMonth (YearFromTime t) (MonthFromTime t) /\
  MakeDay (YearFromTime t) (MonthFromTime t) (DateFromTime t) = Day t.
Proof.
  pose proof (DayWithinYear_bounds t) as Hb. rewrite InLeapYear_days in Hb.
  unfold DateFromTime, DaysInMonth, MakeDay, MonthFromTime.
  fold (InLeapYear t).
  assert (Hl : InLeapYear t = 0 \/ InLeapYear t = 1)
    by (unfold InLeapYear; destruct (leap _); auto).
  unfold DayWithinYear in *.
  set (dwy := Day t - DayFromYear (YearFromTime t)) in *.
  set (l := InLeapYear t) in *.
  repeat match goal with
         | |- context [?a <? ?b] => destruct (Z.ltb_spec a b)
         end; cbn [month_start Z.add Pos.add Pos.succ]; 
    destruct Hl as [Hl|Hl]; rewrite Hl in *;
    repeat match goal with
           | |- context [month_start ?a ?b] =>
               let v := eval vm_compute in (month_start a b) in
               change (month_start a b) with v
           end; lia.
Qed.

Lemma digit_char_value (d : Z) : digit_value (digit_char d) = Some (d mod 10).
Proof.
  unfold digit_char.
  assert (H : 0 ≤ d mod 10 < 10) by (apply Z.mod_pos_bound; lia).
  set (k := d mod 10) in *.
  assert (K : k = 0 \/ k = 1 \/ k = 2 \/ k = 3 \/ k = 4 \/ k = 5 \/ k = 6 \/ k = 7
              \/ k = 8 \/ k = 9) by lia.
  destruct K as [->|[->|[->|[->|[->|[->|[->|[->|[->| ->]]]]]]]]]; reflexivity.
Qed.

Lemma digit_char_is_digit (d : Z) : is_digit (digit_char d) = true.
Proof.
  pose proof (digit_char_value d) as H. unfold digit_value in H.
  now destruct (is_digit (digit_char d)).
Qed.

Lemma is_digit_not (c c' : ascii) :
  is_digit c = true -> is_digit c' = false -> Ascii.eqb c c' = false.
Proof.
  intros H H'. destruct (Ascii.eqb_spec c c') as [->|]; [congruence|reflexivity].
Qed.

Lemma append_cons (c : ascii) (s r : string) : String c s +:+ r = String c (s +:+ r).
Proof. reflexivity. Qed.

Lemma append_nil (r : string) : EmptyString +:+ r = r.
Proof. reflexivity. Qed.

Ltac unfold_append := rewrite ?append_cons, ?append_nil.

Lemma append_empty_r (s : string) : s +:+ EmptyString = s.
Proof.
  induction s as [|c s IH]; [reflexivity|].
  unfold_append. f_equal. exact IH.
Qed.

Lemma append_assoc (s1 s2 s3 : string) : (s1 +:+ s2) +:+ s3 = s1 +:+ (s2 +:+ s3).
Proof.
  induction s1 as [|c s IH]; [reflexivity|].
  unfold_append. f_equal. exact IH.
Qed.

Lemma read_pad (w : nat) (n acc : Z) (r : string) :
  read_digits w (pad w n +:+ r) acc
  = Some (10 ^ Z.of_nat w * acc + n mod 10 ^ Z.of_nat w, r).
Proof.
  revert acc. induction w as [|w IH]; intros acc.
  - cbn [read_digits pad]. simpl. rewrite Z.mod_1_r. do 2 f_equal. lia.
  - cbn [read_digits pad]. unfold_append. rewrite digit_char_value, IH.
    do 2 f_equal. rewrite Nat2Z.inj_succ, Z.pow_succ_r by lia.
    rewrite (Z.mul_comm 10 (10 ^ Z.of_nat w)).
    rewrite Z.rem_mul_r by lia. lia.
Qed.

Lemma lacks_app (c : ascii) (s1 s2 : string) :
  lacks c (s1 +:+ s2) = lacks c s1 && lacks c s2.
Proof.
  induction s1 as [|c' s1 IH]; [reflexivity|].
  unfold_append. cbn [lacks]. rewrite IH. now rewrite andb_assoc.
Qed.

Lemma lacks_pad (c : ascii) (w : nat) (n : Z) :
  is_digit c = false -> lacks c (pad w n) = true.
Proof.
  intros H. induction w as [|w IH]; [reflexivity|]. cbn [pad lacks].
  rewrite IH, (is_digit_not _ c (digit_char_is_digit _) H). reflexivity.
Qed.

Lemma split_head_app (c : ascii) (s r : string) :
  lacks c s = true -> split_head c (s +:+ String c r) = s.
Proof.
  induction s as [|c' s IH]; unfold_append; cbn [lacks split_head].
  - now rewrite Ascii.eqb_refl.
  - intros H. apply andb_prop in H as [H1 H2].
    apply negb_true_iff in H1. rewrite H1. now rewrite IH.
Qed.

Lemma read_iso_year (y : Z) (r : string) :
  -999999 ≤ y ≤ 999999 -> read_year (iso_year y +:+ r) = Some (y, r).
Proof.
  intros Hy. unfold iso_year.
  destruct (Z.leb_spec 0 y) as [H0|H0]; [destruct (Z.leb_spec y 9999) as [H1|H1]|];
    cbn [andb].
  - pose proof (read_pad 4 y 0 r) as E. cbn [pad] in *. rewrite ?append_cons, ?append_nil in *.
    unfold read_year.
    rewrite !(is_digit_not _ _ (digit_char_is_digit _)) by reflexivity.
    rewrite E. do 2 f_equal. rewrite Z.mod_small; lia.
  - destruct (Z.ltb_spec y 0) as [?|_]; [lia|]. unfold_append.
    unfold read_year. rewrite Ascii.eqb_refl, read_pad.
    do 2 f_equal. rewrite Z.mod_small; lia.
  - destruct (Z.ltb_spec y 0) as [_|?]; [|lia]. unfold_append.
    unfold read_year. change (Ascii.eqb "-" "+") with false.
    rewrite Ascii.eqb_refl, read_pad.
    rewrite Z.mul_0_r, Z.add_0_l, Z.mod_small by lia.
    destruct (Z.eqb_spec (Z.abs y) 0); [lia|]. do 2 f_equal. lia.
Qed.

Lemma parse_iso_fields (y m d : Z) :
  -999999 ≤ y ≤ 999999 -> 0 ≤ m < 100 -> 0 ≤ d < 100 ->
  parse_date_only (iso_year y +:+ "-" +:+ pad 2 m +:+ "-" +:+ pad 2 d)
  = Some (y, m, d).
Proof.
  intros Hy Hm Hd. unfold parse_date_only.
  rewrite read_iso_year by exact Hy.
  unfold_append. unfold read_field at 1. rewrite Ascii.eqb_refl.
  rewrite read_pad. rewrite Z.mul_0_r, Z.add_0_l, Z.mod_small by lia.
  unfold read_field. rewrite Ascii.eqb_refl.
  rewrite <- (append_empty_r (pad 2 d)), read_pad.
  rewrite Z.mul_0_r, Z.add_0_l, Z.mod_small by lia. reflexivity.
Qed.

Lemma Day_range (t : Z) :
  in_range t = true -> -100000000 ≤ Day t ≤ 100000000.
Proof.
  unfold in_range, Day, maxTime, msPerDay. intros H.
  apply andb_prop in H as [H1 H2]. apply Z.leb_le in H1, H2.
  Z.div_mod_to_equations. lia.
Qed.

Lemma YearFromTime_range (t : Z) :
  in_range t = true -> -271821 ≤ YearFromTime t ≤ 275760.
Proof.
  intros H. apply Day_range in H. unfold YearFromTime.
  pose proof (YearFromDay_spec (Day t)) as Hy.
  set (y := YearFromDay (Day t)) in *. clearbody y.
  unfold DayFromYear in Hy. Z.div_mod_to_equations. lia.
Qed.

Lemma Day_of_midnight (d : Z) : Day (d * msPerDay) = d.
Proof. unfold Day. apply Z.div_mul. discriminate. Qed.

(** The date part of the ISO string names the day only. *)
Lemma iso_date_Day (t : Z) : iso_date (Day t * msPerDay) = iso_date t.
Proof.
  unfold iso_date, DateFromTime, MonthFromTime, InLeapYear, DayWithinYear, YearFromTime.
  now rewrite Day_of_midnight.
Qed.

Lemma TimeClip_of_Z (t : Z) : in_range t = true -> TimeClip (of_Z t) = Some t.
Proof.
  unfold in_range, TimeClip, of_Z, Qle_bool, maxTime. cbn [Qabs inject_Z Qnum Qden].
  intros H. apply andb_prop in H as [H1 H2]. apply Z.leb_le in H1, H2.
  rewrite Z.quot_1_r.
  destruct (Z.leb_spec (Z.abs t * 1) (8640000000000000 * 1)); [reflexivity|lia].
Qed.

Lemma TimeClip_in_range (x : number) (t : Z) :
  TimeClip x = Some t -> in_range t = true.
Proof.
  destruct x as [| |q]; try discriminate. unfold TimeClip, Qle_bool.
  destruct q as [n d]. cbn [Qabs inject_Z Qnum Qden].
  destruct (Z.leb_spec (Z.abs n * 1) (maxTime * Z.pos d)) as [H|H]; [|discriminate].
  intros [= <-]. unfold in_range.
  assert (Hq : Z.abs (n ÷ Z.pos d) ≤ maxTime).
  { rewrite <- Z.quot_abs by lia. change (Z.abs (Z.pos d)) with (Z.pos d).
    rewrite Z.quot_div_nonneg by lia.
    apply Z.div_le_upper_bound; lia. }
  apply andb_true_intro. split; apply Z.leb_le; lia.
Qed.

Lemma midnight_in_range (t : Z) :
  in_range t = true -> in_range (Day t * msPerDay) = true.
Proof.
  intros H. pose proof (Day_range t H) as Hd.
  unfold in_range, maxTime, msPerDay in *.
  apply andb_true_intro. split; apply Z.leb_le; lia.
Qed.

Lemma ISO_date_part (t : Z) : split_head "T" (ISO_string t) = iso_date t.
Proof.
  unfold ISO_string. unfold_append. apply split_head_app.
  unfold iso_date, iso_year.
  rewrite !lacks_app, !lacks_pad by reflexivity.
  destruct ((0 <=? YearFromTime t) && (YearFromTime t <=? 9999)).
  - now rewrite lacks_pad.
  - cbn [lacks]. rewrite lacks_pad by reflexivity. now destruct (_ <? _).
Qed.

Lemma YearFromDay_unique (d y : Z) :
  DayFromYear y ≤ d < DayFromYear (y + 1) -> YearFromDay d = y.
Proof.
  intros [H1 H2]. pose proof (YearFromDay_spec d) as [S1 S2].
  destruct (Z.lt_trichotomy (YearFromDay d) y) as [Hlt|[Heq|Hgt]]; [|exact Heq|].
  - pose proof (DayFromYear_mono (YearFromDay d + 1) y). lia.
  - pose proof (DayFromYear_mono (y + 1) (YearFromDay d)). lia.
Qed.

Ltac eval_month_start :=
  repeat match goal with
         | |- context [month_start ?a ?b] =>
             let v := eval vm_compute in (month_start a b) in
             change (month_start a b) with v
         | H : context [month_start ?a ?b] |- _ =>
             let v := eval vm_compute in (month_start a b) in
             change (month_start a b) with v in H
         end.

Lemma month_chain (l dwy m : Z) :
  l = 0 \/ l = 1 -> 0 ≤ m ≤ 11 ->
  month_start l m ≤ dwy < month_start l (m + 1) ->
  (if dwy <? 31 then 0
   else if dwy <? 59 + l then 1
   else if dwy <? 90 + l then 2
   else if dwy <? 120 + l then 3
   else if dwy <? 151 + l then 4
   else if dwy <? 181 + l then 5
   else if dwy <? 212 + l then 6
   else if dwy <? 243 + l then 7
   else if dwy <? 273 + l then 8
   else if dwy <? 304 + l then 9
   else if dwy <? 334 + l then 10
   else 11) = m.
Proof.
  intros Hl Hm H.
  assert (K : m = 0 \/ m = 1 \/ m = 2 \/ m = 3 \/ m = 4 \/ m = 5 \/ m = 6
              \/ m = 7 \/ m = 8 \/ m = 9 \/ m = 10 \/ m = 11) by lia.
  destruct Hl as [-> | ->];
    destruct K as [->|[->|[->|[->|[->|[->|[->|[->|[->|[->|[->| ->]]]]]]]]]]];
    eval_month_start;
    repeat match goal with
           | |- context [?a <? ?b] =>
               destruct (Z.ltb_spec a b); cbv beta iota; [lia|]
           end; lia.
Qed.

(** The fields of a day made from a year, a month and a day of that
    month are those three. *)
Lemma fields_of_MakeDay (t y m d : Z) :
  0 ≤ m ≤ 11 -> 1 ≤ d ≤ DaysInMonth y m -> Day t = MakeDay y m d ->
  YearFromTime t = y /\ MonthFromTime t = m /\ DateFromTime t = d.
Proof.
  intros Hm Hd Hday.
  assert (Hl : (if leap y then 1 else 0) = 0 \/ (if leap y then 1 else 0) = 1)
    by (destruct (leap y); auto).
  assert (Hend : month_start (if leap y then 1 else 0) (m + 1) ≤ DaysInYear y).
  { unfold DaysInYear.
    assert (K : m = 0 \/ m = 1 \/ m = 2 \/ m = 3 \/ m = 4 \/ m = 5 \/ m = 6
                \/ m = 7 \/ m = 8 \/ m = 9 \/ m = 10 \/ m = 11) by lia.
    destruct (leap y);
      destruct K as [->|[->|[->|[->|[->|[->|[->|[->|[->|[->|[->| ->]]]]]]]]]]];
      eval_month_start; lia. }
  assert (Hstart : 0 ≤ month_start (if leap y then 1 else 0) m).
  { assert (K : m = 0 \/ m = 1 \/ m = 2 \/ m = 3 \/ m = 4 \/ m = 5 \/ m = 6
                \/ m = 7 \/ m = 8 \/ m = 9 \/ m = 10 \/ m = 11) by lia.
    destruct (leap y);
      destruct K as [->|[->|[->|[->|[->|[->|[->|[->|[->|[->|[->| ->]]]]]]]]]]];
      eval_month_start; lia. }
  unfold DaysInMonth in Hd. unfold MakeDay in Hday.
  assert (Hy : YearFromTime t = y).
  { unfold YearFromTime. apply YearFromDay_unique. rewrite DayFromYear_succ. lia. }
  assert (Hmth : MonthFromTime t = m).
  { unfold MonthFromTime, InLeapYear, DayWithinYear. rewrite Hy.
    apply month_chain; [exact Hl|exact Hm|lia]. }
  split; [exact Hy|]. split; [exact Hmth|].
  unfold DateFromTime, InLeapYear, DayWithinYear. rewrite Hmth, Hy. lia.
Qed.

Lemma DaysInMonth_bounds (y m : Z) : 0 ≤ m ≤ 11 -> 28 ≤ DaysInMonth y m ≤ 31.
Proof.
  intros Hm. unfold DaysInMonth.
  assert (K : m = 0 \/ m = 1 \/ m = 2 \/ m = 3 \/ m = 4 \/ m = 5 \/ m = 6
              \/ m = 7 \/ m = 8 \/ m = 9 \/ m = 10 \/ m = 11) by lia.
  destruct (leap y);
    destruct K as [->|[->|[->|[->|[->|[->|[->|[->|[->|[->|[->| ->]]]]]]]]]]];
    eval_month_start; lia.
Qed.

Section DateClaims.

Variable other_formats : string -> number.

Lemma Date_parse_iso_date (t : Z) :
  in_range t = true ->
  Date_parse other_formats (iso_date t) = of_Z (Day t * msPerDay).
Proof.
  intros H. pose proof (YearFromTime_range t H) as Hy.
  destruct (calendar_fields t) as (Hm & Hd & Hday).
  assert (Hdim : DaysInMonth (YearFromTime t) (MonthFromTime t) ≤ 31).
  { unfold DaysInMonth. destruct (leap _);
      assert (K : MonthFromTime t = 0 \/ MonthFromTime t = 1 \/ MonthFromTime t = 2
               \/ MonthFromTime t = 3 \/ MonthFromTime t = 4 \/ MonthFromTime t = 5
               \/ MonthFromTime t = 6 \/ MonthFromTime t = 7 \/ MonthFromTime t = 8
               \/ MonthFromTime t = 9 \/ MonthFromTime t = 10 \/ MonthFromTime t = 11)
        by lia;
      destruct K as [->|[->|[->|[->|[->|[->|[->|[->|[->|[->|[->| ->]]]]]]]]]]];
      vm_compute; discriminate. }
  unfold Date_parse, iso_date.
  rewrite parse_iso_fields by lia.
  replace (MonthFromTime t + 1 - 1) with (MonthFromTime t) by lia.
  rewrite Hday.
  destruct (Z.leb_spec 1 (MonthFromTime t + 1)); [|lia].
  destruct (Z.leb_spec (MonthFromTime t + 1) 12); [|lia].
  destruct (Z.leb_spec 1 (DateFromTime t)); [|lia].
  destruct (Z.leb_spec (DateFromTime t)
              (DaysInMonth (YearFromTime t) (MonthFromTime t))); [|lia].
  reflexivity.
Qed.

Lemma toDate_Normal (x : DateInput) (d : Date) :
  toDate other_formats x = Normal d ->
  exists t, d = Some t /\ new_Date other_formats x = Some t.
Proof.
  unfold toDate. destruct (new_Date other_formats x) as [t|]; cbn.
  - intros [= <-]. eauto.
  - discriminate.
Qed.

Lemma new_Date_in_range (x : DateInput) (t : Z) :
  wf_input x -> new_Date other_formats x = Some t -> in_range t = true.
Proof.
  destruct x as [d|s|n]; cbn [new_Date wf_input].
  - intros H ->. exact H.
  - intros _. apply TimeClip_in_range.
  - intros _. apply TimeClip_in_range.
Qed.

Lemma toDate_in_range (x : DateInput) (t : Z) :
  wf_input x -> toDate other_formats x = Normal (Some t) -> in_range t = true.
Proof.
  intros Hwf Hx. destruct (toDate_Normal x _ Hx) as (t' & [= <-] & Hnew).
  now apply (new_Date_in_range x).
Qed.

Lemma toISODateString_Normal (x : DateInput) (s : string) :
  toISODateString other_formats x = Normal s ->
  exists t, new_Date other_formats x = Some t /\ s = iso_date t.
Proof.
  unfold toISODateString.
  destruct (toDate other_formats x) as [d|e] eqn:E; [|discriminate].
  apply toDate_Normal in E as (t & -> & E).
  cbn. rewrite ISO_date_part. intros [= <-]. eauto.
Qed.

Lemma toISODateString_iso_date (t : Z) :
  in_range t = true ->
  toISODateString other_formats (InString (iso_date t)) = Normal (iso_date t).
Proof.
  intros H. unfold toISODateString, toDate. cbn [new_Date].
  rewrite Date_parse_iso_date by exact H.
  rewrite TimeClip_of_Z by now apply midnight_in_range.
  cbn. now rewrite ISO_date_part, iso_date_Day.
Qed.

(** A date-only string in the form [toISOString] writes, naming a day of
    the calendar within the range of [Date], comes back unchanged. *)
Lemma toISODateString_canonical (y m d : Z) :
  1 ≤ m ≤ 12 -> 1 ≤ d ≤ DaysInMonth y (m - 1) ->
  in_range (MakeDay y (m - 1) d * msPerDay) = true ->
  toISODateString other_formats
    (InString (iso_year y +:+ "-" +:+ pad 2 m +:+ "-" +:+ pad 2 d))
  = Normal (iso_year y +:+ "-" +:+ pad 2 m +:+ "-" +:+ pad 2 d).
Proof.
  intros Hm Hd Hr.
  pose proof (DaysInMonth_bounds y (m - 1) ltac:(lia)) as Hdim.
  destruct (fields_of_MakeDay (MakeDay y (m - 1) d * msPerDay) y (m - 1) d)
    as (Ey & Em & Ed); [lia|exact Hd|apply Day_of_midnight|].
  pose proof (toISODateString_iso_date _ Hr) as H.
  unfold iso_date in H. rewrite Ey, Em, Ed in H.
  replace (m - 1 + 1) with m in H by lia. exact H.
Qed.

(** C8: for every input that [toDate] accepts, [toISODateString] returns
    the calendar date of the instant in UTC, written as year, month and
    day of the month ([YYYY-MM-DD] for the years 0 to 9999, which is ten
    characters); read as a date that string is midnight of the same day,
    and formatted again it comes back unchanged.  The same holds for every
    string of this form that names a day within the range of [Date],
    whatever the engine does with strings outside the date-only forms. *)
Theorem iso_date_roundtrip (x : DateInput) (t : Z) :
  wf_input x ->
  toDate other_formats x = Normal (Some t) ->
  toISODateString other_formats x = Normal (iso_date t) /\
  parse_date_only (iso_date t)
    = Some (YearFromTime t, MonthFromTime t + 1, DateFromTime t) /\
  (0 ≤ YearFromTime t ≤ 9999 -> String.length (iso_date t) = 10%nat) /\
  toDate other_formats (InString (iso_date t)) = Normal (Some (Day t * msPerDay)) /\
  toISODateString other_formats (InString (iso_date t)) = Normal (iso_date t) /\
  forall y m d,
    1 ≤ m ≤ 12 -> 1 ≤ d ≤ DaysInMonth y (m - 1) ->
    in_range (MakeDay y (m - 1) d * msPerDay) = true ->
    toISODateString other_formats
      (InString (iso_year y +:+ "-" +:+ pad 2 m +:+ "-" +:+ pad 2 d))
    = Normal (iso_year y +:+ "-" +:+ pad 2 m +:+ "-" +:+ pad 2 d).
Proof.
  intros Hwf Hx.
  destruct (toDate_Normal x _ Hx) as (t' & [= <-] & Hnew).
  pose proof (new_Date_in_range x t Hwf Hnew) as Hr.
  pose proof (YearFromTime_range t Hr) as Hy.
  destruct (calendar_fields t) as (Hm & Hd & _).
  pose proof (DaysInMonth_bounds (YearFromTime t) _ Hm) as Hdim.
  split; [|split; [|split; [|split; [|split]]]].
  - unfold toISODateString. rewrite Hx. cbn. now rewrite ISO_date_part.
  - unfold iso_date. apply parse_iso_fields; lia.
  - intros Hy4. unfold iso_date, iso_year.
    destruct (Z.leb_spec 0 (YearFromTime t)); [|lia].
    destruct (Z.leb_spec (YearFromTime t) 9999); [|lia]. reflexivity.
  - unfold toDate. cbn [new_Date]. rewrite Date_parse_iso_date by exact Hr.
    now rewrite TimeClip_of_Z by now apply midnight_in_range.
  - now apply toISODateString_iso_date.
  - apply toISODateString_canonical.
Qed.

Lemma diffTime_Normal (a b : DateInput) (unit : TimeUnit) (ta tb : Z) :
  toDate other_formats a = Normal (Some ta) ->
  toDate other_formats b = Normal (Some tb) ->
  diffTime other_formats a b unit
  = Normal (num_div (num_sub (of_Z ta) (of_Z tb)) (of_Z (msPerUnit unit))).
Proof. intros Ha Hb. unfold diffTime. now rewrite Ha, Hb. Qed.

Lemma msPerUnit_pos (unit : TimeUnit) : 0 < msPerUnit unit.
Proof. now destruct unit. Qed.

(** C9: [diffTime] is the difference of the two time values in
    milliseconds divided by the constant of the unit, in the arithmetic of
    doubles: when the difference is at most [2 ^ 53] in magnitude it is
    exact, and the result is the double nearest to the exact quotient; a
    difference that is a whole number of units gives exactly that number.
    A month counts as 30 days and a year as 365 days, and
    [diffTime("2025-01-18", "2025-01-15", "days")] is 3. *)
Theorem diffTime_fixed_units (a b : DateInput) (unit : TimeUnit) (ta tb : Z) :
  toDate other_formats a = Normal (Some ta) ->
  toDate other_formats b = Normal (Some tb) ->
  diffTime other_formats a b unit
    = Normal (num_div (num_sub (of_Z ta) (of_Z tb)) (of_Z (msPerUnit unit))) /\
  (Z.abs (ta - tb) <= 2 ^ 53 ->
   diffTime other_formats a b unit
   = Normal (round64 (inject_Z (ta - tb) / inject_Z (msPerUnit unit)))) /\
  (forall n, Z.abs (ta - tb) <= 2 ^ 53 -> ta - tb = n * msPerUnit unit ->
   diffTime other_formats a b unit = Normal (of_Z n)) /\
  msPerUnit months = 30 * msPerUnit days /\
  msPerUnit years = 365 * msPerUnit days /\
  diffTime other_formats (InString "2025-01-18") (InString "2025-01-15") days
    = Normal (of_Z 3).
Proof.
  intros Ha Hb. pose proof (msPerUnit_pos unit) as Hu.
  rewrite (diffTime_Normal a b unit ta tb Ha Hb).
  split; [reflexivity|]. split; [|split; [|split; [reflexivity|split; [reflexivity|]]]].
  - intros Hd. rewrite num_sub_Z by exact Hd. unfold of_Z at 1.
    now rewrite num_div_pos.
  - intros n Hd Hn. rewrite num_sub_Z by exact Hd. f_equal.
    apply num_div_Z; [exact Hu|exact Hn|]. nia.
  - rewrite (diffTime_Normal _ _ days 1737158400000 1736899200000)
      by (vm_compute; reflexivity).
    rewrite num_sub_Z by (vm_compute; discriminate).
    now rewrite (num_div_Z _ 3) by (reflexivity || (vm_compute; discriminate)).
Qed.

End DateClaims.

Lemma iso_date_roundtrip_witness :
  toISODateString (fun _ => NaN) (InDate (Some 1736942400123)) = Normal "2025-01-15"%string /\
  parse_date_only "2025-01-15" = Some (2025, 1, 15) /\
  toDate (fun _ => NaN) (InString "2025-01-15") = Normal (Some 1736899200000) /\
  toISODateString (fun _ => NaN) (InString "2025-01-15") = Normal "2025-01-15"%string /\
  toISODateString (fun _ => NaN) (InString "-000044-03-15") = Normal "-000044-03-15"%string.
Proof.
  destruct (iso_date_roundtrip (fun _ => NaN) (InDate (Some 1736942400123)) 1736942400123)
    as (A & B & _ & C & D & E); [reflexivity|reflexivity|].
  split; [exact A|]. split; [exact B|]. split; [exact C|]. split; [exact D|].
  apply (E (-44) 3 15); [lia|vm_compute; split; discriminate|reflexivity].
Defined.

(** Six weeks and three days are 6.428571428571429 weeks, the double
    nearest to 45/7; one week is 1. *)
Lemma diffTime_fixed_units_witness :
  diffTime (fun _ => NaN) (InString "2025-03-01") (InString "2025-01-15") weeks
    = Normal (Num (3618963986279863 # 562949953421312)) /\
  diffTime (fun _ => NaN) (InString "2025-01-22") (InString "2025-01-15") weeks
    = Normal (of_Z 1).
Proof.
  split.
  - destruct (diffTime_fixed_units (fun _ => NaN) (InString "2025-03-01")
                (InString "2025-01-15") weeks 1740787200000 1736899200000)
      as (_ & H & _); [reflexivity|reflexivity|].
    rewrite H by (vm_compute; discriminate). vm_compute. reflexivity.
  - destruct (diffTime_fixed_units (fun _ => NaN) (InString "2025-01-22")
                (InString "2025-01-15") weeks 1737504000000 1736899200000)
      as (_ & _ & H & _); [reflexivity|reflexivity|].
    apply (H 1); [vm_compute; discriminate|reflexivity].
Defined.

(** ** The notification manager: further properties *)

Section ToastMore.

Implicit Types (w : World) (t : Toast) (i : string) (evs : list event).

Lemma run_now evs w : now w ≤ now (run evs w).
Proof.
  revert w. induction evs as [|ev evs IH]; intros w; [reflexivity|].
  rewrite run_cons. etransitivity; [apply step_now|apply IH].
Qed.

Lemma fire_in_sync due w :
  toasts w = default [] (last (published w)) ->
  toasts (fire due w).2 = default [] (last (published (fire due w).2)).
Proof.
  revert w. induction due as [|tm due IH]; intros w H; [exact H|].
  cbn [fire]. unfold mbind, M_bind. rewrite dismiss_eq. apply IH.
  cbn [toasts published]. now rewrite last_snoc.
Qed.

Lemma fire_empty due w :
  toasts w = [] ->
  toasts (fire due w).2 = [] /\
  published (fire due w).2 = published w ++ replicate (length due) [].
Proof.
  revert w. induction due as [|tm due IH]; intros w H.
  - cbn. now rewrite app_nil_r.
  - cbn [fire]. unfold mbind, M_bind. rewrite dismiss_eq.
    destruct (IH {| now := now w; random := random w; draws := draws w;
                    toasts := filter (fun t => id t ≠ tm.2) (toasts w);
                    published := published w ++ [filter (fun t => id t ≠ tm.2) (toasts w)];
                    timers := timers w |}) as [A B].
    { cbn [toasts]. now rewrite H. }
    split; [exact A|]. rewrite B. cbn [published length replicate].
    rewrite H. cbn. now rewrite <- app_assoc.
Qed.

Lemma fire_published_length due w :
  length (published (fire due w).2) = (length (published w) + length due)%nat.
Proof.
  revert w. induction due as [|tm due IH]; intros w.
  - cbn. lia.
  - cbn [fire]. unfold mbind, M_bind. rewrite dismiss_eq, IH.
    cbn [published length]. rewrite length_app. cbn. lia.
Qed.

Lemma step_in_sync w ev :
  toasts w = default [] (last (published w)) ->
  toasts (step w ev) = default [] (last (published (step w ev))).
Proof.
  intros H. destruct ev as [m ty d|j| |dt]; cbn [step].
  - rewrite show_eq. cbn [snd toasts published]. now rewrite last_snoc.
  - rewrite dismiss_eq. cbn [snd toasts published]. now rewrite last_snoc.
  - rewrite dismissAll_eq. cbn [snd toasts published]. now rewrite last_snoc.
  - unfold elapse. now apply fire_in_sync.
Qed.

(** X1: in every state a fresh service can reach, the active set is what
    observers were sent last (and it is empty while nothing was sent). *)
Theorem observers_hold_active_set (t0 : Z) (rnd : nat -> string) evs :
  toasts (run evs (init t0 rnd))
  = default [] (last (published (run evs (init t0 rnd)))).
Proof.
  assert (H : toasts (init t0 rnd) = default [] (last (published (init t0 rnd))))
    by reflexivity.
  revert H. generalize (init t0 rnd). induction evs as [|ev evs IH]; intros w H.
  - exact H.
  - rewrite run_cons. apply IH. now apply step_in_sync.
Qed.

(** X2: [dismiss] removes exactly the notifications that carry the id, all
    of them, and keeps the others in their order; for an id that no active
    notification carries the active set is left as it is, otherwise it
    gets shorter. *)
Theorem dismiss_only_that_id w i :
  Forall (fun t => id t ≠ i) (toasts (dismiss i w).2) /\
  Forall (fun t => id t = i \/ t ∈ toasts (dismiss i w).2) (toasts w) /\
  toasts (dismiss i w).2 `sublist_of` toasts w /\
  (if decide (i ∈ id <$> toasts w)
   then (length (toasts (dismiss i w).2) < length (toasts w))%nat
   else toasts (dismiss i w).2 = toasts w).
Proof.
  rewrite dismiss_eq. cbn [snd toasts]. repeat split.
  - apply Forall_forall. intros t Ht. now apply list_elem_of_filter in Ht as [H _].
  - apply Forall_forall. intros t Ht.
    destruct (decide (id t = i)) as [E|E]; [now left|right].
    now apply list_elem_of_filter.
  - apply sublist_filter.
  - destruct (decide _) as [Hin|Hout].
    + apply list_elem_of_fmap in Hin as (t & -> & Ht).
      apply (length_filter_lt _ _ t); [exact Ht|]. intros H. now apply H.
    + induction (toasts w) as [|t l IH]; [reflexivity|].
      rewrite fmap_cons, not_elem_of_cons in Hout. destruct Hout as [Hne Hout].
      rewrite filter_cons_True by congruence. f_equal. now apply IH.
Qed.

(** X3: [dismissAll] clears the active set but cancels no timer: the
    queue is left as it was, and every timer that comes due afterwards
    still runs its [dismiss], which finds nothing to remove and publishes
    one more empty list. *)
Theorem dismissAll_keeps_timers w (dt : N) :
  let w1 := (dismissAll w).2 in
  let w2 := (elapse dt w1).2 in
  toasts w1 = [] /\
  timers w1 = timers w /\
  toasts w2 = [] /\
  published w2 = published w ++ [] :: replicate (length (due_after dt w)) [].
Proof.
  cbv zeta. rewrite dismissAll_eq. cbn [snd toasts timers].
  split; [reflexivity|]. split; [reflexivity|].
  unfold elapse. cbn [now timers toasts published random draws].
  match goal with
  | |- context [fire ?due ?w'] => destruct (fire_empty due w' eq_refl) as [A B]
  end.
  split; [exact A|]. rewrite B. cbn [published]. unfold due_after.
  now rewrite <- app_assoc.
Qed.

(** X4: when time passes, one update is published for each timer that
    comes due, whether or not its notification is still active, and those
    timers leave the queue. *)
Theorem elapse_publishes_per_timer w (dt : N) :
  length (published (elapse dt w).2)
    = (length (published w) + length (due_after dt w))%nat /\
  timers (elapse dt w).2 = filter (fun tm => now w + Z.of_N dt < tm.1) (timers w) /\
  toasts (elapse dt w).2 `sublist_of` toasts w.
Proof.
  split; [|split].
  - unfold elapse. now rewrite fire_published_length.
  - apply elapse_timers.
  - unfold elapse, due_after. generalize (filter (fun tm => tm.1 ≤ now w + Z.of_N dt) (timers w)).
    intros due.
    set (w' := {| now := now w + Z.of_N dt; random := random w; draws := draws w;
                  toasts := toasts w; published := published w;
                  timers := filter (fun tm => now w + Z.of_N dt < tm.1) (timers w) |}).
    change (toasts w) with (toasts w'). generalize w'. clear w'.
    induction due as [|tm due IH]; intros w'; [reflexivity|].
    cbn [fire]. unfold mbind, M_bind. rewrite dismiss_eq.
    etransitivity; [apply IH|]. cbn [toasts]. apply sublist_filter.
Qed.

(** X5: every notification whose resolved lifetime is positive expires:
    whatever happens after the [show], once the lifetime has passed no
    active notification carries the generated id.  Without an explicit
    lifetime this is the default of the category. *)
Theorem positive_lifetime_expires w message type (d : option Z) evs :
  (0 < default (DEFAULT_DURATION type) d ->
   now w + default (DEFAULT_DURATION type) d ≤ now (run evs (show message type d w).2) ->
   Forall (fun t => id t ≠ next_id w) (toasts (run evs (show message type d w).2))) /\
  (now w + DEFAULT_DURATION type ≤ now (run evs (show message type None w).2) ->
   Forall (fun t => id t ≠ next_id w) (toasts (run evs (show message type None w).2))).
Proof.
  split.
  - intros Hpos Hlate. apply Forall_forall. intros t Ht.
    now apply (show_expires w message type d evs).
  - intros Hlate. apply Forall_forall. intros t Ht.
    apply (show_expires w message type None evs); [|exact Hlate|exact Ht].
    destruct type; cbn; lia.
Qed.

Lemma positive_lifetime_expires_witness :
  Forall (fun t => id t ≠ next_id demo)
    (toasts (run [CallShow "Sent" Success None; Elapse 2500]
               (show "Saved" Warning (Some 2500) demo).2)) /\
  Forall (fun t => id t ≠ next_id demo)
    (toasts (run [Elapse 7000; CallShow "Sent" Success None; Elapse 1000]
               (show "Failed" Error None demo).2)).
Proof.
  split.
  - apply (proj1 (positive_lifetime_expires demo "Saved" Warning (Some 2500)
                    [CallShow "Sent" Success None; Elapse 2500]));
      vm_compute; [reflexivity|discriminate].
  - apply (proj2 (positive_lifetime_expires demo "Failed" Error (Some 1)
                    [Elapse 7000; CallShow "Sent" Success None; Elapse 1000])).
    vm_compute. discriminate.
Defined.

(** While only time passes, a notification whose timer is the only one
    carrying its id stays as long as that timer is not due. *)
Lemma waiting_stays i (T : Z) t (dts : list N) w :
  t ∈ toasts w -> id t = i ->
  Forall (fun tm => tm.2 = i -> tm.1 = T) (timers w) ->
  now (run (Elapse <$> dts) w) < T ->
  t ∈ toasts (run (Elapse <$> dts) w).
Proof.
  intros Hin Hid. revert w Hin.
  induction dts as [|dt dts IH]; intros w Hin Hown Hearly; [exact Hin|].
  cbn [fmap list_fmap] in *. rewrite run_cons in *. cbn [step] in *.
  pose proof (run_now (Elapse <$> dts) (elapse dt w).2) as Hmono.
  rewrite elapse_now in Hmono.
  apply IH; [| |exact Hearly].
  - apply elem_of_elapse. split; [exact Hin|]. intros tm Htm Hdue E.
    rewrite Forall_forall in Hown. specialize (Hown tm Htm). rewrite Hid in E.
    symmetry in E. specialize (Hown E). lia.
  - rewrite elapse_timers. apply Forall_forall. intros tm Htm.
    apply list_elem_of_filter in Htm as [_ Htm].
    rewrite Forall_forall in Hown. now apply Hown.
Qed.

(** X6: a notification is not removed early.  Unless a timer pending at
    its creation carries its id, a notification with a positive resolved
    lifetime that fits the 32-bit delay of the host timer is still active
    at every moment before that lifetime has passed, as long as only time
    passes. *)
Theorem positive_lifetime_not_early w message type (d : option Z) (dts : list N) :
  let life := default (DEFAULT_DURATION type) d in
  let w1 := (show message type d w).2 in
  0 < life ≤ 2147483647 ->
  targets (next_id w) w = false ->
  now (run (Elapse <$> dts) w1) < now w + life ->
  new_toast w message type d ∈ toasts (run (Elapse <$> dts) w1).
Proof.
  intros life w1 [Hpos Hfits] Hfree Hearly.
  apply (waiting_stays (next_id w) (now w + life) (new_toast w message type d) dts w1);
    [|reflexivity| |exact Hearly].
  - subst w1. rewrite show_eq. cbn [snd toasts]. apply elem_of_app. right.
    apply list_elem_of_singleton. reflexivity.
  - subst w1. rewrite show_eq. cbn [snd timers]. fold life.
    rewrite (timer_delay_fits life Hfits).
    apply Z.ltb_lt in Hpos. rewrite Hpos. apply Forall_forall.
    intros tm Htm E. apply elem_of_schedule in Htm as [->|Htm]; [reflexivity|].
    exfalso. unfold targets in Hfree.
    assert (X : existsb (fun tm => String.eqb tm.2 (next_id w)) (timers w) = true).
    { apply existsb_exists. exists tm. split; [now apply list_elem_of_In|].
      now apply String.eqb_eq. }
    congruence.
Qed.

Lemma positive_lifetime_not_early_witness :
  new_toast demo "Saved" Success None
    ∈ toasts (run (Elapse <$> [1500; 2499]%N) (show "Saved" Success None demo).2).
Proof.
  apply (positive_lifetime_not_early demo "Saved" Success None [1500; 2499]%N);
    [cbn; lia|reflexivity|vm_compute; reflexivity].
Defined.

(** A lifetime beyond the 32-bit delay is cut short by the host: shown
    with 2147483648 ms, a notification is gone one millisecond later. *)
Lemma long_lifetime_removed_at_once :
  let w1 := run [CallShow "Saved" Success (Some 2147483648)] demo in
  duration <$> toasts w1 = [2147483648] /\
  timers w1 = [(1736899200124, "toast-1736899200123-4fzyo"%string)] /\
  toasts (run [Elapse 1] w1) = [].
Proof. repeat split; vm_compute; reflexivity. Qed.

(** X25: a notification whose lifetime is given as zero or negative gets
    no timer: [show] leaves the queue as it was.  Unless a timer pending
    at its creation carries its id, no passage of time removes it; more
    generally it stays in the active set over every trace of later events
    in which nothing dismisses its id and [dismissAll] is not called. *)
Theorem nonpositive_lifetime_persists w message type (d : Z) (dts : list N) evs :
  d ≤ 0 ->
  let toast := new_toast w message type (Some d) in
  let w1 := (show message type (Some d) w).2 in
  duration toast = d /\
  timers w1 = timers w /\
  (targets (id toast) w = false -> toast ∈ toasts (run (Elapse <$> dts) w1)) /\
  (undisturbed (id toast) evs w1 = true -> toast ∈ toasts (run evs w1)).
Proof.
  intros Hd toast w1.
  assert (Ht : timers w1 = timers w) by (now apply show_timers_nonpositive).
  assert (Hin : toast ∈ toasts w1).
  { subst w1. rewrite show_eq. cbn [snd toasts]. apply elem_of_app. right.
    apply list_elem_of_singleton. reflexivity. }
  split; [reflexivity|]. split; [exact Ht|]. split.
  - intros Hfree. apply (undisturbed_stays (id toast)); [exact Hin|reflexivity|].
    apply idle_undisturbed. unfold targets in *. now rewrite Ht.
  - intros Hund. now apply (undisturbed_stays (id toast)).
Qed.

Lemma nonpositive_lifetime_persists_witness :
  new_toast demo "Pinned" Info (Some 0)
    ∈ toasts (run (Elapse <$> [60000; 86400000]%N) (show "Pinned" Info (Some 0) demo).2) /\
  new_toast demo "Offline" Warning (Some (-5))
    ∈ toasts (run [CallShow "Sent" Success None; Elapse 86400000; CallDismiss "toast-1"]
                (show "Offline" Warning (Some (-5)) demo).2).
Proof.
  split.
  - apply (nonpositive_lifetime_persists demo "Pinned" Info 0 [60000; 86400000]%N []);
      [lia|reflexivity].
  - apply (nonpositive_lifetime_persists demo "Offline" Warning (-5) []
             [CallShow "Sent" Success None; Elapse 86400000; CallDismiss "toast-1"]);
      [lia|vm_compute; reflexivity].
Defined.

(** No active notification bears the current clock reading, or, once a
    [show] was made at this reading, a later one. *)
Lemma spaced_step (shown : bool) ev w :
  NoDup (id <$> toasts w) ->
  (forall t w', t ∈ toasts w -> id t = next_id w' ->
     now w' < now w \/ (shown = true /\ now w' = now w)) ->
  spaced shown [ev] = true ->
  NoDup (id <$> toasts (step w ev)) /\
  forall t w', t ∈ toasts (step w ev) -> id t = next_id w' ->
    now w' < now (step w ev)
    \/ (match ev with
        | CallShow _ _ _ => true
        | Elapse dt => shown && (dt =? 0)%N
        | _ => shown
        end = true /\ now w' = now (step w ev)).
Proof.
  intros Hnd Hold Hsp. split.
  - apply step_NoDup_ids; [exact Hnd|]. intros m ty d ->.
    cbn in Hsp. rewrite andb_true_r in Hsp. apply negb_true_iff in Hsp. subst shown.
    intros Hin. apply list_elem_of_fmap in Hin as (t & E & Ht).
    destruct (Hold t w Ht (eq_sym E)) as [H|[H _]]; [lia|discriminate].
  - destruct ev as [m ty d|j| |dt]; cbn [step].
    + rewrite show_eq. cbn [snd toasts now]. intros t w' Ht E.
      cbn in Hsp. rewrite andb_true_r in Hsp. apply negb_true_iff in Hsp. subst shown.
      apply elem_of_app in Ht as [Ht|Ht].
      * destruct (Hold t w' Ht E) as [H|[H _]]; [now left|discriminate].
      * apply list_elem_of_singleton in Ht. subst t. cbn [new_toast id] in E.
        right. split; [reflexivity|]. symmetry. now apply next_id_now.
    + rewrite dismiss_eq. cbn [snd toasts now]. intros t w' Ht E.
      apply list_elem_of_filter in Ht as [_ Ht]. exact (Hold t w' Ht E).
    + rewrite dismissAll_eq. cbn [snd toasts now]. intros t w' Ht. inversion Ht.
    + rewrite elapse_now. intros t w' Ht E.
      apply elem_of_elapse in Ht as [Ht _].
      destruct (N.eqb_spec dt 0) as [->|Hdt].
      * rewrite andb_true_r. destruct (Hold t w' Ht E) as [H|[H1 H2]].
        -- left. lia.
        -- right. split; [exact H1|]. lia.
      * left. destruct (Hold t w' Ht E) as [H|[_ H]]; lia.
Qed.

(** X7: as long as no two [show] calls are made at the same clock
    reading, the ids of the active set are distinct in every state a fresh
    service reaches. *)
Theorem spaced_shows_distinct_ids (t0 : Z) (rnd : nat -> string) evs :
  spaced false evs = true ->
  NoDup (id <$> toasts (run evs (init t0 rnd))).
Proof.
  assert (H : NoDup (id <$> toasts (init t0 rnd)) /\
              forall t w', t ∈ toasts (init t0 rnd) -> id t = next_id w' ->
                now w' < now (init t0 rnd) \/ (false = true /\ now w' = now (init t0 rnd))).
  { split; [apply NoDup_nil_2|]. intros t w' Ht. inversion Ht. }
  revert H. generalize (init t0 rnd). generalize false.
  induction evs as [|ev evs IH]; intros shown w [Hnd Hold] Hsp; [exact Hnd|].
  rewrite run_cons.
  assert (Hev : spaced shown [ev] = true /\
                spaced (match ev with
                        | CallShow _ _ _ => true
                        | Elapse dt => shown && (dt =? 0)%N
                        | _ => shown
                        end) evs = true).
  { destruct ev as [m ty d|j| |dt]; cbn [spaced] in *; auto.
    apply andb_prop in Hsp as [-> Hsp]. auto. }
  destruct Hev as [Hev Hrest].
  eapply IH; [|exact Hrest].
  now apply spaced_step.
Qed.

Lemma spaced_shows_distinct_ids_witness :
  NoDup (id <$> toasts (run [CallShow "Saved" Success None; Elapse 1;
                             CallShow "Deleted" Info None; CallDismiss "toast-1";
                             Elapse 0; Elapse 3; CallShow "Sent" Success (Some 0)]
                          unlucky)).
Proof.
  apply (spaced_shows_distinct_ids 1736899200123
           (fun k => match k with
                     | O => "0.4fzyo82mvyr"%string
                     | _ => "0.4fzyo1c77zq"%string
                     end)).
  reflexivity.
Defined.

End ToastMore.

(** ** The date utilities: further properties *)

Lemma time_fields (t : Z) :
  Day t * msPerDay + (HourFromTime t * msPerHour + MinFromTime t * msPerMinute
                      + SecFromTime t * msPerSecond + msFromTime t) = t.
Proof.
  unfold Day, HourFromTime, MinFromTime, SecFromTime, msFromTime,
    msPerDay, msPerHour, msPerMinute, msPerSecond.
  Z.div_mod_to_equations. lia.
Qed.

Lemma day_time (t : Z) : Day t * msPerDay + TimeWithinDay t = t.
Proof.
  unfold Day, TimeWithinDay, msPerDay. Z.div_mod_to_equations. lia.
Qed.

Lemma MakeDay_date (y m d n : Z) : MakeDay y m (d + n) = MakeDay y m d + n.
Proof. unfold MakeDay. lia. Qed.

Lemma month_in_year (m : Z) : 0 ≤ m ≤ 11 -> m / 12 = 0 /\ m mod 12 = m.
Proof. intros H. split; [apply Z.div_small|apply Z.mod_small]; lia. Qed.

Lemma Day_local (d w : Z) : 0 ≤ w < msPerDay -> Day (d * msPerDay + w) = d.
Proof. unfold Day, msPerDay. intros H. Z.div_mod_to_equations. lia. Qed.

Lemma TimeWithinDay_local (d w : Z) :
  0 ≤ w < msPerDay -> TimeWithinDay (d * msPerDay + w) = w.
Proof. unfold TimeWithinDay, msPerDay. intros H. Z.div_mod_to_equations. lia. Qed.

Lemma TimeWithinDay_bounds (t : Z) : 0 ≤ TimeWithinDay t < msPerDay.
Proof. unfold TimeWithinDay, msPerDay. apply Z.mod_pos_bound. lia. Qed.

(** Day [dim + e] of a month is day [e] of the month that follows. *)
Lemma MakeDay_overflow (y m e : Z) :
  0 ≤ m ≤ 11 ->
  MakeDay y m (DaysInMonth y m + e)
  = MakeDay (y + (m + 1) / 12) ((m + 1) mod 12) e.
Proof.
  intros Hm. unfold MakeDay, DaysInMonth.
  assert (K : m = 0 \/ m = 1 \/ m = 2 \/ m = 3 \/ m = 4 \/ m = 5 \/ m = 6
              \/ m = 7 \/ m = 8 \/ m = 9 \/ m = 10 \/ m = 11) by lia.
  destruct K as [->|[->|[->|[->|[->|[->|[->|[->|[->|[->|[->| ->]]]]]]]]]]];
    match goal with
    | |- context [(?a + 1) / 12] =>
        let v := eval vm_compute in ((a + 1) / 12) in
        change ((a + 1) / 12) with v;
        let v' := eval vm_compute in ((a + 1) mod 12) in
        change ((a + 1) mod 12) with v'
    end; rewrite ?Z.add_0_r.
  12: { rewrite DayFromYear_succ. unfold DaysInYear.
        destruct (leap y), (leap (y + 1)); eval_month_start; lia. }
  all: destruct (leap y); eval_month_start; lia.
Qed.

Lemma Qtrunc_Qeq (p q : Q) : (p == q)%Q -> Qtrunc p = Qtrunc q.
Proof.
  unfold Qeq, Qtrunc. intros H.
  transitivity ((Qnum p * Z.pos (Qden q)) ÷ (Z.pos (Qden p) * Z.pos (Qden q))).
  - symmetry. apply Z.quot_mul_cancel_r; discriminate.
  - rewrite H, (Z.mul_comm (Qnum q)). apply Z.quot_mul_cancel_l; discriminate.
Qed.

Lemma num_eqb_of_Z (a b : Z) : num_eqb (of_Z a) (of_Z b) = (a =? b).
Proof. cbn. unfold Qeq_bool. cbn. now rewrite !Z.mul_1_r. Qed.

(** The remainder of an integer by a positive constant is zero exactly
    when the divisor divides it. *)
Lemma num_rem_zero (q : Q) (n d : Z) :
  (q == inject_Z n)%Q -> 0 < d ->
  num_eqb (num_rem (Num q) d) (of_Z 0) = (n mod d =? 0).
Proof.
  intros Hq Hd. cbn [num_rem num_eqb of_Z].
  assert (Ht : Qtrunc (q / inject_Z d) = n ÷ d).
  { rewrite (Qtrunc_Qeq _ (inject_Z n / inject_Z d)) by now rewrite Hq.
    destruct d as [|d|d]; try lia. unfold Qtrunc. cbn. now rewrite Z.mul_1_r. }
  rewrite Ht.
  assert (Hr : (q - inject_Z d * inject_Z (n ÷ d) == inject_Z (Z.rem n d))%Q).
  { rewrite Hq. unfold Qminus.
    rewrite <- inject_Z_mult, <- inject_Z_opp, <- inject_Z_plus.
    pose proof (Z.quot_rem' n d). unfold Qeq. cbn. lia. }
  destruct (Z.eqb_spec (n mod d) 0) as [E|E].
  - apply Qeq_bool_iff. rewrite Hr.
    assert (Z.rem n d = 0)
      by (apply Z.rem_divide; [lia|]; apply Z.mod_divide; [lia|exact E]).
    unfold Qeq. cbn. lia.
  - apply not_true_is_false. intros H. apply Qeq_bool_iff in H. rewrite Hr in H.
    assert (H' : Z.rem n d = 0) by (unfold Qeq in H; cbn in H; lia).
    apply E. apply Z.mod_divide; [lia|]. apply Z.rem_divide; [lia|exact H'].
Qed.

(** [isLeapYear] on an integer is the leap-year rule of the calendar, for
    negative years as well. *)
Lemma isLeapYear_integer (q : Q) (n : Z) :
  (q == inject_Z n)%Q -> isLeapYear (Num q) = leap n.
Proof.
  intros Hq. unfold isLeapYear, leap.
  now rewrite !(num_rem_zero q n) by (exact Hq || lia).
Qed.

Lemma num_rem_integral (q : Q) (d : Z) :
  0 < d -> num_eqb (num_rem (Num q) d) (of_Z 0) = true ->
  exists n, (q == inject_Z n)%Q.
Proof.
  intros Hd H. cbn [num_rem num_eqb of_Z] in H. apply Qeq_bool_iff in H.
  exists (d * Qtrunc (q / inject_Z d)). rewrite inject_Z_mult.
  rewrite <- (Qplus_0_r (inject_Z d * _)), <- H. ring.
Qed.

(** X13: on an integer [isLeapYear] is the leap-year rule of the calendar
    that [Date] uses (a leap year has 366 days), for negative years as
    well, and it repeats every 400 years. *)
Theorem isLeapYear_rule (q : Q) (n : Z) :
  (q == inject_Z n)%Q ->
  isLeapYear (Num q) = leap n /\
  DaysInYear n = (if isLeapYear (Num q) then 366 else 365) /\
  isLeapYear (of_Z (n + 400)) = isLeapYear (Num q).
Proof.
  intros Hq. rewrite (isLeapYear_integer q n Hq). split; [reflexivity|].
  split; [reflexivity|].
  unfold of_Z. rewrite (isLeapYear_integer _ (n + 400)) by reflexivity.
  unfold leap.
  replace ((n + 400) mod 4) with (n mod 4) by (Z.div_mod_to_equations; lia).
  replace ((n + 400) mod 100) with (n mod 100) by (Z.div_mod_to_equations; lia).
  replace ((n + 400) mod 400) with (n mod 400) by (Z.div_mod_to_equations; lia).
  reflexivity.
Qed.

(** X14: only integers are leap years: for NaN, the infinities and
    numbers with a fractional part [isLeapYear] is false. *)
Theorem isLeapYear_needs_integer (x : number) :
  isLeapYear x = true -> exists q n, x = Num q /\ (q == inject_Z n)%Q.
Proof.
  intros H. destruct x as [| |q]; try discriminate.
  assert (Hn : exists n, (q == inject_Z n)%Q).
  { unfold isLeapYear in H. apply orb_prop in H as [H|H].
    - apply andb_prop in H as [H _]. now apply (num_rem_integral q 4).
    - now apply (num_rem_integral q 400). }
  destruct Hn as [n Hn]. now exists q, n.
Qed.

Lemma num_ltb_of_Z (a b : Z) : num_ltb (of_Z a) (of_Z b) = (a <? b).
Proof.
  cbn. unfold Qle_bool. cbn. rewrite !Z.mul_1_r. symmetry. apply Z.ltb_antisym.
Qed.

Lemma num_leb_of_Z (a b : Z) : num_leb (of_Z a) (of_Z b) = (a <=? b).
Proof. cbn. unfold Qle_bool. cbn. now rewrite !Z.mul_1_r. Qed.

Lemma fields_same_day (t1 t2 : Z) :
  (YearFromTime t1 =? YearFromTime t2)
  && (MonthFromTime t1 =? MonthFromTime t2)
  && (DateFromTime t1 =? DateFromTime t2)
  = (Day t1 =? Day t2).
Proof.
  destruct (Z.eqb_spec (Day t1) (Day t2)) as [E|E].
  - unfold DateFromTime, MonthFromTime, InLeapYear, DayWithinYear, YearFromTime.
    rewrite E, !Z.eqb_refl. reflexivity.
  - apply not_true_is_false. intros H.
    apply andb_prop in H as [H H3]. apply andb_prop in H as [H1 H2].
    apply Z.eqb_eq in H1, H2, H3. apply E.
    destruct (calendar_fields t1) as (_ & _ & <-).
    destruct (calendar_fields t2) as (_ & _ & <-). congruence.
Qed.

(** Days with the same ISO date are the same day. *)
Lemma iso_date_inj (t1 t2 : Z) :
  in_range t1 = true -> in_range t2 = true ->
  iso_date t1 = iso_date t2 -> Day t1 = Day t2.
Proof.
  intros H1 H2 E.
  pose proof (Date_parse_iso_date (fun _ => NaN) t1 H1) as P1.
  pose proof (Date_parse_iso_date (fun _ => NaN) t2 H2) as P2.
  rewrite E, P2 in P1. injection P1 as P1.
  unfold msPerDay in P1. lia.
Qed.

Lemma bind_Some {A B : Type} (f : A -> option B) (x : A) : (Some x ≫= f) = f x.
Proof. reflexivity. Qed.

Lemma time_field_bounds (t : Z) :
  0 ≤ HourFromTime t < 24 /\ 0 ≤ MinFromTime t < 60 /\
  0 ≤ SecFromTime t < 60 /\ 0 ≤ msFromTime t < 1000.
Proof.
  unfold HourFromTime, MinFromTime, SecFromTime, msFromTime, msPerSecond.
  repeat split; apply Z.mod_pos_bound; lia.
Qed.

Lemma in_range_bounds (t : Z) : in_range t = true -> - maxTime ≤ t ≤ maxTime.
Proof.
  unfold in_range. intros H. apply andb_prop in H as [H1 H2].
  apply Z.leb_le in H1, H2. lia.
Qed.

Lemma YearFromTime_bound (t : Z) :
  Z.abs t ≤ 2 ^ 53 -> -290000 ≤ YearFromTime t ≤ 290000.
Proof.
  change (2 ^ 53) with 9007199254740992. intros H. unfold YearFromTime.
  pose proof (YearFromDay_spec (Day t)) as Hy.
  assert (Hd : -104249992 ≤ Day t ≤ 104249992)
    by (unfold Day, msPerDay; Z.div_mod_to_equations; lia).
  set (y := YearFromDay (Day t)) in *. clearbody y.
  unfold DayFromYear in Hy. Z.div_mod_to_equations. lia.
Qed.

(** Far from the epoch the day number of a year is beyond every time
    value. *)
Lemma DayFromYear_far (y : Z) :
  (100000000000000 ≤ y -> 2 ^ 54 ≤ DayFromYear y) /\
  (y ≤ -100000000000000 -> DayFromYear y ≤ - 2 ^ 54).
Proof.
  change (2 ^ 54) with 18014398509481984.
  unfold DayFromYear. split; intros H; Z.div_mod_to_equations; lia.
Qed.

Lemma month_start_bounds (l m : Z) :
  l = 0 \/ l = 1 -> 0 ≤ m ≤ 11 -> 0 ≤ month_start l m ≤ 335.
Proof.
  intros Hl Hm.
  assert (K : m = 0 \/ m = 1 \/ m = 2 \/ m = 3 \/ m = 4 \/ m = 5 \/ m = 6
              \/ m = 7 \/ m = 8 \/ m = 9 \/ m = 10 \/ m = 11) by lia.
  destruct Hl as [-> | ->];
    destruct K as [->|[->|[->|[->|[->|[->|[->|[->|[->|[->|[->| ->]]]]]]]]]]];
    eval_month_start; lia.
Qed.

Ltac bound :=
  unfold msPerUnit, maxTime, msPerDay, msPerHour, msPerMinute, msPerSecond in *;
  change (2 ^ 53) with 9007199254740992 in *; lia.

(** While all values stay below [2 ^ 53] the composition of a time value
    is exact. *)
Lemma MakeTime_small (hour min sec ms : number) (h m s milli : Z) :
  to_integer hour = Some h -> to_integer min = Some m ->
  to_integer sec = Some s -> to_integer ms = Some milli ->
  Z.abs (h * msPerHour) + Z.abs (m * msPerMinute) + Z.abs (s * msPerSecond)
    + Z.abs milli ≤ 2 ^ 53 ->
  MakeTime hour min sec ms
  = Some (h * msPerHour + m * msPerMinute + s * msPerSecond + milli).
Proof.
  intros Hh Hm Hs Hms H. unfold MakeTime. rewrite Hh, Hm, Hs, Hms.
  rewrite ?bind_Some.
  rewrite (fl_small (h * msPerHour)) by bound. rewrite ?bind_Some.
  rewrite (fl_small (m * msPerMinute)) by bound. rewrite ?bind_Some.
  rewrite (fl_small (h * msPerHour + m * msPerMinute)) by bound. rewrite ?bind_Some.
  rewrite (fl_small (s * msPerSecond)) by bound. rewrite ?bind_Some.
  rewrite (fl_small (h * msPerHour + m * msPerMinute + s * msPerSecond)) by bound.
  rewrite ?bind_Some. apply fl_small. bound.
Qed.

Lemma MakeDay_of_small (year month date : number) (y m dt : Z) :
  to_integer year = Some y -> to_integer month = Some m ->
  to_integer date = Some dt ->
  Z.abs y + Z.abs (m / 12) ≤ 2 ^ 53 ->
  Z.abs (MakeDay (y + m / 12) (m mod 12) 1) + Z.abs dt + 1 ≤ 2 ^ 53 ->
  MakeDay_of year month date = Some (MakeDay (y + m / 12) (m mod 12) dt).
Proof.
  intros Hy Hm Hd H1 H2. unfold MakeDay_of. rewrite Hy, Hm, Hd.
  rewrite ?bind_Some. unfold MakeDay_int.
  rewrite (fl_small (m / 12)) by bound. rewrite ?bind_Some.
  rewrite (fl_small (y + m / 12)) by bound. rewrite ?bind_Some.
  rewrite (fl_small (MakeDay (y + m / 12) (m mod 12) 1 + dt)) by bound.
  rewrite ?bind_Some. rewrite fl_small by bound.
  f_equal. unfold MakeDay. lia.
Qed.

Lemma MakeDate_small (d t : Z) :
  Z.abs (d * msPerDay) ≤ 2 ^ 53 -> Z.abs (d * msPerDay + t) ≤ 2 ^ 53 ->
  MakeDate (Some d) (Some t) = Some (d * msPerDay + t).
Proof.
  intros H1 H2. unfold MakeDate. rewrite ?bind_Some.
  rewrite (fl_small (d * msPerDay)) by exact H1. rewrite ?bind_Some.
  now apply fl_small.
Qed.

Lemma clip_beyond (z : Z) : maxTime < Z.abs z -> clip (Some z) = None.
Proof.
  intros H. unfold clip, TimeClip, of_Z, Qle_bool, maxTime in *.
  cbn [Qabs inject_Z Qnum Qden].
  destruct (Z.leb_spec (Z.abs z * 1) (8640000000000000 * 1)); [lia|reflexivity].
Qed.

(** What rounding leaves of a sum that is large. *)
Lemma to_integer_add_ge (a n b : Z) (q : Q) :
  (q == inject_Z n)%Q -> Z.abs b ≤ 2 ^ 53 -> b ≤ a + n ->
  match to_integer (num_add (of_Z a) (Num q)) with
  | Some z => b ≤ z
  | None => True
  end.
Proof.
  intros Hq Hb H. cbn [num_add of_Z].
  assert (Hle : (inject_Z b <= inject_Z a + q)%Q).
  { rewrite Hq, <- inject_Z_plus, <- Zle_Qle. exact H. }
  pose proof (round64_ge _ _ (double_Z b Hb) Hle) as G.
  destruct (round64 (inject_Z a + q)) as [|sg|r]; [exact I|exact I|].
  cbn [num_leb to_integer] in *. apply Qle_bool_iff in G. now apply Qtrunc_ge.
Qed.

Lemma to_integer_add_le (a n b : Z) (q : Q) :
  (q == inject_Z n)%Q -> Z.abs b ≤ 2 ^ 53 -> a + n ≤ b ->
  match to_integer (num_add (of_Z a) (Num q)) with
  | Some z => z ≤ b
  | None => True
  end.
Proof.
  intros Hq Hb H. cbn [num_add of_Z].
  assert (Hle : (inject_Z a + q <= inject_Z b)%Q).
  { rewrite Hq, <- inject_Z_plus, <- Zle_Qle. exact H. }
  pose proof (round64_le _ _ (double_Z b Hb) Hle) as G.
  destruct (round64 (inject_Z a + q)) as [|sg|r]; [exact I|exact I|].
  cbn [num_leb to_integer] in *. apply Qle_bool_iff in G. now apply Qtrunc_le.
Qed.

Section FixedZone.

Variable other_formats : string -> number.
Variable tz : Z.

Local Abbreviation zone := (fun _ : Z => tz).

Lemma clip_in_range (z : Z) : in_range z = true -> clip (Some z) = Some z.
Proof. apply TimeClip_of_Z. Qed.

Lemma clip_eq (z z' : Z) : z = z' -> in_range z' = true -> clip (Some z) = Some z'.
Proof. intros ->. apply clip_in_range. Qed.

Lemma addTime_linear (x : DateInput) (q : Q) (n : Z) (unit : TimeUnit) (t : Z) :
  wf_input x ->
  toDate other_formats x = Normal (Some t) ->
  (q == inject_Z n)%Q ->
  fixed_length unit = true ->
  - msPerDay ≤ tz ≤ msPerDay ->
  in_range (n * msPerUnit unit) = true ->
  in_range (t + n * msPerUnit unit) = true ->
  addTime other_formats zone zone x (Num q) unit
  = Normal (Some (t + n * msPerUnit unit)).
Proof.
  intros Hwf Hx Hq Hu Htz Hspan Hr.
  pose proof (in_range_bounds _ (toDate_in_range other_formats x t Hwf Hx)) as Ht0.
  pose proof (in_range_bounds _ Hspan) as Hsp.
  pose proof (in_range_bounds _ Hr) as Hr'.
  unfold addTime. rewrite Hx. cbn [mbind completion_bind mret completion_ret].
  f_equal.
  pose proof (time_fields (t + tz)) as Ht. pose proof (day_time (t + tz)) as Hd.
  pose proof (calendar_fields (t + tz)) as (Hm & Hdt & Hday).
  pose proof (DaysInMonth_bounds (YearFromTime (t + tz)) _ Hm) as Hdim.
  pose proof (time_field_bounds (t + tz)) as (Bh & Bm & Bs & Bms).
  pose proof (TimeWithinDay_bounds (t + tz)) as Bw.
  assert (By : -290000 ≤ YearFromTime (t + tz) ≤ 290000)
    by (apply YearFromTime_bound; clear - Ht0 Htz; bound).
  assert (Hfirst : MakeDay (YearFromTime (t + tz)) (MonthFromTime (t + tz)) 1
                   = Day (t + tz) - DateFromTime (t + tz) + 1)
    by (rewrite <- Hday; unfold MakeDay; lia).
  assert (Hfield : forall f, 0 ≤ f < 1000 -> Z.abs (f + n) ≤ 2 ^ 53).
  { intros f Hf. clear - Hf Hsp. destruct unit; bound. }
  destruct (month_in_year _ Hm) as [Hm1 Hm2].
  destruct unit; try discriminate;
    unfold Date_setMilliseconds, Date_setSeconds, Date_setMinutes, Date_setHours,
      Date_setDate, Date_getMilliseconds, Date_getSeconds, Date_getMinutes,
      Date_getHours, Date_getDate, local_field, LocalTime;
    cbv zeta.
  - rewrite (MakeTime_small _ _ _ _ _ _ _ (msFromTime (t + tz) + n)
               (to_integer_of_Z _) (to_integer_of_Z _) (to_integer_of_Z _)
               (to_integer_add (msFromTime (t + tz)) n q Hq ltac:(apply Hfield; lia)))
      by (clear - Bh Bm Bs Bms Hsp; bound).
    rewrite MakeDate_small by (clear - Ht Hd Bw Ht0 Htz Hr'; bound).
    cbn [UTC fmap option_fmap option_map].
    apply clip_eq; [clear - Ht; bound|exact Hr].
  - rewrite (MakeTime_small _ _ _ _ _ _ (SecFromTime (t + tz) + n) _
               (to_integer_of_Z _) (to_integer_of_Z _)
               (to_integer_add (SecFromTime (t + tz)) n q Hq ltac:(apply Hfield; lia))
               (to_integer_of_Z _))
      by (clear - Bh Bm Bs Bms Hsp; bound).
    rewrite MakeDate_small by (clear - Ht Hd Bw Ht0 Htz Hr'; bound).
    cbn [UTC fmap option_fmap option_map].
    apply clip_eq; [clear - Ht; bound|exact Hr].
  - rewrite (MakeTime_small _ _ _ _ _ (MinFromTime (t + tz) + n) _ _
               (to_integer_of_Z _)
               (to_integer_add (MinFromTime (t + tz)) n q Hq ltac:(apply Hfield; lia))
               (to_integer_of_Z _) (to_integer_of_Z _))
      by (clear - Bh Bm Bs Bms Hsp; bound).
    rewrite MakeDate_small by (clear - Ht Hd Bw Ht0 Htz Hr'; bound).
    cbn [UTC fmap option_fmap option_map].
    apply clip_eq; [clear - Ht; bound|exact Hr].
  - rewrite (MakeTime_small _ _ _ _ (HourFromTime (t + tz) + n) _ _ _
               (to_integer_add (HourFromTime (t + tz)) n q Hq ltac:(apply Hfield; lia))
               (to_integer_of_Z _) (to_integer_of_Z _) (to_integer_of_Z _))
      by (clear - Bh Bm Bs Bms Hsp; bound).
    rewrite MakeDate_small by (clear - Ht Hd Bw Ht0 Htz Hr'; bound).
    cbn [UTC fmap option_fmap option_map].
    apply clip_eq; [clear - Ht; bound|exact Hr].
  - rewrite (MakeDay_of_small _ _ _ _ _ (DateFromTime (t + tz) + n)
               (to_integer_of_Z _) (to_integer_of_Z _)
               (to_integer_add (DateFromTime (t + tz)) n q Hq
                  ltac:(apply Hfield; lia)))
      by (rewrite ?Hm1, ?Hm2, ?Z.add_0_r, ?Hfirst;
          clear - By Hd Bw Ht0 Htz Hdt Hdim Hsp; bound).
    rewrite Hm1, Hm2, Z.add_0_r, MakeDay_date, Hday.
    rewrite MakeDate_small by (clear - Hd Bw Ht0 Htz Hsp Hr'; bound).
    cbn [UTC fmap option_fmap option_map].
    apply clip_eq; [clear - Hd; bound|exact Hr].
  - rewrite (num_mul_Z n 7 q Hq) by (clear - Hsp; bound).
    rewrite (MakeDay_of_small _ _ _ _ _ (DateFromTime (t + tz) + n * 7)
               (to_integer_of_Z _) (to_integer_of_Z _)
               (to_integer_add (DateFromTime (t + tz)) (n * 7) _ (Qeq_refl _)
                  ltac:(clear - Hdt Hdim Hsp; bound)))
      by (rewrite ?Hm1, ?Hm2, ?Z.add_0_r, ?Hfirst;
          clear - By Hd Bw Ht0 Htz Hdt Hdim Hsp; bound).
    rewrite Hm1, Hm2, Z.add_0_r, MakeDay_date, Hday.
    rewrite MakeDate_small by (clear - Hd Bw Ht0 Htz Hsp Hr'; bound).
    cbn [UTC fmap option_fmap option_map].
    apply clip_eq; [clear - Hd; bound|exact Hr].
Qed.

(** X8: in a zone with a fixed offset, adding a whole number [n] of
    milliseconds, seconds, minutes, hours, days or weeks to a date moves
    the time value by [n] times the length of the unit, provided the
    amount spans no more than the largest time value and the result is a
    legal time value.  (A larger amount can make the sums inside the
    setters round.) *)
Theorem addTime_fixed_units (x : DateInput) (q : Q) (n : Z) (unit : TimeUnit) (t : Z) :
  wf_input x ->
  toDate other_formats x = Normal (Some t) ->
  (q == inject_Z n)%Q ->
  fixed_length unit = true ->
  - msPerDay ≤ tz ≤ msPerDay ->
  in_range (n * msPerUnit unit) = true ->
  in_range (t + n * msPerUnit unit) = true ->
  addTime other_formats zone zone x (Num q) unit
  = Normal (Some (t + n * msPerUnit unit)).
Proof. intros. now apply addTime_linear. Qed.

(** X9: adding [n] units of fixed length with [addTime] and measuring the
    distance from the original with [diffTime] in the same unit gives [n]
    back, under the conditions of X8. *)
Theorem diffTime_addTime (x : DateInput) (q : Q) (n : Z) (unit : TimeUnit) (t : Z) :
  wf_input x ->
  toDate other_formats x = Normal (Some t) ->
  (q == inject_Z n)%Q ->
  fixed_length unit = true ->
  - msPerDay ≤ tz ≤ msPerDay ->
  in_range (n * msPerUnit unit) = true ->
  in_range (t + n * msPerUnit unit) = true ->
  exists d,
    addTime other_formats zone zone x (Num q) unit = Normal d /\
    diffTime other_formats (InDate d) x unit = Normal (of_Z n).
Proof.
  intros Hwf Hx Hq Hu Htz Hspan Hr. exists (Some (t + n * msPerUnit unit)).
  split; [now apply addTime_linear|].
  pose proof (in_range_bounds _ Hspan) as Hsp.
  pose proof (msPerUnit_pos unit) as Hpos.
  rewrite (diffTime_Normal other_formats _ _ unit (t + n * msPerUnit unit) t)
    by (reflexivity || exact Hx).
  rewrite num_sub_Z by bound. f_equal.
  apply num_div_Z; [exact Hpos|lia|].
  unfold maxTime in Hsp. change (2 ^ 53) with 9007199254740992. nia.
Qed.

(** A year far from the epoch gives no date, whatever the month, the day
    and the time of day. *)
Lemma far_year_invalid (ym mn dt w : Z) :
  100000000000000 ≤ Z.abs ym -> 0 ≤ mn ≤ 11 -> Z.abs dt ≤ 1000000 ->
  0 ≤ w < msPerDay -> - msPerDay ≤ tz ≤ msPerDay ->
  clip (UTC zone (MakeDate (fl (MakeDay ym mn 1 + dt) ≫= λ d, fl (d - 1)) (Some w)))
  = None.
Proof.
  intros Hy Hmn Hdt Hw Htz.
  pose proof (month_start_bounds (if leap ym then 1 else 0) mn
                ltac:(destruct (leap ym); auto) Hmn) as Hs.
  destruct (DayFromYear_far ym) as [Fp Fn].
  change (2 ^ 54) with 18014398509481984 in *.
  assert (H53 : Z.abs 9007199254740992 ≤ 2 ^ 53) by (vm_compute; discriminate).
  assert (H53' : Z.abs 9007199254740991 ≤ 2 ^ 53) by (vm_compute; discriminate).
  assert (N53 : Z.abs (-9007199254740992) ≤ 2 ^ 53) by (vm_compute; discriminate).
  assert (N53' : Z.abs (-9007199168340992) ≤ 2 ^ 53) by (vm_compute; discriminate).
  destruct (Z.le_gt_cases 0 ym) as [Hpos|Hneg].
  - specialize (Fp ltac:(lia)).
    pose proof (fl_ge 9007199254740992 (MakeDay ym mn 1 + dt) H53
                  ltac:(unfold MakeDay; lia)) as G1.
    destruct (fl (MakeDay ym mn 1 + dt)) as [d|]; [|reflexivity].
    rewrite ?bind_Some.
    pose proof (fl_ge 9007199254740991 (d - 1) H53' ltac:(lia)) as G2.
    destruct (fl (d - 1)) as [d'|]; [|reflexivity].
    unfold MakeDate. rewrite ?bind_Some.
    pose proof (fl_ge 9007199254740992 (d' * msPerDay) H53 ltac:(bound)) as G3.
    destruct (fl (d' * msPerDay)) as [p|]; [|reflexivity]. rewrite ?bind_Some.
    pose proof (fl_ge 9007199254740992 (p + w) H53 ltac:(lia)) as G4.
    destruct (fl (p + w)) as [tv|]; [|reflexivity].
    cbn [UTC fmap option_fmap option_map]. apply clip_beyond. bound.
  - specialize (Fn ltac:(lia)).
    pose proof (fl_le (-9007199254740992) (MakeDay ym mn 1 + dt) N53
                  ltac:(unfold MakeDay; lia)) as G1.
    destruct (fl (MakeDay ym mn 1 + dt)) as [d|]; [|reflexivity].
    rewrite ?bind_Some.
    pose proof (fl_le (-9007199254740992) (d - 1) N53 ltac:(lia)) as G2.
    destruct (fl (d - 1)) as [d'|]; [|reflexivity].
    unfold MakeDate. rewrite ?bind_Some.
    pose proof (fl_le (-9007199254740992) (d' * msPerDay) N53 ltac:(bound)) as G3.
    destruct (fl (d' * msPerDay)) as [p|]; [|reflexivity]. rewrite ?bind_Some.
    pose proof (fl_le (-9007199168340992) (p + w) N53' ltac:(bound)) as G4.
    destruct (fl (p + w)) as [tv|]; [|reflexivity].
    cbn [UTC fmap option_fmap option_map]. apply clip_beyond. bound.
Qed.

Lemma MakeDay_int_far (y m dt w : Z) :
  (Z.abs y ≤ 290000 /\ 2 ^ 53 ≤ Z.abs m)
  \/ (700000000000000 ≤ Z.abs y /\ 0 ≤ m ≤ 11) ->
  Z.abs dt ≤ 1000000 -> 0 ≤ w < msPerDay -> - msPerDay ≤ tz ≤ msPerDay ->
  clip (UTC zone (MakeDate (MakeDay_int y m dt) (Some w))) = None.
Proof.
  intros H Hdt Hw Htz. unfold MakeDay_int.
  assert (Hmn : 0 ≤ m mod 12 ≤ 11) by (pose proof (Z.mod_pos_bound m 12); lia).
  assert (P7 : Z.abs 700000000000000 ≤ 2 ^ 53) by (vm_compute; discriminate).
  assert (P6 : Z.abs 600000000000000 ≤ 2 ^ 53) by (vm_compute; discriminate).
  assert (N7 : Z.abs (-700000000000000) ≤ 2 ^ 53) by (vm_compute; discriminate).
  assert (N6 : Z.abs (-600000000000000) ≤ 2 ^ 53) by (vm_compute; discriminate).
  change (2 ^ 53) with 9007199254740992 in H.
  destruct H as [[Hy Hm]|[Hy Hm]].
  - destruct (Z.le_gt_cases 0 m) as [Hpos|Hneg].
    + pose proof (fl_ge 700000000000000 (m / 12) P7
                    ltac:(clear - Hm Hpos; Z.div_mod_to_equations; lia)) as G1.
      destruct (fl (m / 12)) as [c|]; [|reflexivity]. rewrite ?bind_Some.
      pose proof (fl_ge 600000000000000 (y + c) P6 ltac:(lia)) as G2.
      destruct (fl (y + c)) as [ym|]; [|reflexivity]. rewrite ?bind_Some.
      apply far_year_invalid; (assumption || lia).
    + pose proof (fl_le (-700000000000000) (m / 12) N7
                    ltac:(clear - Hm Hneg; Z.div_mod_to_equations; lia)) as G1.
      destruct (fl (m / 12)) as [c|]; [|reflexivity]. rewrite ?bind_Some.
      pose proof (fl_le (-600000000000000) (y + c) N6 ltac:(lia)) as G2.
      destruct (fl (y + c)) as [ym|]; [|reflexivity]. rewrite ?bind_Some.
      apply far_year_invalid; (assumption || lia).
  - replace (m / 12) with 0 by (clear - Hm; Z.div_mod_to_equations; lia).
    rewrite (fl_small 0) by (vm_compute; discriminate). rewrite ?bind_Some.
    destruct (Z.le_gt_cases 0 y) as [Hpos|Hneg].
    + pose proof (fl_ge 700000000000000 (y + 0) P7 ltac:(lia)) as G2.
      destruct (fl (y + 0)) as [ym|]; [|reflexivity]. rewrite ?bind_Some.
      apply far_year_invalid; (assumption || lia).
    + pose proof (fl_le (-700000000000000) (y + 0) N7 ltac:(lia)) as G2.
      destruct (fl (y + 0)) as [ym|]; [|reflexivity]. rewrite ?bind_Some.
      apply far_year_invalid; (assumption || lia).
Qed.

(** X10: adding [12 * k] months is adding [k] years, for every date and
    every integer [k], overflow and invalid input included: where the
    sums round, neither call gives a date. *)
Theorem addTime_twelve_months (x : DateInput) (q q' : Q) (k : Z) :
  wf_input x -> - msPerDay ≤ tz ≤ msPerDay ->
  (q == inject_Z (12 * k))%Q -> (q' == inject_Z k)%Q ->
  addTime other_formats zone zone x (Num q) months
  = addTime other_formats zone zone x (Num q') years.
Proof.
  intros Hwf Htz Hq Hq'. unfold addTime.
  destruct (toDate other_formats x) as [[t|]|e] eqn:Hx;
    cbn [mbind completion_bind mret completion_ret]; [|reflexivity|reflexivity].
  f_equal.
  pose proof (in_range_bounds _ (toDate_in_range other_formats x t Hwf Hx)) as Ht0.
  pose proof (calendar_fields (t + tz)) as (Hm & Hdt & _).
  pose proof (DaysInMonth_bounds (YearFromTime (t + tz)) _ Hm) as Hdim.
  pose proof (TimeWithinDay_bounds (t + tz)) as Bw.
  assert (By : -290000 ≤ YearFromTime (t + tz) ≤ 290000)
    by (apply YearFromTime_bound; clear - Ht0 Htz; bound).
  unfold Date_setMonth, Date_setFullYear, Date_getMonth, Date_getFullYear,
    local_field, LocalTime. cbv zeta.
  set (Y := YearFromTime (t + tz)) in *. set (M := MonthFromTime (t + tz)) in *.
  set (D := DateFromTime (t + tz)) in *. set (W := TimeWithinDay (t + tz)) in *.
  clearbody Y M D W. clear Hx Ht0.
  unfold MakeDay_of. rewrite !to_integer_of_Z. rewrite ?bind_Some.
  destruct (Z.le_gt_cases (Z.abs (M + 12 * k)) (2 ^ 53)) as [Hsmall|Hbig].
  - rewrite (to_integer_add M (12 * k) q Hq Hsmall).
    rewrite (to_integer_add Y k q' Hq') by (clear - Hsmall Hm By; bound).
    rewrite ?bind_Some. rewrite ?to_integer_of_Z. rewrite ?bind_Some.
    rewrite ?to_integer_of_Z. rewrite ?bind_Some. unfold MakeDay_int.
    replace ((M + 12 * k) / 12) with k by (clear - Hm; Z.div_mod_to_equations; lia).
    replace ((M + 12 * k) mod 12) with M by (clear - Hm; Z.div_mod_to_equations; lia).
    replace (M / 12) with 0 by (clear - Hm; Z.div_mod_to_equations; lia).
    replace (M mod 12) with M by (clear - Hm; Z.div_mod_to_equations; lia).
    rewrite (fl_small k) by (clear - Hsmall Hm; bound).
    rewrite (fl_small 0) by (vm_compute; discriminate).
    rewrite ?bind_Some. now rewrite Z.add_0_r.
  - change (2 ^ 53) with 9007199254740992 in Hbig.
    assert (P53 : Z.abs 9007199254740992 ≤ 2 ^ 53) by (vm_compute; discriminate).
    assert (N53 : Z.abs (-9007199254740992) ≤ 2 ^ 53) by (vm_compute; discriminate).
    assert (P7 : Z.abs 700000000000000 ≤ 2 ^ 53) by (vm_compute; discriminate).
    assert (N7 : Z.abs (-700000000000000) ≤ 2 ^ 53) by (vm_compute; discriminate).
    transitivity (@None Z); [|symmetry].
    + destruct (Z.le_gt_cases 0 (M + 12 * k)) as [Hpos|Hneg].
      * pose proof (to_integer_add_ge M (12 * k) 9007199254740992 q Hq P53
                      ltac:(lia)) as G.
        destruct (to_integer (num_add (of_Z M) (Num q))) as [m1|]; [|reflexivity].
        rewrite ?bind_Some. rewrite ?to_integer_of_Z. rewrite ?bind_Some.
        apply MakeDay_int_far;
          first [assumption | lia | left; change (2 ^ 53) with 9007199254740992; lia].
      * pose proof (to_integer_add_le M (12 * k) (-9007199254740992) q Hq N53
                      ltac:(lia)) as G.
        destruct (to_integer (num_add (of_Z M) (Num q))) as [m1|]; [|reflexivity].
        rewrite ?bind_Some. rewrite ?to_integer_of_Z. rewrite ?bind_Some.
        apply MakeDay_int_far;
          first [assumption | lia | left; change (2 ^ 53) with 9007199254740992; lia].
    + destruct (Z.le_gt_cases 0 (M + 12 * k)) as [Hpos|Hneg].
      * pose proof (to_integer_add_ge Y k 700000000000000 q' Hq' P7
                      ltac:(lia)) as G.
        destruct (to_integer (num_add (of_Z Y) (Num q'))) as [y2|]; [|reflexivity].
        rewrite ?bind_Some. rewrite ?to_integer_of_Z. rewrite ?bind_Some.
        rewrite ?to_integer_of_Z. rewrite ?bind_Some.
        apply MakeDay_int_far; first [assumption | lia | right; lia].
      * pose proof (to_integer_add_le Y k (-700000000000000) q' Hq' N7
                      ltac:(lia)) as G.
        destruct (to_integer (num_add (of_Z Y) (Num q'))) as [y2|]; [|reflexivity].
        rewrite ?bind_Some. rewrite ?to_integer_of_Z. rewrite ?bind_Some.
        rewrite ?to_integer_of_Z. rewrite ?bind_Some.
        apply MakeDay_int_far; first [assumption | lia | right; lia].
Qed.

Lemma DayFromYear_near (y : Z) :
  Z.abs (DayFromYear y) ≤ 200000000 -> Z.abs y ≤ 600000.
Proof. unfold DayFromYear. intros H. Z.div_mod_to_equations. lia. Qed.

(** X11: adding months keeps the time of day, and keeps the day of the
    month when the month arrived at has such a day; otherwise the date
    runs over into the following month by the days that are missing (31
    January plus one month is 3 March, or 2 March in a leap year). *)
Theorem addTime_months (x : DateInput) (q : Q) (n t : Z) :
  wf_input x ->
  toDate other_formats x = Normal (Some t) ->
  (q == inject_Z n)%Q ->
  - msPerDay ≤ tz ≤ msPerDay ->
  let L := t + tz in
  let y' := YearFromTime L + (MonthFromTime L + n) / 12 in
  let m' := (MonthFromTime L + n) mod 12 in
  let t' := MakeDay y' m' (DateFromTime L) * msPerDay + TimeWithinDay L - tz in
  in_range t' = true ->
  addTime other_formats zone zone x (Num q) months = Normal (Some t') /\
  TimeWithinDay (t' + tz) = TimeWithinDay L /\
  if DateFromTime L <=? DaysInMonth y' m'
  then YearFromTime (t' + tz) = y' /\ MonthFromTime (t' + tz) = m' /\
       DateFromTime (t' + tz) = DateFromTime L
  else YearFromTime (t' + tz) = y' + (m' + 1) / 12 /\
       MonthFromTime (t' + tz) = (m' + 1) mod 12 /\
       DateFromTime (t' + tz) = DateFromTime L - DaysInMonth y' m'.
Proof.
  intros Hwf Hx Hq Htz L y' m' t' Hr.
  pose proof (in_range_bounds _ (toDate_in_range other_formats x t Hwf Hx)) as Ht0.
  pose proof (in_range_bounds _ Hr) as Hr'.
  pose proof (TimeWithinDay_bounds L) as Hw.
  pose proof (calendar_fields L) as (Hm & Hd & _).
  pose proof (DaysInMonth_bounds (YearFromTime L) (MonthFromTime L) Hm) as Hdim.
  assert (Hm' : 0 ≤ m' ≤ 11) by (subst m'; Z.div_mod_to_equations; lia).
  pose proof (DaysInMonth_bounds y' m' Hm') as Hdim'.
  assert (HL' : t' + tz = MakeDay y' m' (DateFromTime L) * msPerDay + TimeWithinDay L)
    by (subst t'; lia).
  split; [|split].
  - assert (By : -290000 ≤ YearFromTime L ≤ 290000)
      by (apply YearFromTime_bound; subst L; clear - Ht0 Htz; bound).
    pose proof (month_start_bounds (if leap y' then 1 else 0) m'
                  ltac:(destruct (leap y'); auto) Hm') as Hs.
    assert (Hday' : Z.abs (MakeDay y' m' (DateFromTime L)) ≤ 100000002)
      by (clear - HL' Hr' Htz Hw; bound).
    assert (Hy' : Z.abs y' ≤ 600000).
    { apply DayFromYear_near. clear - Hday' Hs Hd Hdim. unfold MakeDay in Hday'. lia. }
    assert (Hn : MonthFromTime L + n = 12 * (y' - YearFromTime L) + m')
      by (subst y' m'; clear; Z.div_mod_to_equations; lia).
    assert (Hcarry : (MonthFromTime L + n) / 12 = y' - YearFromTime L)
      by (subst y'; lia).
    unfold addTime. rewrite Hx. cbn [mbind completion_bind mret completion_ret].
    f_equal.
    unfold Date_setMonth, Date_getMonth, local_field, LocalTime. cbv zeta.
    fold L.
    rewrite (MakeDay_of_small _ _ _ (YearFromTime L) (MonthFromTime L + n)
               (DateFromTime L) (to_integer_of_Z _)
               (to_integer_add (MonthFromTime L) n q Hq
                  ltac:(rewrite Hn; clear - Hy' By Hm'; bound))
               (to_integer_of_Z _)).
    + fold y' m'. rewrite MakeDate_small.
      * cbn [UTC fmap option_fmap option_map]. apply clip_eq; [reflexivity|exact Hr].
      * clear - Hday'. bound.
      * clear - HL' Hr' Htz. bound.
    + rewrite Hcarry. clear - Hy' By. bound.
    + fold y' m'. clear - Hday' Hd Hdim. unfold MakeDay in *. bound.
  - rewrite HL'. now apply TimeWithinDay_local.
  - rewrite HL'. destruct (Z.leb_spec (DateFromTime L) (DaysInMonth y' m')) as [Hfit|Hover].
    + apply fields_of_MakeDay; [exact Hm'|lia|now apply Day_local].
    + assert (Hn : 0 ≤ (m' + 1) mod 12 ≤ 11) by (Z.div_mod_to_equations; lia).
      pose proof (DaysInMonth_bounds (y' + (m' + 1) / 12) ((m' + 1) mod 12) Hn).
      apply fields_of_MakeDay; [exact Hn|lia|].
      rewrite Day_local by exact Hw.
      rewrite <- MakeDay_overflow by exact Hm'. f_equal. lia.
Qed.

(** X12: [startOfWeek] goes back to the Monday on or before the local
    day, by at most six days, and keeps the time of day; applied to its own
    result it changes nothing. *)
Theorem startOfWeek_monday (x : DateInput) (t : Z) :
  wf_input x ->
  toDate other_formats x = Normal (Some t) ->
  - msPerDay ≤ tz ≤ msPerDay ->
  let back := (WeekDay (t + tz) + 6) mod 7 in
  let t' := t - back * msPerDay in
  in_range t' = true ->
  startOfWeek other_formats zone zone x = Normal (Some t') /\
  0 ≤ back ≤ 6 /\
  WeekDay (t' + tz) = 1 /\
  TimeWithinDay (t' + tz) = TimeWithinDay (t + tz) /\
  startOfWeek other_formats zone zone (InDate (Some t')) = Normal (Some t').
Proof.
  intros Hwf Hx Htz.
  assert (Hstart : forall x t,
    wf_input x ->
    toDate other_formats x = Normal (Some t) ->
    in_range (t - (WeekDay (t + tz) + 6) mod 7 * msPerDay) = true ->
    startOfWeek other_formats zone zone x
    = Normal (Some (t - (WeekDay (t + tz) + 6) mod 7 * msPerDay))).
  { clear x t Hwf Hx. intros x t Hwf Hx Hr.
    pose proof (toDate_in_range other_formats x t Hwf Hx) as Ht0.
    unfold startOfWeek. rewrite Hx.
    cbn [mbind completion_bind].
    unfold Date_getDay, local_field, LocalTime.
    assert (Hwd : 0 ≤ WeekDay (t + tz) < 7)
      by (unfold WeekDay; apply Z.mod_pos_bound; lia).
    set (wd := WeekDay (t + tz)) in *.
    assert (Hback : (wd + 6) mod 7 = if wd =? 0 then 6 else wd - 1).
    { destruct (Z.eqb_spec wd 0); Z.div_mod_to_equations; lia. }
    rewrite Hback in *.
    assert (Heq : num_eqb (of_Z wd) (of_Z 0) = (wd =? 0)).
    { cbn. unfold Qeq_bool. cbn. now rewrite !Z.mul_1_r. }
    assert (Hspan : forall k, -6 ≤ k ≤ 0 -> in_range (k * msPerUnit days) = true).
    { intros k Hk. unfold in_range. apply andb_true_intro.
      split; apply Z.leb_le; bound. }
    rewrite Heq. destruct (Z.eqb_spec wd 0) as [E|E].
    - change (of_Z (-6)) with (Num (inject_Z (-6))).
      rewrite (addTime_linear (InDate (Some t)) (inject_Z (-6)) (-6) days t);
        [f_equal; f_equal; cbn; lia|exact Ht0|reflexivity|reflexivity|reflexivity
        |exact Htz|apply Hspan; lia|].
      cbn [msPerUnit]. replace (t + -6 * 86400000) with (t - 6 * msPerDay)
        by (unfold msPerDay; lia). exact Hr.
    - rewrite num_sub_Z by (clear - Hwd; bound).
      change (of_Z (1 - wd)) with (Num (inject_Z (1 - wd))).
      rewrite (addTime_linear (InDate (Some t)) (inject_Z (1 - wd)) (1 - wd) days t);
        [f_equal; f_equal; cbn; unfold msPerDay; lia|exact Ht0|reflexivity
        |reflexivity|reflexivity|exact Htz|apply Hspan; lia|].
      cbn [msPerUnit]. replace (t + (1 - wd) * 86400000) with (t - (wd - 1) * msPerDay)
        by (unfold msPerDay; lia). exact Hr. }
  intros back t' Hr.
  assert (Hwd : 0 ≤ WeekDay (t + tz) < 7)
    by (unfold WeekDay; apply Z.mod_pos_bound; lia).
  assert (Hb : 0 ≤ back ≤ 6) by (subst back; Z.div_mod_to_equations; lia).
  assert (Hmon : WeekDay (t' + tz) = 1).
  { subst t' back. unfold WeekDay, Day, msPerDay in *. Z.div_mod_to_equations. lia. }
  split; [now apply Hstart|]. split; [exact Hb|]. split; [exact Hmon|]. split.
  - subst t'. unfold TimeWithinDay, msPerDay. Z.div_mod_to_equations. lia.
  - rewrite (Hstart (InDate (Some t')) t'); [|exact Hr|reflexivity|].
    + rewrite Hmon. change ((1 + 6) mod 7) with 0. do 2 f_equal. lia.
    + rewrite Hmon. change ((1 + 6) mod 7) with 0.
      replace (t' - 0 * msPerDay) with t' by lia. exact Hr.
Qed.

Lemma DayFromYear_range (y : Z) :
  -271820 ≤ y ≤ 275760 -> -99999744 ≤ DayFromYear y ≤ 99999744.
Proof.
  intros H. pose proof (DayFromYear_mono (-271820) y).
  pose proof (DayFromYear_mono y 275760).
  change (DayFromYear (-271820)) with (-99999744) in *.
  change (DayFromYear 275760) with 99999744 in *. lia.
Qed.

Lemma daysInMonth_value (qy qm : Q) (y m : Z) :
  (qy == inject_Z y)%Q -> (qm == inject_Z m)%Q ->
  1 ≤ m ≤ 12 -> -271820 ≤ y ≤ 275759 -> - msPerDay ≤ tz ≤ msPerDay ->
  let ey := if (0 <=? y) && (y <=? 99) then 1900 + y else y in
  daysInMonth zone zone (Num qy) (Num qm)
  = of_Z (match m with
          | 2 => if leap ey then 29 else 28
          | 4 | 6 | 9 | 11 => 30
          | _ => 31
          end).
Proof.
  intros Hy Hm Hmr Hyr Htz ey.
  assert (Hey : -271820 ≤ ey ≤ 275759)
    by (subst ey; destruct (Z.leb_spec 0 y), (Z.leb_spec y 99); cbn [andb]; lia).
  unfold daysInMonth, Date_of_fields, Date_getDate, local_field, LocalTime.
  assert (Hfy : to_integer (MakeFullYear (Num qy)) = Some ey).
  { unfold MakeFullYear. rewrite (Qtrunc_integer qy y Hy). subst ey.
    destruct ((0 <=? y) && (y <=? 99)); [apply to_integer_of_Z|].
    cbn. now rewrite (Qtrunc_integer qy y Hy). }
  assert (Hfm : to_integer (Num qm) = Some m)
    by (cbn [to_integer]; now rewrite (Qtrunc_integer qm m Hm)).
  assert (Hprev : MakeDay (ey + m / 12) (m mod 12) 0
                  = MakeDay ey (m - 1) (DaysInMonth ey (m - 1))).
  { pose proof (MakeDay_overflow ey (m - 1) 0) as Ho.
    rewrite Z.add_0_r in Ho. replace (m - 1 + 1) with m in Ho by lia.
    symmetry. apply Ho. lia. }
  pose proof (DaysInMonth_bounds ey (m - 1)) as Hdim.
  pose proof (DayFromYear_range ey) as Hdy.
  pose proof (DayFromYear_range (ey + 1)) as Hdy1.
  pose proof (DayFromYear_succ ey) as Hsucc.
  assert (Hday : DayFromYear ey ≤ MakeDay (ey + m / 12) (m mod 12) 0 < DayFromYear (ey + 1)).
  { rewrite Hprev, Hsucc. unfold MakeDay, DaysInMonth, DaysInYear. clear -Hmr.
    assert (K : m = 1 \/ m = 2 \/ m = 3 \/ m = 4 \/ m = 5 \/ m = 6 \/ m = 7
                \/ m = 8 \/ m = 9 \/ m = 10 \/ m = 11 \/ m = 12) by lia.
    destruct (leap ey);
      destruct K as [->|[->|[->|[->|[->|[->|[->|[->|[->|[->|[->| ->]]]]]]]]]]];
      eval_month_start; lia. }
  assert (Hcarry : 0 ≤ m / 12 ≤ 1) by (clear - Hmr; Z.div_mod_to_equations; lia).
  assert (Hfirst : MakeDay (ey + m / 12) (m mod 12) 1
                   = MakeDay (ey + m / 12) (m mod 12) 0 + 1)
    by (unfold MakeDay; lia).
  rewrite (MakeDay_of_small _ _ _ ey m 0 Hfy Hfm (to_integer_of_Z 0))
    by (rewrite ?Hfirst; clear - Hey Hcarry Hday Hdy Hdy1 Hyr; bound).
  rewrite (MakeTime_small _ _ _ _ 0 0 0 0 (to_integer_of_Z _) (to_integer_of_Z _)
             (to_integer_of_Z _) (to_integer_of_Z _))
    by (vm_compute; discriminate).
  change (0 * msPerHour + 0 * msPerMinute + 0 * msPerSecond + 0) with 0.
  rewrite MakeDate_small
    by (clear - Hday Hdy Hdy1 Hyr Hey; bound).
  cbn [UTC fmap option_fmap option_map].
  rewrite clip_in_range.
  2: { unfold in_range, maxTime, msPerDay in *.
       apply andb_true_intro. split; apply Z.leb_le; lia. }
  f_equal.
  match goal with
  | |- DateFromTime ?z = _ =>
      replace z with (MakeDay (ey + m / 12) (m mod 12) 0 * msPerDay + 0) by lia
  end.
  assert (Hd : Day (MakeDay (ey + m / 12) (m mod 12) 0 * msPerDay + 0)
               = MakeDay ey (m - 1) (DaysInMonth ey (m - 1))).
  { rewrite Day_local by (unfold msPerDay; lia). exact Hprev. }
  apply (fields_of_MakeDay _ ey (m - 1) (DaysInMonth ey (m - 1))) in Hd; [|lia|lia].
  destruct Hd as (_ & _ & Hd). rewrite Hd. clear -Hmr.
  unfold DaysInMonth.
  assert (K : m = 1 \/ m = 2 \/ m = 3 \/ m = 4 \/ m = 5 \/ m = 6 \/ m = 7
              \/ m = 8 \/ m = 9 \/ m = 10 \/ m = 11 \/ m = 12) by lia.
  destruct (leap ey);
    destruct K as [->|[->|[->|[->|[->|[->|[->|[->|[->|[->|[->| ->]]]]]]]]]]];
    reflexivity.
Qed.

(** X15: for a month number from 1 to 12 [daysInMonth] is the length of
    that month, 28 or 29 for February by the leap-year rule; a year from 0
    to 99 is read as 1900 to 1999. *)
Theorem daysInMonth_table (qy qm : Q) (y m : Z) :
  (qy == inject_Z y)%Q -> (qm == inject_Z m)%Q ->
  1 ≤ m ≤ 12 -> -271820 ≤ y ≤ 275759 -> - msPerDay ≤ tz ≤ msPerDay ->
  let ey := if (0 <=? y) && (y <=? 99) then 1900 + y else y in
  daysInMonth zone zone (Num qy) (Num qm)
  = of_Z (match m with
          | 2 => if leap ey then 29 else 28
          | 4 | 6 | 9 | 11 => 30
          | _ => 31
          end).
Proof. intros. now apply daysInMonth_value. Qed.


(** X16: February has 29 days by [daysInMonth] exactly in the years that
    [isLeapYear] accepts, except for the year 0: [isLeapYear(0)] is true
    and [daysInMonth(0, 2)] is 28, because the [Date] constructor reads the
    year 0 as 1900. *)
Theorem february_and_isLeapYear (y : Z) :
  -271820 ≤ y ≤ 275759 -> - msPerDay ≤ tz ≤ msPerDay ->
  daysInMonth zone zone (of_Z y) (of_Z 2)
  = of_Z (if isLeapYear (of_Z y) && negb (y =? 0) then 29 else 28) /\
  isLeapYear (of_Z 0) = true.
Proof.
  intros Hy Htz. split; [|reflexivity].
  change (of_Z y) with (Num (inject_Z y)). change (of_Z 2) with (Num (inject_Z 2)).
  rewrite (daysInMonth_value _ _ y 2) by (reflexivity || lia).
  rewrite (isLeapYear_integer _ y) by reflexivity.
  f_equal. unfold leap.
  destruct (Z.leb_spec 0 y), (Z.leb_spec y 99); cbn [andb];
    try (destruct (Z.eqb_spec y 0); [lia|now rewrite andb_true_r]).
  destruct (Z.eqb_spec y 0) as [->|Hne]; [reflexivity|]. rewrite andb_true_r.
  replace ((1900 + y) mod 4) with (y mod 4) by (Z.div_mod_to_equations; lia).
  replace ((1900 + y) mod 100) with (y mod 100) by (Z.div_mod_to_equations; lia).
  replace ((1900 + y) mod 400 =? 0) with false
    by (symmetry; apply Z.eqb_neq; Z.div_mod_to_equations; lia).
  replace (y mod 400 =? 0) with false
    by (symmetry; apply Z.eqb_neq; Z.div_mod_to_equations; lia).
  reflexivity.
Qed.

Lemma isSameDay_days (a b : DateInput) (ta tb : Z) :
  toDate other_formats a = Normal (Some ta) ->
  toDate other_formats b = Normal (Some tb) ->
  isSameDay other_formats zone a b = Normal (Day (ta + tz) =? Day (tb + tz)).
Proof.
  intros Ha Hb. unfold isSameDay. rewrite Ha, Hb.
  cbn [mbind completion_bind mret completion_ret]. f_equal.
  unfold Date_getFullYear, Date_getMonth, Date_getDate, local_field, LocalTime.
  rewrite !num_eqb_of_Z. apply fields_same_day.
Qed.

(** X17: [isSameDay] holds exactly when the two instants fall on the same
    local day: comparing year, month and day of the month is comparing the
    day number. *)
Theorem isSameDay_local_day (a b : DateInput) (ta tb : Z) :
  toDate other_formats a = Normal (Some ta) ->
  toDate other_formats b = Normal (Some tb) ->
  isSameDay other_formats zone a b = Normal (Day (ta + tz) =? Day (tb + tz)).
Proof. intros. now apply isSameDay_days. Qed.


(** X18: an amount that is not a finite number is not rejected: [addTime]
    returns an invalid date without raising, and [toDate] refuses that
    date. *)
Theorem addTime_bad_amount (x : DateInput) (amount : number) (unit : TimeUnit) (t : Z) :
  toDate other_formats x = Normal (Some t) ->
  to_integer amount = None ->
  addTime other_formats zone zone x amount unit = Normal None /\
  toDate other_formats (InDate None) = Throw RangeError.
Proof.
  intros Hx Ha. split; [|reflexivity].
  unfold addTime. rewrite Hx. cbn [mbind completion_bind mret completion_ret].
  f_equal.
  destruct amount as [|sg|q]; [| |discriminate]; destruct unit; reflexivity.
Qed.

End FixedZone.

Section AnyZone.

Variable other_formats : string -> number.
Variables offset_at_utc offset_at_local : Z -> Z.

(** X19: in UTC two inputs are on the same day by [isSameDay] exactly
    when [toISODateString] gives the same string for both. *)
Theorem isSameDay_iso (a b : DateInput) (sa sb : string) :
  wf_input a -> wf_input b ->
  toISODateString other_formats a = Normal sa ->
  toISODateString other_formats b = Normal sb ->
  isSameDay other_formats (fun _ => 0) a b = Normal (String.eqb sa sb).
Proof.
  intros Wa Wb Ha Hb.
  apply toISODateString_Normal in Ha as (ta & Ea & ->).
  apply toISODateString_Normal in Hb as (tb & Eb & ->).
  pose proof (new_Date_in_range other_formats a ta Wa Ea) as Ra.
  pose proof (new_Date_in_range other_formats b tb Wb Eb) as Rb.
  assert (Ta : toDate other_formats a = Normal (Some ta))
    by (unfold toDate; now rewrite Ea).
  assert (Tb : toDate other_formats b = Normal (Some tb))
    by (unfold toDate; now rewrite Eb).
  rewrite (isSameDay_days other_formats 0 a b ta tb Ta Tb). f_equal.
  rewrite !Z.add_0_r.
  destruct (String.eqb_spec (iso_date ta) (iso_date tb)) as [E|E].
  - apply Z.eqb_eq. now apply iso_date_inj.
  - apply Z.eqb_neq. intros Hd. apply E.
    rewrite <- (iso_date_Day ta), <- (iso_date_Day tb). now rewrite Hd.
Qed.

Lemma compare_values (a b : DateInput) (ta tb : Z) :
  toDate other_formats a = Normal (Some ta) ->
  toDate other_formats b = Normal (Some tb) ->
  isBefore other_formats a b = Normal (ta <? tb) /\
  isAfter other_formats a b = Normal (tb <? ta) /\
  isBefore other_formats a b = isAfter other_formats b a /\
  (ta <? tb) || (tb <? ta) = negb (ta =? tb) /\
  (ta <? tb) && (tb <? ta) = false.
Proof.
  intros Ha Hb. unfold isBefore, isAfter. rewrite Ha, Hb.
  cbn [mbind completion_bind mret completion_ret JS.Date_getTime].
  rewrite !num_ltb_of_Z. repeat split.
  - destruct (Z.ltb_spec ta tb), (Z.ltb_spec tb ta), (Z.eqb_spec ta tb);
      cbn; reflexivity || lia.
  - destruct (Z.ltb_spec ta tb), (Z.ltb_spec tb ta); cbn; reflexivity || lia.
Qed.

(** X20: [isBefore] and [isAfter] compare the time values; swapping the
    arguments turns one into the other; of before, after and at the same
    instant exactly one holds. *)
Theorem compare_times (a b : DateInput) (ta tb : Z) :
  toDate other_formats a = Normal (Some ta) ->
  toDate other_formats b = Normal (Some tb) ->
  isBefore other_formats a b = Normal (ta <? tb) /\
  isAfter other_formats a b = Normal (tb <? ta) /\
  isBefore other_formats a b = isAfter other_formats b a /\
  (ta <? tb) || (tb <? ta) = negb (ta =? tb) /\
  (ta <? tb) && (tb <? ta) = false.
Proof. intros. now apply compare_values. Qed.


(** X21: [isWithinRange] includes both ends: the input is within the
    range exactly when it is neither before the start nor after the end.
    A range with an invalid bound contains nothing, and raises no error. *)
Theorem isWithinRange_bounds (x : DateInput) (r : DateRange) (t : Z) :
  toDate other_formats x = Normal (Some t) ->
  isWithinRange other_formats x r
  = Normal (match start r, end_ r with
            | Some s, Some e => (s <=? t) && (t <=? e)
            | _, _ => false
            end) /\
  match start r, end_ r with
  | Some s, Some e =>
      exists before after,
        isBefore other_formats x (InDate (Some s)) = Normal before /\
        isAfter other_formats x (InDate (Some e)) = Normal after /\
        isWithinRange other_formats x r = Normal (negb before && negb after)
  | _, _ => isWithinRange other_formats x r = Normal false
  end.
Proof.
  intros Hx.
  assert (E : isWithinRange other_formats x r
              = Normal (match start r, end_ r with
                        | Some s, Some e => (s <=? t) && (t <=? e)
                        | _, _ => false
                        end)).
  { unfold isWithinRange. rewrite Hx.
    cbn [mbind completion_bind mret completion_ret]. f_equal.
    destruct (start r) as [s|], (end_ r) as [e|]; cbn [JS.Date_getTime];
      rewrite ?num_leb_of_Z; try reflexivity.
    cbn. now rewrite andb_false_r. }
  split; [exact E|]. rewrite E.
  destruct (start r) as [s|], (end_ r) as [e|]; try reflexivity.
  exists (t <? s), (e <? t).
  destruct (compare_values x (InDate (Some s)) t s Hx eq_refl) as (-> & _).
  destruct (compare_values x (InDate (Some e)) t e Hx eq_refl) as (_ & -> & _).
  repeat split. now rewrite <- !Z.leb_antisym.
Qed.

(** X22: each function that takes dates raises [RangeError] exactly when
    one of its date arguments is invalid, whatever the amount, the unit,
    the range or the time zone. *)
Theorem invalid_dates_raise (a b : DateInput) (unit : TimeUnit) (amount : number)
    (r : DateRange) :
  is_throw (toDate other_formats a) = invalid other_formats a /\
  is_throw (toISODateString other_formats a) = invalid other_formats a /\
  is_throw (addTime other_formats offset_at_utc offset_at_local a amount unit)
    = invalid other_formats a /\
  is_throw (startOfWeek other_formats offset_at_utc offset_at_local a)
    = invalid other_formats a /\
  is_throw (isWithinRange other_formats a r) = invalid other_formats a /\
  is_throw (diffTime other_formats a b unit)
    = invalid other_formats a || invalid other_formats b /\
  is_throw (isBefore other_formats a b)
    = invalid other_formats a || invalid other_formats b /\
  is_throw (isAfter other_formats a b)
    = invalid other_formats a || invalid other_formats b /\
  is_throw (isSameDay other_formats offset_at_utc a b)
    = invalid other_formats a || invalid other_formats b.
Proof.
  unfold toISODateString, addTime, startOfWeek, isWithinRange, diffTime, isBefore,
    isAfter, isSameDay, addTime, toDate, invalid.
  destruct (new_Date other_formats a) as [ta|], (new_Date other_formats b) as [tb|];
    cbn; repeat split.
Qed.

End AnyZone.

(** *** Witnesses *)

Lemma addTime_fixed_units_witness :
  addTime (fun _ => NaN) (fun _ => 3600000) (fun _ => 3600000)
    (InString "2025-01-15") (Num (3 # 1)) days
  = Normal (Some 1737158400000).
Proof.
  rewrite (addTime_fixed_units (fun _ => NaN) 3600000 (InString "2025-01-15")
             (3 # 1) 3 days 1736899200000);
    [reflexivity|exact I|reflexivity|reflexivity|reflexivity
    |unfold msPerDay; lia|reflexivity|reflexivity].
Defined.

Lemma diffTime_addTime_witness :
  exists d,
    addTime (fun _ => NaN) (fun _ => 0) (fun _ => 0)
      (InString "2025-01-15") (Num (-36 # 1)) hours = Normal d /\
    diffTime (fun _ => NaN) (InDate d) (InString "2025-01-15") hours
    = Normal (of_Z (-36)).
Proof.
  apply (diffTime_addTime (fun _ => NaN) 0 (InString "2025-01-15") (-36 # 1) (-36)
           hours 1736899200000);
    [exact I|reflexivity|reflexivity|reflexivity|unfold msPerDay; lia
    |reflexivity|reflexivity].
Defined.

(** Beyond the bounds of X8 and X9 the sums round.  Adding
    17279999999999998 ms to the time value -8639999999999999 gives
    8640000000000000, one more than the exact sum, because
    [getMilliseconds() + amount] is not a double; and the difference of
    these two time values is reported as 17280000000000000. *)
Lemma addTime_far_amount :
  addTime (fun _ => NaN) (fun _ => 0) (fun _ => 0)
    (InDate (Some (-8639999999999999))) (of_Z 17279999999999998) milliseconds
  = Normal (Some 8640000000000000) /\
  diffTime (fun _ => NaN) (InDate (Some 8640000000000000))
    (InDate (Some (-8639999999999999))) milliseconds
  = Normal (of_Z 17280000000000000) /\
  -8639999999999999 + 17279999999999998 = 8639999999999999.
Proof. repeat split; vm_compute; reflexivity. Qed.

Lemma addTime_twelve_months_witness :
  addTime (fun _ => NaN) (fun _ => 0) (fun _ => 0) (InString "2024-02-29") (Num (12 # 1)) months
  = addTime (fun _ => NaN) (fun _ => 0) (fun _ => 0) (InString "2024-02-29") (Num (1 # 1)) years.
Proof.
  apply (addTime_twelve_months (fun _ => NaN) 0 (InString "2024-02-29") _ _ 1);
    [exact I|unfold msPerDay; lia|reflexivity|reflexivity].
Defined.

Lemma addTime_months_witness :
  addTime (fun _ => NaN) (fun _ => 0) (fun _ => 0) (InString "2025-01-31") (Num (1 # 1)) months
  = Normal (Some 1740960000000) /\
  ISO_string 1740960000000 = "2025-03-03T00:00:00.000Z"%string.
Proof.
  assert (Htz : - msPerDay ≤ 0 ≤ msPerDay) by (unfold msPerDay; lia).
  split; [|reflexivity].
  rewrite (proj1 (addTime_months (fun _ => NaN) 0 (InString "2025-01-31") (1 # 1) 1
                    1738281600000 I eq_refl (Qeq_refl _) Htz eq_refl)).
  reflexivity.
Defined.

Lemma startOfWeek_monday_witness :
  startOfWeek (fun _ => NaN) (fun _ => 0) (fun _ => 0) (InString "2025-01-19")
  = Normal (Some 1736726400000) /\
  ISO_string 1736726400000 = "2025-01-13T00:00:00.000Z"%string.
Proof.
  assert (Htz : - msPerDay ≤ 0 ≤ msPerDay) by (unfold msPerDay; lia).
  split; [|reflexivity].
  rewrite (proj1 (startOfWeek_monday (fun _ => NaN) 0 (InString "2025-01-19")
                    1737244800000 I eq_refl Htz eq_refl)).
  reflexivity.
Defined.

Lemma isLeapYear_rule_witness :
  isLeapYear (Num (-2000 # 1)) = leap (-2000) /\
  DaysInYear (-2000) = (if isLeapYear (Num (-2000 # 1)) then 366 else 365) /\
  isLeapYear (of_Z (-2000 + 400)) = isLeapYear (Num (-2000 # 1)).
Proof. apply isLeapYear_rule. reflexivity. Defined.

Lemma isLeapYear_needs_integer_witness :
  exists q n, of_Z 2024 = Num q /\ (q == inject_Z n)%Q.
Proof. apply isLeapYear_needs_integer. reflexivity. Defined.

Lemma daysInMonth_table_witness :
  daysInMonth (fun _ => 3600000) (fun _ => 3600000) (Num (2024 # 1)) (Num (2 # 1))
  = of_Z 29.
Proof.
  rewrite (daysInMonth_table 3600000 (2024 # 1) (2 # 1) 2024 2);
    (reflexivity || (unfold msPerDay; lia)).
Defined.

Lemma february_and_isLeapYear_witness :
  daysInMonth (fun _ => 0) (fun _ => 0) (of_Z 1900) (of_Z 2)
  = of_Z (if isLeapYear (of_Z 1900) && negb (1900 =? 0) then 29 else 28) /\
  isLeapYear (of_Z 0) = true.
Proof. apply february_and_isLeapYear; unfold msPerDay; lia. Defined.

Lemma isSameDay_local_day_witness :
  isSameDay (fun _ => NaN) (fun _ => 3600000)
    (InString "2025-01-15") (InNumber (of_Z 1736982000000))
  = Normal (Day (1736899200000 + 3600000) =? Day (1736982000000 + 3600000)).
Proof.
  apply (isSameDay_local_day (fun _ => NaN) 3600000); reflexivity.
Defined.

Lemma addTime_bad_amount_witness :
  addTime (fun _ => NaN) (fun _ => 0) (fun _ => 0) (InString "2025-01-15") NaN days
  = Normal None /\
  toDate (fun _ => NaN) (InDate None) = Throw RangeError.
Proof.
  apply (addTime_bad_amount (fun _ => NaN) 0 (InString "2025-01-15") NaN days
           1736899200000); reflexivity.
Defined.

Lemma isSameDay_iso_witness :
  isSameDay (fun _ => NaN) (fun _ => 0)
    (InString "2025-01-15") (InNumber (of_Z 1736982000000))
  = Normal (String.eqb "2025-01-15" "2025-01-15").
Proof.
  apply (isSameDay_iso (fun _ => NaN)); (exact I || reflexivity).
Defined.

Lemma compare_times_witness :
  isBefore (fun _ => NaN) (InString "2025-01-15") (InString "2025-01-18")
  = Normal (1736899200000 <? 1737158400000).
Proof.
  apply (compare_times (fun _ => NaN) (InString "2025-01-15") (InString "2025-01-18")
           1736899200000 1737158400000); reflexivity.
Defined.

Lemma isWithinRange_bounds_witness :
  isWithinRange (fun _ => NaN) (InString "2025-01-15")
    {| start := Some 1736899200000; end_ := Some 1736899200000 |}
  = Normal true.
Proof.
  rewrite (proj1 (isWithinRange_bounds (fun _ => NaN) (InString "2025-01-15")
                    {| start := Some 1736899200000; end_ := Some 1736899200000 |}
                    1736899200000 eq_refl)).
  reflexivity.
Defined.

(** *** Relative time *)

Lemma round64_between (q lo hi : Q) :
  double lo -> double hi -> (lo <= q)%Q -> (q <= hi)%Q ->
  exists r, round64 q = Num r /\ (lo <= r)%Q /\ (r <= hi)%Q.
Proof.
  intros Dlo Dhi Hlo Hhi.
  pose proof (round64_ge q lo Dlo Hlo) as G.
  pose proof (round64_le q hi Dhi Hhi) as L.
  destruct (round64 q) as [|sg|r]; cbn [num_leb] in *.
  - discriminate.
  - destruct sg; discriminate.
  - exists r. split; [reflexivity|]. split; now apply Qle_bool_iff.
Qed.

Lemma double_Qmake (m j : Z) (p : positive) :
  Z.abs m < 2 ^ 53 -> 0 ≤ j ≤ 1074 -> Z.pos p = 2 ^ j -> double (m # p).
Proof.
  intros Hm Hj Hp. refine (double_Qeq _ _ _ (double_dyadic m j Hm Hj)).
  rewrite <- Hp. unfold Qeq. cbn. lia.
Qed.

Lemma Math_abs_of_Z (d : Z) : Math_abs (of_Z d) = of_Z (Z.abs d).
Proof. reflexivity. Qed.

(** The comparison with a threshold is not affected by rounding. *)
Lemma lt_threshold (d L : Z) :
  0 < L ≤ 31536000 ->
  num_ltb (num_div (Math_abs (of_Z d)) (of_Z 1000)) (of_Z L)
  = (Z.abs d <? 1000 * L).
Proof.
  intros HL. rewrite Math_abs_of_Z. unfold of_Z at 1.
  rewrite num_div_pos by lia.
  destruct (Z.ltb_spec (Z.abs d) (1000 * L)) as [Hlt|Hge].
  - destruct (round64_between (inject_Z (Z.abs d) / inject_Z 1000) (inject_Z 0)
                ((1024 * L - 1) # 1024)) as (r & -> & _ & Hr).
    + apply double_Z. vm_compute. discriminate.
    + apply (double_Qmake _ 10); [change (2 ^ 53) with 9007199254740992| |]; lia.
    + unfold Qle. cbn. lia.
    + unfold Qle. cbn. lia.
    + cbn [num_ltb of_Z]. apply negb_true_iff. apply not_true_is_false.
      intros H. apply Qle_bool_iff in H.
      pose proof (Qle_trans _ _ _ H Hr) as C. unfold Qle in C. cbn in C. lia.
  - assert (G : num_leb (of_Z L) (round64 (inject_Z (Z.abs d) / inject_Z 1000)) = true).
    { apply round64_ge.
      - apply double_Z. change (2 ^ 53) with 9007199254740992. lia.
      - unfold Qle. cbn. lia. }
    destruct (round64 _) as [|sg|r]; cbn [num_leb num_ltb of_Z] in *.
    + discriminate.
    + now destruct sg.
    + now rewrite G.
Qed.

Lemma lt_infinity (d : Z) :
  Z.abs d ≤ 2 ^ 53 ->
  num_ltb (num_div (Math_abs (of_Z d)) (of_Z 1000)) (Inf false) = true.
Proof.
  change (2 ^ 53) with 9007199254740992. intros Hd.
  rewrite Math_abs_of_Z. unfold of_Z at 1. rewrite num_div_pos by lia.
  destruct (round64_between (inject_Z (Z.abs d) / inject_Z 1000) (inject_Z 0)
              (inject_Z 9007199254740992)) as (r & -> & _).
  - apply double_Z. vm_compute. discriminate.
  - apply double_Z. vm_compute. discriminate.
  - unfold Qle. cbn. lia.
  - unfold Qle. cbn. lia.
  - reflexivity.
Qed.

(** Within 200000 units, and within [2 ^ 52] milliseconds, the two
    divisions and [Math.round] give the exact quotient rounded to the
    nearest integer, a half upward. *)
Lemma round_scaled (d p : Z) :
  1 ≤ p ≤ 31536000 -> Z.abs d ≤ 200000 * (1000 * p) -> Z.abs d ≤ 2 ^ 52 ->
  Math_round (num_div (num_div (of_Z d) (of_Z 1000)) (of_Z p))
  = of_Z ((2 * d + 1000 * p) / (2 * (1000 * p))).
Proof.
  change (2 ^ 52) with 4503599627370496. intros Hp Hd Hd52.
  set (k := (2 * d + 1000 * p) / (2 * (1000 * p))).
  assert (Hk : 2000 * (p * k) ≤ 2 * d + 1000 * p < 2000 * (p * k) + 2000 * p).
  { pose proof (Z.div_mod (2 * d + 1000 * p) (2 * (1000 * p)) ltac:(lia)) as E.
    pose proof (Z.mod_pos_bound (2 * d + 1000 * p) (2 * (1000 * p)) ltac:(lia)) as B.
    fold k in E. lia. }
  assert (Hkb : -200001 ≤ k ≤ 200001).
  { split.
    - destruct (Z.le_gt_cases (-200001) k) as [|C]; [assumption|exfalso].
      assert (p * k ≤ p * (-200002)) by (apply Z.mul_le_mono_nonneg_l; lia). lia.
    - destruct (Z.le_gt_cases k 200001) as [|C]; [assumption|exfalso].
      assert (p * 200002 ≤ p * k) by (apply Z.mul_le_mono_nonneg_l; lia). lia. }
  assert (Hpk : p * (2 * k + 1) = 2 * (p * k) + p) by ring.
  assert (Hpk' : p * (2 * k - 1) = 2 * (p * k) - p) by ring.
  change (of_Z d) with (Num (inject_Z d)). rewrite num_div_pos by lia.
  destruct (round64_between (inject_Z d / inject_Z 1000)
              ((p * (2 * k - 1)) # 2) ((512 * (p * (2 * k + 1)) - 1) # 1024))
    as (r1 & -> & Hlo1 & Hhi1).
  { apply (double_Qmake _ 1); [change (2 ^ 53) with 9007199254740992| |]; lia. }
  { apply (double_Qmake _ 10); [change (2 ^ 53) with 9007199254740992| |]; lia. }
  { unfold Qle. cbn. lia. }
  { unfold Qle. cbn. lia. }
  rewrite num_div_pos by lia.
  destruct (round64_between (r1 / inject_Z p)
              ((2 * k - 1) # 2) (((2 * k + 1) * 17179869184 - 1) # 34359738368))
    as (r2 & -> & Hlo2 & Hhi2).
  { apply (double_Qmake _ 1); [change (2 ^ 53) with 9007199254740992| |]; lia. }
  { apply (double_Qmake _ 35); [change (2 ^ 53) with 9007199254740992| |]; lia. }
  { destruct r1 as [n1 d1], p as [|pp|pp]; try lia.
    unfold Qle in *. cbn in *.
    rewrite Pos2Z.inj_mul. 
    set (D := Z.pos d1) in *. set (P := Z.pos pp) in *.
    assert (HP : P * (2 * k - 1) * D ≤ n1 * 2) by lia. nia. }
  { destruct r1 as [n1 d1], p as [|pp|pp]; try lia.
    unfold Qle in *. cbn in *.
    rewrite Pos2Z.inj_mul.
    set (D := Z.pos d1) in *. set (P := Z.pos pp) in *.
    assert (0 < D) by (subst D; lia).
    assert (HP : P * D ≤ 33554432 * D) by nia.
    assert (Hh : n1 * 1024 ≤ (512 * (P * (2 * k + 1)) - 1) * D) by lia.
    nia. }
  cbn [Math_round]. f_equal.
  destruct r2 as [n2 d2]. unfold Qle in Hlo2, Hhi2. cbn in Hlo2, Hhi2.
  unfold Qfloor_Z. cbn [Qplus Qnum Qden].
  rewrite Pos2Z.inj_mul.
  set (D := Z.pos d2) in *. assert (0 < D) by (subst D; lia).
  symmetry. apply (Z.div_unique _ _ k (n2 * 2 + 1 * D - D * 2 * k)); [left|ring].
  nia.
Qed.

Section TimeAgo.

Variable other_formats : string -> number.
Variable RelativeTimeFormat : string -> completion (number -> TimeUnit -> string).

Lemma timeAgo_value (now : Z) (input : DateInput) (locale : option string) (t : Z)
    (format : number -> TimeUnit -> string) :
  toDate other_formats input = Normal (Some t) ->
  RelativeTimeFormat (default "en"%string locale) = Normal format ->
  Z.abs (t - now) ≤ 2 ^ 52 ->
  timeAgo other_formats RelativeTimeFormat now input locale
  = Normal (format (of_Z ((2 * (t - now) + (relative_unit (t - now)).1)
                          / (2 * (relative_unit (t - now)).1)))
              (relative_unit (t - now)).2).
Proof.
  intros Hx Hf Hd. unfold timeAgo. rewrite Hx. cbn [mbind completion_bind].
  rewrite Hf. cbn [mbind completion_bind mret completion_ret Date_getTime].
  f_equal.
  assert (Hd' : Z.abs (t - now) ≤ 4503599627370496) by exact Hd.
  rewrite num_sub_Z by (change (2 ^ 53) with 9007199254740992; lia).
  unfold thresholds, relative_unit. cbn [timeAgo_loop].
  rewrite !lt_threshold by lia.
  rewrite lt_infinity by (change (2 ^ 53) with 9007199254740992; lia).
  change (1000 * 60) with 60000. change (1000 * 3600) with 3600000.
  change (1000 * 86400) with 86400000. change (1000 * 2592000) with 2592000000.
  change (1000 * 31536000) with 31536000000.
  repeat match goal with
         | |- context [Z.abs (t - now) <? ?c] =>
             destruct (Z.ltb_spec (Z.abs (t - now)) c);
             [cbn [fst snd]; now rewrite round_scaled by (exact Hd || lia)|]
         end.
  cbn [fst snd]. now rewrite round_scaled by (exact Hd || lia).
Qed.

(** X23: for a valid input within [2 ^ 52] milliseconds of the current
    time and an accepted locale, [timeAgo] formats the difference in
    seconds below one minute, in minutes below one hour, in hours below one
    day, in days below 30 days, in months (of 30 days) below 365 days and
    in years (of 365 days) beyond, rounded to the nearest whole number, a
    half toward the future.  (The bound keeps the subtraction exact and
    leaves the two divisions a margin below the next half; see
    [timeAgo_far_difference] for a difference beyond [2 ^ 53].) *)
Theorem timeAgo_unit (now : Z) (input : DateInput) (locale : option string) (t : Z)
    (format : number -> TimeUnit -> string) :
  toDate other_formats input = Normal (Some t) ->
  RelativeTimeFormat (default "en"%string locale) = Normal format ->
  Z.abs (t - now) ≤ 2 ^ 52 ->
  timeAgo other_formats RelativeTimeFormat now input locale
  = Normal (format (of_Z ((2 * (t - now) + (relative_unit (t - now)).1)
                          / (2 * (relative_unit (t - now)).1)))
              (relative_unit (t - now)).2).
Proof. intros. now apply timeAgo_value. Qed.

(** X24: a time [n] and a half minutes in the past is reported as [n]
    minutes ago, because [Math.round] rounds a half upward: for the input
    [Date.now() - 90_000] the value formatted is -1 minute, where the
    comment on [timeAgo] announces "2 minutes ago". *)
Theorem timeAgo_half_minutes (now : Z) (input : DateInput) (locale : option string)
    (t n : Z) (format : number -> TimeUnit -> string) :
  toDate other_formats input = Normal (Some t) ->
  RelativeTimeFormat (default "en"%string locale) = Normal format ->
  1 ≤ n ≤ 58 ->
  now - t = 60000 * n + 30000 ->
  timeAgo other_formats RelativeTimeFormat now input locale
  = Normal (format (of_Z (- n)) minutes).
Proof.
  intros Hx Hf Hn Hd.
  rewrite (timeAgo_value now input locale t format Hx Hf)
    by (change (2 ^ 52) with 4503599627370496; lia).
  replace (t - now) with (- (60000 * n + 30000)) by lia.
  unfold relative_unit.
  destruct (Z.ltb_spec (Z.abs (- (60000 * n + 30000))) 60000); [lia|].
  destruct (Z.ltb_spec (Z.abs (- (60000 * n + 30000))) 3600000); [|lia].
  cbn [fst snd]. do 3 f_equal. Z.div_mod_to_equations. lia.
Qed.

(** [timeAgo] raises exactly when the input is an invalid date or the
    locale is not accepted. *)
Lemma timeAgo_raises (now : Z) (input : DateInput) (locale : option string) :
  is_throw (timeAgo other_formats RelativeTimeFormat now input locale)
  = invalid other_formats input
    || is_throw (RelativeTimeFormat (default "en"%string locale)).
Proof.
  unfold timeAgo, toDate, invalid.
  destruct (new_Date other_formats input) as [t|]; [|reflexivity].
  cbn. now destruct (RelativeTimeFormat (default "en"%string locale)).
Qed.

End TimeAgo.

(** Beyond [2 ^ 53] milliseconds the subtraction itself rounds: from the
    latest time value to a time 500000 and a half years before it, less a
    millisecond, the difference -15768015768000001 becomes
    -15768015768000000 and the value formatted is -500000 years, where the
    exact difference rounds to -500001. *)
Lemma timeAgo_far_difference :
  timeAgo (fun _ => NaN)
    (fun _ => Normal (fun v u =>
       match u with
       | years => if num_eqb v (of_Z (-500000)) then "-500000 years" else "?"
       | _ => "?"
       end)%string)
    8640000000000000 (InDate (Some (-7128015768000001))) None
  = Normal "-500000 years"%string
  /\ (2 * (-7128015768000001 - 8640000000000000) + 31536000000) / (2 * 31536000000)
     = -500001.
Proof. split; vm_compute; reflexivity. Qed.

Lemma timeAgo_unit_witness :
  timeAgo (fun _ => NaN) (fun _ => Normal (fun v u => match u with days => "d" | _ => "?" end)%string)
    1736899200000 (InString "2025-01-14") None
  = Normal "d"%string.
Proof.
  rewrite (timeAgo_unit (fun _ => NaN) _ 1736899200000 (InString "2025-01-14") None
             1736812800000 _ eq_refl eq_refl) by (vm_compute; discriminate).
  reflexivity.
Defined.

Lemma timeAgo_half_minutes_witness :
  timeAgo (fun _ => NaN)
    (fun _ => Normal (fun v u => if num_eqb v (of_Z (-1)) then "-1" else "?")%string)
    1736899290000 (InNumber (of_Z 1736899200000)) None
  = Normal "-1"%string.
Proof.
  rewrite (timeAgo_half_minutes (fun _ => NaN) _ 1736899290000
             (InNumber (of_Z 1736899200000)) None 1736899200000 1 _ eq_refl eq_refl);
    [reflexivity|lia|reflexivity].
Defined.
